(** * Compliance check and fix orchestration of backend/server.js

    A shallow embedding of the Express backend that checks and remediates
    MFA, RLS and PITR settings of a Supabase project.  The JSON payloads of
    the management API are dynamically typed, so they are kept as values of
    [JSValue] and read with JavaScript's truthiness, strict equality and
    property access.  Object literals built by the server itself have a fixed
    shape and are modelled as records.

    Effects.  The handlers talk to the outside through [axios] and write
    evidence with [logEvidence].  Both are threaded through a state and
    exception monad [M]: the state holds the in-memory [evidenceLogs] array
    and the trace of HTTP requests sent so far, an exception is a rejected
    promise.  The answer of the management API to a request is given by an
    arbitrary function [remote] of the requests sent before and of the
    request itself.  Clock readings ([timestamp] fields), [req.ip], error
    stacks and the ids stored in the records are left out; the id that
    [logEvidence] hands back (a string, or [null] when writing the files
    failed) is given by an arbitrary function [evidence_id] of the log so
    far.  The branches of a [Promise.all] are run one after the other, in
    the order of the array.  The compliance handlers start after the
    [validateToken] middleware, with the token it found; the middleware
    itself, the two account routes and the evidence route without a
    project are modelled after them.  The evidence files, and with them
    the evidence route of a single project, are left out. *)

From Stdlib Require Import ZArith List String Ascii Bool Arith Lia DecimalString.
Import ListNotations.
Open Scope string_scope.
Set Warnings "-register-all".

(** ** JavaScript values *)

(** Numbers are the integer-valued ones; JSON payloads of the management
    API carry no others in the fields the server reads.  [JNum n] is the
    double of value [n]; an integer that no double holds stands for no
    value.  Strings hold their text in UTF-8. *)
Inductive JSValue : Type :=
| JUndefined
| JNull
| JBool (b : bool)
| JNum (n : Z)
| JStr (s : string)
| JArr (items : list JSValue)
| JObj (fields : list (string * JSValue)).

(** ToBoolean. *)
Definition truthy (v : JSValue) : bool :=
  match v with
  | JUndefined | JNull => false
  | JBool b => b
  | JNum n => negb (n =? 0)%Z
  | JStr s => negb (s =? EmptyString)
  | JArr _ | JObj _ => true
  end.

(** [a && b] and [a || b] on values whose evaluation has no effect. *)
Definition js_and (a b : JSValue) : JSValue := if truthy a then b else a.
Definition js_or (a b : JSValue) : JSValue := if truthy a then a else b.

(** [Array.isArray(v)], together with the elements. *)
Definition asArray (v : JSValue) : option (list JSValue) :=
  match v with JArr items => Some items | _ => None end.

Definition isArray (v : JSValue) : bool :=
  match asArray v with Some _ => true | None => false end.

(** [v === true] and [v !== 'NONE']. *)
Definition strictly_true (v : JSValue) : bool :=
  match v with JBool true => true | _ => false end.

Definition strictly_differs_from_string (v : JSValue) (s : string) : bool :=
  match v with JStr t => negb (t =? s) | _ => true end.

(** [v === undefined], the test behind destructuring defaults. *)
Definition is_undefined (v : JSValue) : bool :=
  match v with JUndefined => true | _ => false end.

Definition nullish (v : JSValue) : bool :=
  match v with JUndefined | JNull => true | _ => false end.

Fixpoint lookup (k : string) (fields : list (string * JSValue)) : JSValue :=
  match fields with
  | [] => JUndefined
  | (k', v) :: rest => if k' =? k then v else lookup k rest
  end.

(** [v.k] for a [v] that is neither [null] nor [undefined].  None of the
    property names the server reads on API payloads is a built-in property
    of strings, numbers, booleans or arrays, so those give [undefined]. *)
Definition prop (v : JSValue) (k : string) : JSValue :=
  match v with
  | JObj fields => lookup k fields
  | _ => JUndefined
  end.

(** The decimal digits of an integer. *)
Definition decimal (n : Z) : string := NilZero.string_of_int (Z.to_int n).

(** Whether the integer [v] rounds to the double [x], for [x >= 2^53]:
    its distance to [x] is less than half the gap to the next double on
    that side, or equal to it when the mantissa of [x] is even. *)
Definition rounds_to (x v : Z) : bool :=
  let e := Z.log2 x in
  let ulp := (2 ^ (e - 52))%Z in
  let even_mantissa := Z.even (x / ulp) in
  let gap_above := (2 * ulp)%Z in
  let gap_below := (if x =? 2 ^ e then ulp else 2 * ulp)%Z in
  let d := (4 * (v - x))%Z in
  if (0 <=? d)%Z
  then (d <? gap_above)%Z || ((d =? gap_above)%Z && even_mantissa)
  else (- d <? gap_below)%Z || ((- d =? gap_below)%Z && even_mantissa).

(** The value [s * 10^(n-k)] of Number::toString: [k] significant digits
    with [k] as small as possible, the closest to [x] when two such
    values round to [x], the even [s] on a tie.  [x] has [digits]
    decimal digits. *)
Fixpoint shortest_from (fuel : nat) (x digits k : Z) : Z :=
  match fuel with
  | O => x
  | S fuel' =>
      let p := (10 ^ (digits - k))%Z in
      let lo := (x / p * p)%Z in
      let hi := (lo + p)%Z in
      match rounds_to x lo, rounds_to x hi with
      | true, true =>
          if (x - lo <? hi - x)%Z then lo
          else if (hi - x <? x - lo)%Z then hi
          else if Z.even (x / p) then lo else hi
      | true, false => lo
      | false, true => hi
      | false, false => shortest_from fuel' x digits (k + 1)%Z
      end
  end.

Definition shortest_decimal (x : Z) : Z :=
  shortest_from 17 x (Z.of_nat (String.length (decimal x))) 1.

Fixpoint strip_zeros (s : string) : string :=
  match s with
  | EmptyString => EmptyString
  | String c rest =>
      let rest' := strip_zeros rest in
      if (rest' =? EmptyString) && (c =? "0")%char then EmptyString
      else String c rest'
  end.

(** [1.2345e+21]: the digits of [v] without the zeros at the end, a point
    after the first digit when more follow, and the exponent. *)
Definition exponent_notation (v : Z) : string :=
  let all := decimal v in
  let exponent := decimal (Z.of_nat (String.length all) - 1) in
  match strip_zeros all with
  | EmptyString => all
  | String d EmptyString => String d ("e+" ++ exponent)
  | String d more => String d ("." ++ more ++ "e+" ++ exponent)
  end.

(** Number::toString.  Below [2^53] every integer is a double and prints
    as its decimal digits.  From there on the digits are those of the
    decimal with the fewest significant digits that still rounds to the
    double, followed by zeros; from [10^21] on they are printed with an
    exponent. *)
Definition number_to_string (n : Z) : string :=
  if (Z.abs n <? 2 ^ 53)%Z then decimal n
  else
    let v := shortest_decimal (Z.abs n) in
    (if (n <? 0)%Z then "-" else "")
      ++ (if (v <? 10 ^ 21)%Z then decimal v else exponent_notation v).

(** ToString, as applied by template literals.  Array elements that are
    [null] or [undefined] print as the empty string. *)
Fixpoint toString (v : JSValue) : string :=
  match v with
  | JUndefined => "undefined"
  | JNull => "null"
  | JBool true => "true"
  | JBool false => "false"
  | JNum n => number_to_string n
  | JStr s => s
  | JArr items =>
      (fix join (l : list JSValue) : string :=
         match l with
         | [] => EmptyString
         | x :: rest =>
             (if nullish x then EmptyString else toString x) ++
             match rest with [] => EmptyString | _ :: _ => "," ++ join rest end
         end) items
  | JObj _ => "[object Object]"
  end.

Definition js_string_opt (o : option string) : JSValue :=
  match o with Some s => JStr s | None => JNull end.

Definition js_nat (n : nat) : JSValue := JNum (Z.of_nat n).

(** Object spread [{...v}]: own enumerable properties of [v]. *)
Fixpoint indexed (i : nat) (l : list JSValue) : list (string * JSValue) :=
  match l with
  | [] => []
  | x :: rest => (number_to_string (Z.of_nat i), x) :: indexed (S i) rest
  end.

Definition chars (s : string) : list JSValue :=
  map (fun c => JStr (String c EmptyString)) (list_ascii_of_string s).

Definition spread (v : JSValue) : list (string * JSValue) :=
  match v with
  | JObj fields => fields
  | JArr items => indexed 0 items
  | JStr s => indexed 0 (chars s)
  | _ => []
  end.

(** [{...fields, k: v}]: an existing key keeps its place. *)
Fixpoint set_field (k : string) (v : JSValue) (fields : list (string * JSValue))
  : list (string * JSValue) :=
  match fields with
  | [] => [(k, v)]
  | (k', v') :: rest =>
      if k' =? k then (k, v) :: rest else (k', v') :: set_field k v rest
  end.

(** ** Errors and outcomes *)

(** An [Error] as the handlers read it: [message], and [response] with
    [status] and [data] when axios got an answer outside 2xx. *)
Record JSError : Type := mkError {
  message : string;
  response : option (Z * JSValue)
}.

Definition response_status (e : JSError) : JSValue :=
  match response e with Some (st, _) => JNum st | None => JUndefined end.

Definition response_data (e : JSError) : JSValue :=
  match response e with Some (_, d) => d | None => JUndefined end.

Inductive Outcome (A : Type) : Type :=
| Throw (e : JSError)
| Return (a : A).
Arguments Throw {A} e.
Arguments Return {A} a.

Definition type_error (v : JSValue) (k : string) : JSError :=
  mkError ("Cannot read properties of " ++ toString v ++ " (reading '" ++ k ++ "')")
          None.

(** [v.k] in full: a TypeError on [null] and [undefined]. *)
Definition get_prop (v : JSValue) (k : string) : Outcome JSValue :=
  if nullish v then Throw (type_error v k) else Return (prop v k).

(** ** Requests, evidence and the world *)

Inductive Method : Type := GET | POST | PATCH.

Record Request : Type := mkRequest {
  method : Method;
  url : string;
  bearer : string;
  body : JSValue
}.

Record EvidenceRecord : Type := mkEvidence {
  action : string;
  status : string;
  details : JSValue;
  ev_projectRef : option string
}.

Record World : Type := mkWorld {
  evidenceLogs : list EvidenceRecord;
  requests : list Request
}.

Definition M (A : Type) : Type := World -> Outcome A * World.

Definition ret {A} (a : A) : M A := fun w => (Return a, w).

Definition throw {A} (e : JSError) : M A := fun w => (Throw e, w).

Definition bind {A B} (m : M A) (k : A -> M B) : M B :=
  fun w =>
    match m w with
    | (Return a, w') => k a w'
    | (Throw e, w') => (Throw e, w')
    end.

(** [try { m } catch (e) { handler e }]. *)
Definition try_catch {A} (m : M A) (handler : JSError -> M A) : M A :=
  fun w =>
    match m w with
    | (Return a, w') => (Return a, w')
    | (Throw e, w') => handler e w'
    end.

Definition lift {A} (o : Outcome A) : M A := fun w => (o, w).

Declare Scope js_scope.
Delimit Scope js_scope with js.
Notation "x <- m ;; k" := (bind m (fun x => k))
  (at level 61, m at next level, right associativity) : js_scope.
Notation "m ;;; k" := (bind m (fun _ => k))
  (at level 61, right associativity) : js_scope.
Open Scope js_scope.

(** [list.map(f)] for an [f] that may throw: stops at the first throw. *)
Fixpoint map_throwing {A B} (f : A -> Outcome B) (l : list A) : Outcome (list B) :=
  match l with
  | [] => Return []
  | x :: rest =>
      match f x with
      | Throw e => Throw e
      | Return y =>
          match map_throwing f rest with
          | Throw e => Throw e
          | Return ys => Return (y :: ys)
          end
      end
  end.

(** [Promise.all(list.map(async f))] for an [f] whose promise never
    rejects, the calls taken in the order of the list. *)
Fixpoint for_each {A B} (f : A -> M B) (l : list A) : M (list B) :=
  match l with
  | [] => ret []
  | x :: rest =>
      y <- f x ;;
      ys <- for_each f rest ;;
      ret (y :: ys)
  end.

Definition dquote : string := String (ascii_of_nat 34) EmptyString.
Definition newline : string := String (ascii_of_nat 10) EmptyString.

Definition api_base : string := "https://api.supabase.com/v1".

Definition queryUrl (projectRef : string) : string :=
  api_base ++ "/projects/" ++ projectRef ++ "/database/query".

Definition authConfigUrl (projectRef : string) : string :=
  api_base ++ "/projects/" ++ projectRef ++ "/config/auth".

Definition backupsUrl (projectRef : string) : string :=
  api_base ++ "/projects/" ++ projectRef ++ "/database/backups".

(** JavaScript counts a string in UTF-16 code units: one for a character
    of one, two or three bytes of UTF-8, two for a character of four
    bytes, whose first byte is 240 or more; the bytes 128 to 191 continue
    a character. *)
Definition code_units (c : ascii) : nat :=
  let b := nat_of_ascii c in
  if (b <? 128)%nat then 1
  else if (b <? 192)%nat then 0
  else if (b <? 240)%nat then 1
  else 2.

(** [s.length] *)
Fixpoint js_length (s : string) : nat :=
  match s with
  | EmptyString => 0
  | String c rest => code_units c + js_length rest
  end.

Definition byte_at (n : nat) (s : string) : nat :=
  match get n s with Some c => nat_of_ascii c | None => 0 end.

(** The first code unit of the character of four bytes [lead], [rest]:
    its high surrogate, which is what a cut between the two code units
    leaves.  It is written as three bytes, in the manner of UTF-8. *)
Definition high_surrogate (lead : ascii) (rest : string) : string :=
  let top := ((nat_of_ascii lead mod 8) * 256
              + (byte_at 0 rest mod 64) * 4
              + (byte_at 1 rest mod 64) / 16 - 64)%nat in
  String (ascii_of_nat 237)
    (String (ascii_of_nat (160 + (top / 64) mod 16))
       (String (ascii_of_nat (128 + top mod 64)) EmptyString)).

(** [s.substring(0, n)]: the first [n] code units. *)
Fixpoint js_prefix (n : nat) (s : string) : string :=
  match s with
  | EmptyString => EmptyString
  | String c rest =>
      match code_units c, n with
      | O, _ => String c (js_prefix n rest)
      | _, O => EmptyString
      | 1, S n' => String c (js_prefix n' rest)
      | _, 1 => high_surrogate c rest
      | _, S (S n') => String c (js_prefix n' rest)
      end
  end.

(** [query.length > 1000 ? `${query.substring(0, 1000)}...` : query] *)
Definition truncate_query (query : string) : string :=
  if (1000 <? js_length query)%nat
  then js_prefix 1000 query ++ "..."
  else query.

(** The rows taken from [response.data] by [executeQuery]. *)
Definition normalizeRows (data : JSValue) : list JSValue :=
  match (if truthy data then asArray data else None) with
  | Some items =>
      match (if (0 <? List.length items)%nat
             then asArray (nth 0 items JUndefined) else None) with
      | Some inner => inner
      | None => items
      end
  | None => []
  end.

(** ** Results of the compliance check *)

Record Summary : Type := mkSummary {
  total : nat;
  passing : nat;
  failing : nat
}.

Definition zero_summary : Summary := mkSummary 0 0 0.

Definition summary_js (s : Summary) : JSValue :=
  JObj [("total", js_nat (total s));
        ("passing", js_nat (passing s));
        ("failing", js_nat (failing s))].

Record MfaUser : Type := mkMfaUser {
  user_id : JSValue;
  user_email : JSValue;
  hasMFA : JSValue;
  user_status : string
}.

(** The object returned by the MFA checker; a field that a return
    statement does not set is [None]. *)
Record MfaResult : Type := mkMfaResult {
  mfa_error : option string;
  mfaEnabledGlobally : option JSValue;
  mfa_users : option (list MfaUser);
  mfa_summary : option Summary;
  mfa_checkId : option JSValue
}.

Record RlsTable : Type := mkRlsTable {
  table_id : string;
  table_name : JSValue;
  table_schema : JSValue;
  rlsEnabled : JSValue;
  hasPolicies : JSValue;
  table_status : string
}.

Record RlsResult : Type := mkRlsResult {
  rls_check_error : option string;
  rls_check_tables : option (list RlsTable);
  rls_summary : option Summary;
  rls_checkId : option JSValue
}.

Record PitrResult : Type := mkPitrResult {
  pitr_error : option string;
  pitrEnabled : bool;
  pitr_status : string;
  backupsConfig : option JSValue;
  pitr_checkId : JSValue
}.

Record ReportSummary : Type := mkReportSummary {
  summary_mfa : Summary;
  summary_rls : Summary;
  summary_pitr : Summary;
  overallStatus : string
}.

Record ComplianceReport : Type := mkReport {
  report_projectRef : string;
  report_checkId : JSValue;
  report_mfa : MfaResult;
  report_rls : RlsResult;
  report_pitr : PitrResult;
  report_summary : ReportSummary
}.

(** What a handler sends: [res.status(200).json(body)] or
    [res.status(500).json({error, details})]. *)
Inductive HttpResponse (A : Type) : Type :=
| Json200 (payload : A)
| Json500 (error details500 : string).
Arguments Json200 {A} payload.
Arguments Json500 {A} error details500.

(** The three SQL texts, as the template literals spell them. *)
Definition mfa_user_query_sql : string :=
"
            SELECT 
              id, 
              email, 
              (
                SELECT count(*) > 0 
                FROM auth.mfa_factors 
                WHERE user_id = u.id
              ) as has_mfa
            FROM auth.users u;
          ".

Definition rls_tables_query_sql : string :=
"
            SELECT 
              n.nspname AS schemaname, 
              c.relname AS tablename, 
              pg_get_userbyid(c.relowner) AS tableowner,
              (SELECT EXISTS (
                SELECT 1 FROM pg_policies 
                WHERE schemaname = n.nspname AND tablename = c.relname
              )) AS has_policies,
              c.relrowsecurity AS rls_enabled
            FROM pg_catalog.pg_class c
            JOIN pg_catalog.pg_namespace n ON n.oid = c.relnamespace
            WHERE c.relkind = 'r'
            AND n.nspname = 'public'
            AND c.relname NOT LIKE 'pg_%'
            AND c.relname NOT LIKE 'sql_%'
            ORDER BY n.nspname, c.relname;
          ".

Definition rls_missing_tables_query_sql : string :=
"
              SELECT 
                n.nspname AS schemaname, 
                c.relname AS tablename
              FROM pg_catalog.pg_class c
              JOIN pg_catalog.pg_namespace n ON n.oid = c.relnamespace
              WHERE c.relkind = 'r'
              AND n.nspname = 'public'
              AND c.relname NOT LIKE 'pg_%'
              AND c.relname NOT LIKE 'sql_%'
              AND NOT c.relrowsecurity
              ORDER BY n.nspname, c.relname;
            ".

(** [authConfig && ((authConfig.sms_provider && authConfig.sms_provider !== 'NONE')
      || authConfig.mfa_enabled || authConfig.external_mfa_enabled)] *)
Definition mfa_signals (authConfig : JSValue) : JSValue :=
  js_or (js_or (js_and (prop authConfig "sms_provider")
                       (JBool (strictly_differs_from_string
                                 (prop authConfig "sms_provider") "NONE")))
               (prop authConfig "mfa_enabled"))
        (prop authConfig "external_mfa_enabled").

Definition mfaEnabled_of (authConfig : JSValue) : JSValue :=
  if truthy authConfig then mfa_signals authConfig else authConfig.

Definition redact (v : JSValue) : JSValue :=
  if truthy v then JStr "[REDACTED]" else JUndefined.

(** The [config] object of the [auth_config_retrieved] entry; reading a
    field of a [null] or [undefined] config throws. *)
Definition masked_config (authConfig : JSValue) : Outcome JSValue :=
  match get_prop authConfig "sms_provider_auth_token" with
  | Throw e => Throw e
  | Return tok =>
      Return (JObj
        (set_field "secure_email_change_token"
           (redact (prop authConfig "secure_email_change_token"))
           (set_field "smtp_pass" (redact (prop authConfig "smtp_pass"))
              (set_field "sms_provider_auth_token" (redact tok)
                 (spread authConfig)))))
  end.

(** [user => ({id, email, hasMFA: user.has_mfa, status: user.has_mfa ? 'pass' : 'fail'})] *)
Definition mfa_user_of_row (user : JSValue) : Outcome MfaUser :=
  match get_prop user "id" with
  | Throw e => Throw e
  | Return uid =>
      Return (mkMfaUser uid (prop user "email") (prop user "has_mfa")
                (if truthy (prop user "has_mfa") then "pass" else "fail"))
  end.

Definition count {A} (p : A -> bool) (l : list A) : nat :=
  List.length (filter p l).

Definition mfa_summary_of (users : list MfaUser) : Summary :=
  mkSummary (List.length users)
            (count (fun u => user_status u =? "pass") users)
            (count (fun u => user_status u =? "fail") users).

(** [table => ({id, name, schema, rlsEnabled, hasPolicies, status})] *)
Definition rls_table_of_row (table : JSValue) : Outcome RlsTable :=
  match get_prop table "schemaname" with
  | Throw e => Throw e
  | Return schemaname =>
      Return (mkRlsTable
                (toString schemaname ++ "." ++ toString (prop table "tablename"))
                (prop table "tablename")
                schemaname
                (prop table "rls_enabled")
                (prop table "has_policies")
                (if truthy (prop table "rls_enabled") then "pass" else "fail"))
  end.

Definition rls_summary_of (tables : list RlsTable) : Summary :=
  mkSummary (List.length tables)
            (count (fun t => table_status t =? "pass") tables)
            (count (fun t => table_status t =? "fail") tables).

(** [s || { total: 0, passing: 0, failing: 0 }] *)
Definition summary_or_zero (s : option Summary) : Summary :=
  match s with Some s' => s' | None => zero_summary end.

(** [s?.failing === 0] *)
Definition failing_is_zero (s : option Summary) : bool :=
  match s with Some s' => (failing s' =? 0)%nat | None => false end.

(** The [summary] object of the report. *)
Definition report_summary_of (mfaResult : MfaResult) (rlsResult : RlsResult)
    (pitrResult : PitrResult) : ReportSummary :=
  mkReportSummary
    (summary_or_zero (mfa_summary mfaResult))
    (summary_or_zero (rls_summary rlsResult))
    (mkSummary (if pitr_status pitrResult =? "error" then 0 else 1)
               (if pitr_status pitrResult =? "pass" then 1 else 0)
               (if pitr_status pitrResult =? "fail" then 1 else 0))
    (if failing_is_zero (mfa_summary mfaResult)
        && failing_is_zero (rls_summary rlsResult)
        && (pitr_status pitrResult =? "pass")
     then "pass" else "fail").

Definition report_summary_js (s : ReportSummary) : JSValue :=
  JObj [("mfa", summary_js (summary_mfa s));
        ("rls", summary_js (summary_rls s));
        ("pitr", JObj [("passing", js_nat (passing (summary_pitr s)));
                       ("failing", js_nat (failing (summary_pitr s)));
                       ("total", js_nat (total (summary_pitr s)))]);
        ("overallStatus", JStr (overallStatus s))].


(** ** Plan and outcome of the compliance fix *)

(** [{ needsFix, error? }] of the MFA and PITR status probes. *)
Record CategoryStatus : Type := mkCategoryStatus {
  needsFix : bool;
  status_error : option string
}.

Record TableRef : Type := mkTableRef {
  ref_schema : JSValue;
  ref_name : JSValue
}.

Record RlsStatus : Type := mkRlsStatus {
  rls_needsFix : bool;
  rls_status_tables : list TableRef;
  rls_status_error : option string
}.

Record ComplianceStatus : Type := mkComplianceStatus {
  status_mfa : CategoryStatus;
  status_rls : RlsStatus;
  status_pitr : CategoryStatus
}.

(** [needed] is [needsFix && fixX], hence whatever the caller sent as
    [fixX] when the probe asks for a fix. *)
Record CategoryFix : Type := mkCategoryFix {
  needed : JSValue;
  applied : bool;
  success : bool;
  fix_error : option string
}.

Record TableFix : Type := mkTableFix {
  fixed_table : string;
  table_success : bool;
  table_error : option string
}.

Record RlsFix : Type := mkRlsFix {
  rls_needed : JSValue;
  tableCount : nat;
  rls_applied : bool;
  rls_success : bool;
  rls_tables : list TableFix;
  rls_error : option string
}.

Record Fixes : Type := mkFixes {
  fix_mfa : CategoryFix;
  fix_rls : RlsFix;
  fix_pitr : CategoryFix
}.

Record FixSummary : Type := mkFixSummary {
  label_mfa : string;
  label_rls : string;
  label_pitr : string
}.

Record FixResult : Type := mkFixResult {
  fix_projectRef : string;
  fixId : JSValue;
  fix_summary : FixSummary;
  fix_details : Fixes
}.

Definition category_status_js (s : CategoryStatus) : JSValue :=
  JObj (("needsFix", JBool (needsFix s)) ::
        match status_error s with
        | Some e => [("error", JStr e)]
        | None => []
        end).

Definition table_ref_js (t : TableRef) : JSValue :=
  JObj [("schema", ref_schema t); ("name", ref_name t)].

Definition rls_status_js (s : RlsStatus) : JSValue :=
  JObj (("needsFix", JBool (rls_needsFix s)) ::
        ("tables", JArr (map table_ref_js (rls_status_tables s))) ::
        match rls_status_error s with
        | Some e => [("error", JStr e)]
        | None => []
        end).

Definition category_fix_js (f : CategoryFix) : JSValue :=
  JObj [("needed", needed f);
        ("applied", JBool (applied f));
        ("success", JBool (success f));
        ("error", js_string_opt (fix_error f))].

Definition table_fix_js (t : TableFix) : JSValue :=
  JObj (("table", JStr (fixed_table t)) ::
        ("success", JBool (table_success t)) ::
        match table_error t with
        | Some e => [("error", JStr e)]
        | None => []
        end).

Definition rls_fix_js (f : RlsFix) : JSValue :=
  JObj [("needed", rls_needed f);
        ("tableCount", js_nat (tableCount f));
        ("applied", JBool (rls_applied f));
        ("success", JBool (rls_success f));
        ("tables", JArr (map table_fix_js (rls_tables f)));
        ("error", js_string_opt (rls_error f))].

Definition fixes_js (f : Fixes) : JSValue :=
  JObj [("mfa", category_fix_js (fix_mfa f));
        ("rls", rls_fix_js (fix_rls f));
        ("pitr", category_fix_js (fix_pitr f))].

Definition fix_summary_js (s : FixSummary) : JSValue :=
  JObj [("mfa", JStr (label_mfa s));
        ("rls", JStr (label_rls s));
        ("pitr", JStr (label_pitr s))].

(** [const { k = true } = req.body]: the TypeError of reading [k] on a
    [null] or [undefined] body, the default for an [undefined] property. *)
Definition destructure_or_true (source : JSValue) (k : string) : Outcome JSValue :=
  if nullish source
  then Throw (type_error source k)
  else Return (if is_undefined (prop source k) then JBool true else prop source k).

(** [`${t.schemaname}.${t.tablename}`] on a row of the query. *)
Definition row_qualified_name (t : JSValue) : Outcome string :=
  match get_prop t "schemaname" with
  | Throw e => Throw e
  | Return schemaname =>
      Return (toString schemaname ++ "." ++ toString (prop t "tablename"))
  end.

(** [t => ({ schema: t.schemaname, name: t.tablename })] *)
Definition table_ref_of_row (t : JSValue) : Outcome TableRef :=
  match get_prop t "schemaname" with
  | Throw e => Throw e
  | Return schemaname => Return (mkTableRef schemaname (prop t "tablename"))
  end.

(** [`${table.schema}.${table.name}`] *)
Definition qualified_name (t : TableRef) : string :=
  toString (ref_schema t) ++ "." ++ toString (ref_name t).

(** [`ALTER TABLE "${table.schema}"."${table.name}" ENABLE ROW LEVEL SECURITY;`] *)
Definition alter_table_sql (t : TableRef) : string :=
  "ALTER TABLE " ++ dquote ++ toString (ref_schema t) ++ dquote ++ "."
    ++ dquote ++ toString (ref_name t) ++ dquote ++ " ENABLE ROW LEVEL SECURITY;".

(** The batch transaction: [BEGIN], one [ALTER TABLE] line per table,
    [COMMIT]. *)
Definition batch_sql (tables : list TableRef) : string :=
  fold_left (fun query t => query ++ alter_table_sql t ++ newline) tables
            ("BEGIN;" ++ newline)
    ++ "COMMIT;".

Definition pitrSqlQuery : string :=
  "SELECT pg_create_physical_replication_slot('pitr_slot');".

(** The plan: [needed: complianceStatus.x.needsFix && fixX]. *)
Definition plan (st : ComplianceStatus) (fixMfa fixRls fixPitr : JSValue) : Fixes :=
  mkFixes
    (mkCategoryFix (js_and (JBool (needsFix (status_mfa st))) fixMfa)
                   false false None)
    (mkRlsFix (js_and (JBool (rls_needsFix (status_rls st))) fixRls)
              (List.length (rls_status_tables (status_rls st)))
              false false [] None)
    (mkCategoryFix (js_and (JBool (needsFix (status_pitr st))) fixPitr)
                   false false None).

Definition category_label (f : CategoryFix) : string :=
  if negb (truthy (needed f)) then "no_action_needed"
  else if success f then "fixed" else "failed".

Definition rls_label (f : RlsFix) : string :=
  if negb (truthy (rls_needed f)) then "no_action_needed"
  else if rls_success f then "fixed"
  else if existsb table_success (rls_tables f) then "partially_fixed"
  else "failed".

Definition summary_of_fixes (fixes : Fixes) : FixSummary :=
  mkFixSummary (category_label (fix_mfa fixes))
               (rls_label (fix_rls fixes))
               (category_label (fix_pitr fixes)).

Definition allSuccessful (fixes : Fixes) : bool :=
  (negb (truthy (needed (fix_mfa fixes))) || success (fix_mfa fixes))
  && (negb (truthy (rls_needed (fix_rls fixes))) || rls_success (fix_rls fixes))
  && (negb (truthy (needed (fix_pitr fixes))) || success (fix_pitr fixes)).

(** Assignments to the fields of [fixes]. *)
Definition set_mfa (f : Fixes) (c : CategoryFix) : Fixes :=
  mkFixes c (fix_rls f) (fix_pitr f).
Definition set_rls (f : Fixes) (r : RlsFix) : Fixes :=
  mkFixes (fix_mfa f) r (fix_pitr f).
Definition set_pitr (f : Fixes) (c : CategoryFix) : Fixes :=
  mkFixes (fix_mfa f) (fix_rls f) c.

Definition succeeded (c : CategoryFix) : CategoryFix :=
  mkCategoryFix (needed c) true true (fix_error c).
Definition failed_with (c : CategoryFix) (msg : string) : CategoryFix :=
  mkCategoryFix (needed c) true (success c) (Some msg).

(** ** Requests to the server, tokens and project lists *)

(** What the middleware and the routes read of an Express request: the
    two headers that may carry a token, the parsed body and query, and
    the line of the request. *)
Record HttpRequest : Type := mkHttpRequest {
  authorization : option string;
  supabase_token : option string;
  req_body : JSValue;
  req_query : JSValue;
  originalUrl : string;
  req_method : string
}.

Definition js_header (h : option string) : JSValue :=
  match h with Some s => JStr s | None => JUndefined end.

(** [v?.k] *)
Definition opt_prop (v : JSValue) (k : string) : JSValue :=
  if nullish v then JUndefined else prop v k.

(** [req.headers], as far as it is modelled. *)
Definition headers_js (req : HttpRequest) : JSValue :=
  JObj ((match authorization req with
         | Some a => [("authorization", JStr a)]
         | None => []
         end)
        ++ (match supabase_token req with
            | Some s => [("supabase-token", JStr s)]
            | None => []
            end))%list.

(** The token that the middleware finds. *)
Definition requestToken (req : HttpRequest) : JSValue :=
  let elsewhere :=
    js_or (js_or (js_header (supabase_token req))
                 (opt_prop (req_body req) "token"))
          (opt_prop (req_query req) "token") in
  match authorization req with
  | Some a =>
      if prefix "Bearer " a
      then JStr (substring 7 (String.length a - 7) a)
      else elsewhere
  | None => elsewhere
  end.

(** The [tokenSource] that the middleware logs. *)
Definition tokenSource (req : HttpRequest) : string :=
  if truthy (js_header (authorization req)) then "Authorization header"
  else if truthy (js_header (supabase_token req)) then "supabase-token header"
  else if truthy (opt_prop (req_body req) "token") then "request body"
  else "query parameter".

(** A route behind the middleware: answered 401 by the middleware, or
    handed over with [req.token] set. *)
Inductive Guarded (A : Type) : Type :=
| Json401 (error : string)
| Passed (answer : A).
Arguments Json401 {A} error.
Arguments Passed {A} answer.

Definition projectsUrl : string := api_base ++ "/projects".

(** [const { token } = req.body] *)
Definition destructure (source : JSValue) (k : string) : Outcome JSValue :=
  if nullish source
  then Throw (mkError ("Cannot destructure property '" ++ k ++ "' of 'req.body' as it is "
                         ++ toString source ++ ".") None)
  else Return (prop source k).

(** [projects.length] followed by [projects.map(p => p.ref)], for
    [projects] spelled [name] in the source. *)
Definition projectRefs (name : string) (projects : JSValue) : Outcome (list JSValue) :=
  if nullish projects then Throw (type_error projects "length")
  else match projects with
       | JArr items => map_throwing (fun p => get_prop p "ref") items
       | _ => Throw (mkError (name ++ ".map is not a function") None)
       end.

(** [projects.length], read for the record of a successful call. *)
Definition projectCount (projects : JSValue) : JSValue :=
  match projects with
  | JArr items => js_nat (List.length items)
  | JStr s => js_nat (js_length s)
  | JObj _ => prop projects "length"
  | _ => JUndefined
  end.

Inductive ValidateResponse : Type :=
| Valid200 (projects : JSValue)
| TokenRequired400
| InvalidToken401 (details : string)
| ServerError500.

(** ** Scripted projects *)

(** Management APIs that answer by the request alone, used to run the
    handlers on concrete projects. *)
Definition demo_ref : string := "abcdefghijklmnopqrst".
Definition demo_token : string := "sbp_demo".

Definition sql_of (r : Request) : string :=
  match prop (body r) "query" with
  | JStr q => q
  | _ => EmptyString
  end.

Definition scripted_api (auth backups : Outcome JSValue)
    (sql : string -> Outcome JSValue) (patch : Outcome JSValue)
  : list Request -> Request -> Outcome JSValue :=
  fun _ r =>
    match method r with
    | GET => if url r =? authConfigUrl demo_ref then auth else backups
    | POST => sql (sql_of r)
    | PATCH => patch
    end.

Definition demo_ids (logs : list EvidenceRecord) : JSValue :=
  JStr ("1700000000000-" ++ number_to_string (Z.of_nat (List.length logs))).

Definition fresh : World := mkWorld [] [].

Definition unauthorized : JSError :=
  mkError "Request failed with status code 401"
          (Some (401%Z, JObj [("message", JStr "Unauthorized")])).

Definition server_error : JSError :=
  mkError "Request failed with status code 500"
          (Some (500%Z, JObj [("message", JStr "Failed to run sql query")])).

Definition user_row (uid email : string) (has_mfa : bool) : JSValue :=
  JObj [("id", JStr uid); ("email", JStr email); ("has_mfa", JBool has_mfa)].

Definition table_row (name : string) (has_policies rls_enabled : bool) : JSValue :=
  JObj [("schemaname", JStr "public");
        ("tablename", JStr name);
        ("tableowner", JStr "postgres");
        ("has_policies", JBool has_policies);
        ("rls_enabled", JBool rls_enabled)].

(** Two users, one with MFA; three tables, one without RLS; PITR off. *)
Definition mixed_project : list Request -> Request -> Outcome JSValue :=
  scripted_api
    (Return (JObj [("sms_provider", JStr "NONE"); ("mfa_enabled", JBool false)]))
    (Return (JObj [("pitr_enabled", JBool false)]))
    (fun q =>
       if q =? mfa_user_query_sql
       then Return (JArr [user_row "u1" "ann@example.com" true;
                          user_row "u2" "bob@example.com" false])
       else Return (JArr [table_row "orders" true true;
                          table_row "notes" false true;
                          table_row "drafts" false false]))
    (Throw unauthorized).

(** The auth config cannot be read; every table has RLS (one of them
    without policies); PITR is on. *)
Definition mfa_unreadable_project : list Request -> Request -> Outcome JSValue :=
  scripted_api
    (Throw unauthorized)
    (Return (JObj [("pitr_enabled", JBool true)]))
    (fun q => Return (JArr [table_row "orders" true true;
                            table_row "notes" false true]))
    (Throw unauthorized).

(** MFA is on in the auth config, the SQL endpoint is down. *)
Definition sql_down_project : list Request -> Request -> Outcome JSValue :=
  scripted_api
    (Return (JObj [("mfa_enabled", JBool true)]))
    (Return (JObj [("pitr_enabled", JStr "true")]))
    (fun q => Throw server_error)
    (Throw unauthorized).

(** The SQL endpoint answers 200 with a page of text. *)
Definition text_answer_project : list Request -> Request -> Outcome JSValue :=
  scripted_api
    (Return (JObj [("mfa_enabled", JBool true)]))
    (Return (JObj [("pitr_enabled", JBool true)]))
    (fun q => Return (JStr "<html>Bad gateway</html>"))
    (Throw unauthorized).

(** The SQL endpoint wraps the rows in one more array. *)
Definition nested_answer_project : list Request -> Request -> Outcome JSValue :=
  scripted_api
    (Return (JObj [("mfa_enabled", JBool true)]))
    (Return (JObj [("pitr_enabled", JBool true)]))
    (fun q => Return (JArr [JArr [table_row "orders" true true]; JNum 1]))
    (Throw unauthorized).

(** For the fix: MFA and PITR are in order, two tables lack RLS, the batch
    transaction is refused and each single [ALTER TABLE] goes through. *)
Definition batch_refused_project : list Request -> Request -> Outcome JSValue :=
  scripted_api
    (Return (JObj [("mfa_enabled", JBool true)]))
    (Return (JObj [("pitr_enabled", JBool true)]))
    (fun q =>
       if q =? rls_missing_tables_query_sql
       then Return (JArr [JObj [("schemaname", JStr "public");
                                ("tablename", JStr "notes")];
                          JObj [("schemaname", JStr "public");
                                ("tablename", JStr "drafts")]])
       else if prefix "BEGIN;" q then Throw server_error
       else Return (JArr []))
    (Throw unauthorized).

(** For the fix: no status probe gets an answer. *)
Definition unreachable_project : list Request -> Request -> Outcome JSValue :=
  scripted_api (Throw unauthorized) (Throw unauthorized)
               (fun q => Throw unauthorized) (Throw unauthorized).

(** The SQL endpoint answers every query with one row and a [null]. *)
Definition null_row_project : list Request -> Request -> Outcome JSValue :=
  scripted_api
    (Return (JObj [("mfa_enabled", JBool true)]))
    (Return (JObj [("pitr_enabled", JBool true)]))
    (fun q => Return (JArr [JObj [("schemaname", JStr "public");
                                  ("tablename", JStr "notes")];
                            JNull]))
    (Throw unauthorized).


(** A body that switches the three fixes off. *)
Definition all_fixes_off : JSValue :=
  JObj [("fixMfa", JBool false); ("fixRls", JBool false); ("fixPitr", JBool false)].

(** An account whose projects endpoint gives the same answer to every
    request. *)
Definition account_api (answer : Outcome JSValue)
  : list Request -> Request -> Outcome JSValue :=
  fun _ _ => answer.

Definition two_projects : JSValue :=
  JArr [JObj [("ref", JStr demo_ref); ("name", JStr "shop")];
        JObj [("ref", JStr "zyxwvutsrqponmlkjihg"); ("name", JStr "blog")]].

(** Requests to the routes behind the middleware. *)
Definition request_with (authorization supabase_token : option string)
  : HttpRequest :=
  mkHttpRequest authorization supabase_token (JObj []) (JObj [])
                "/api/compliance/check/abcdefghijklmnopqrst" "GET".

Definition bearer_request : HttpRequest :=
  request_with (Some "Bearer sbp_demo") None.

Definition lower_case_request : HttpRequest :=
  request_with (Some "bearer sbp_demo") None.

Definition two_token_request : HttpRequest :=
  request_with (Some "Bearer sbp_demo") (Some "sbp_other").

Definition basic_auth_request : HttpRequest :=
  request_with (Some "Basic dXNlcjpwYXNz") (Some demo_token).

(** MFA is on and both users have a factor, every table has RLS, PITR is
    on. *)
Definition compliant_project : list Request -> Request -> Outcome JSValue :=
  scripted_api
    (Return (JObj [("mfa_enabled", JBool true)]))
    (Return (JObj [("pitr_enabled", JBool true)]))
    (fun q =>
       if q =? mfa_user_query_sql
       then Return (JArr [user_row "u1" "ann@example.com" true;
                          user_row "u2" "bob@example.com" true])
       else Return (JArr [table_row "orders" true true;
                          table_row "notes" false true]))
    (Throw unauthorized).


(** A query of 400 euro signs: 1200 bytes of UTF-8, 400 code units. *)
Definition euro_sign : string :=
  String (ascii_of_nat 226) (String (ascii_of_nat 130)
    (String (ascii_of_nat 172) EmptyString)).

Definition euro_query : string := concat EmptyString (List.repeat euro_sign 400).

Section Server.

(** The management API: its answer to a request, given the requests that
    came before.  [Throw] is a network error or a status outside 2xx,
    [Return] carries [response.data]. *)
Variable remote : list Request -> Request -> Outcome JSValue.

(** The id that [logEvidence] returns, given the log so far. *)
Variable evidence_id : list EvidenceRecord -> JSValue.

Definition axios (m : Method) (u token : string) (payload : JSValue) : M JSValue :=
  fun w =>
    let r := mkRequest m u token payload in
    (remote (requests w) r,
     mkWorld (evidenceLogs w) (requests w ++ [r])).

(** [logEvidence(action, status, details, projectRef)]: pushes the record
    and never throws, file-system errors being caught inside. *)
Definition logEvidence (act st : string) (det : JSValue) (projectRef : option string)
  : M JSValue :=
  fun w =>
    (Return (evidence_id (evidenceLogs w)),
     mkWorld (evidenceLogs w ++ [mkEvidence act st det projectRef]) (requests w)).

(** [executeQuery(projectRef, token, query, queryName)] *)
Definition executeQuery (projectRef token query queryName : string)
  : M (list JSValue) :=
  try_catch
    (queryLogId <- logEvidence "sql_query_attempt" "info"
        (JObj [("projectRef", JStr projectRef);
               ("queryName", JStr queryName);
               ("query", JStr (truncate_query query))])
        (Some projectRef) ;;
     data <- axios POST (queryUrl projectRef) token
        (JObj [("query", JStr query)]) ;;
     let results := normalizeRows data in
     logEvidence "sql_query_success" "success"
        (JObj [("projectRef", JStr projectRef);
               ("queryName", JStr queryName);
               ("query", JStr (truncate_query query));
               ("resultCount", js_nat (List.length results));
               ("queryLogId", queryLogId)])
        (Some projectRef) ;;;
     ret results)
    (fun error =>
       logEvidence "sql_query_failure" "error"
         (JObj [("projectRef", JStr projectRef);
                ("queryName", JStr queryName);
                ("query", JStr (truncate_query query));
                ("error", JStr (message error));
                ("errorCode", response_status error);
                ("errorDetails", response_data error)])
         (Some projectRef) ;;;
       throw error).

(** ** The compliance check: [GET /api/compliance/check/:projectRef] *)

Definition error_details (projectRef : string) (key : string) (parent : JSValue)
    (err : JSError) : JSValue :=
  JObj [("projectRef", JStr projectRef);
        (key, parent);
        ("error", JStr (message err));
        ("errorDetails", response_data err)].

(** The inner [try] of the MFA checker: [users] stays [[]] when the query
    or the mapping of its rows throws. *)
Definition mfaUsers (projectRef token : string) (mfaCheckId : JSValue)
  : M (list MfaUser) :=
  try_catch
    (result <- executeQuery projectRef token mfa_user_query_sql "mfa_user_query" ;;
     users <- lift (map_throwing mfa_user_of_row result) ;;
     logEvidence "user_mfa_status" "info"
        (JObj [("projectRef", JStr projectRef);
               ("mfaCheckId", mfaCheckId);
               ("userCount", js_nat (List.length users));
               ("usersWithMfa", js_nat (count (fun u => truthy (hasMFA u)) users));
               ("usersWithoutMfa",
                js_nat (count (fun u => negb (truthy (hasMFA u))) users))])
        (Some projectRef) ;;;
     ret users)
    (fun userError =>
       logEvidence "mfa_user_query_failure" "warning"
         (JObj [("projectRef", JStr projectRef);
                ("mfaCheckId", mfaCheckId);
                ("error", JStr (message userError))])
         (Some projectRef) ;;;
       ret []).

Definition mfaCheck (projectRef token : string) (checkId : JSValue) : M MfaResult :=
  try_catch
    (mfaCheckId <- logEvidence "mfa_check_started" "info"
        (JObj [("projectRef", JStr projectRef); ("parentCheckId", checkId)])
        (Some projectRef) ;;
     authConfig <- axios GET (authConfigUrl projectRef) token JUndefined ;;
     let mfaEnabled := mfaEnabled_of authConfig in
     config <- lift (masked_config authConfig) ;;
     logEvidence "auth_config_retrieved" "info"
        (JObj [("projectRef", JStr projectRef);
               ("mfaCheckId", mfaCheckId);
               ("config", config);
               ("mfaEnabled", mfaEnabled)])
        (Some projectRef) ;;;
     users <- mfaUsers projectRef token mfaCheckId ;;
     let summary := mfa_summary_of users in
     logEvidence "mfa_check_completed" "info"
        (JObj [("projectRef", JStr projectRef);
               ("mfaCheckId", mfaCheckId);
               ("mfaEnabledGlobally", mfaEnabled);
               ("summary", summary_js summary)])
        (Some projectRef) ;;;
     ret (mkMfaResult None (Some mfaEnabled) (Some users) (Some summary)
            (Some mfaCheckId)))
    (fun err =>
       logEvidence "mfa_check_failed" "error"
         (error_details projectRef "parentCheckId" checkId err)
         (Some projectRef) ;;;
       ret (mkMfaResult (Some (message err)) None None (Some zero_summary) None)).

Definition rlsCheck (projectRef token : string) (checkId : JSValue) : M RlsResult :=
  try_catch
    (rlsCheckId <- logEvidence "rls_check_started" "info"
        (JObj [("projectRef", JStr projectRef); ("parentCheckId", checkId)])
        (Some projectRef) ;;
     tables <- executeQuery projectRef token rls_tables_query_sql "rls_tables_query" ;;
     publicTables <- lift (map_throwing rls_table_of_row tables) ;;
     logEvidence "table_rls_status" "info"
        (JObj [("projectRef", JStr projectRef);
               ("rlsCheckId", rlsCheckId);
               ("tableCount", js_nat (List.length publicTables));
               ("tablesWithRls",
                js_nat (count (fun t => truthy (rlsEnabled t)) publicTables));
               ("tablesWithoutRls",
                js_nat (count (fun t => negb (truthy (rlsEnabled t))) publicTables));
               ("tablesWithPolicies",
                js_nat (count (fun t => truthy (hasPolicies t)) publicTables));
               ("tablesWithoutPolicies",
                js_nat (count (fun t => negb (truthy (hasPolicies t))) publicTables))])
        (Some projectRef) ;;;
     let summary := rls_summary_of publicTables in
     logEvidence "rls_check_completed" "info"
        (JObj [("projectRef", JStr projectRef);
               ("rlsCheckId", rlsCheckId);
               ("summary", summary_js summary)])
        (Some projectRef) ;;;
     ret (mkRlsResult None (Some publicTables) (Some summary) (Some rlsCheckId)))
    (fun err =>
       logEvidence "rls_check_failed" "error"
         (error_details projectRef "parentCheckId" checkId err)
         (Some projectRef) ;;;
       ret (mkRlsResult (Some (message err)) None (Some zero_summary) None)).

Definition pitr_label (pitrEnabled : bool) : string :=
  if pitrEnabled then "pass" else "fail".

Definition pitrCheck (projectRef token : string) (checkId : JSValue) : M PitrResult :=
  try_catch
    (pitrCheckId <- logEvidence "pitr_check_started" "info"
        (JObj [("projectRef", JStr projectRef); ("parentCheckId", checkId)])
        (Some projectRef) ;;
     data <- axios GET (backupsUrl projectRef) token JUndefined ;;
     let backupsConfig := js_or data (JObj []) in
     let pitrEnabled := strictly_true (prop backupsConfig "pitr_enabled") in
     logEvidence "pitr_config_retrieved" "info"
        (JObj [("projectRef", JStr projectRef);
               ("pitrCheckId", pitrCheckId);
               ("config", backupsConfig);
               ("pitrEnabled", JBool pitrEnabled)])
        (Some projectRef) ;;;
     logEvidence "pitr_check_completed" "info"
        (JObj [("projectRef", JStr projectRef);
               ("pitrCheckId", pitrCheckId);
               ("pitrEnabled", JBool pitrEnabled);
               ("status", JStr (pitr_label pitrEnabled))])
        (Some projectRef) ;;;
     ret (mkPitrResult None pitrEnabled (pitr_label pitrEnabled)
            (Some backupsConfig) pitrCheckId))
    (fun err =>
       logEvidence "pitr_check_failed" "error"
         (error_details projectRef "parentCheckId" checkId err)
         (Some projectRef) ;;;
       ret (mkPitrResult (Some (message err)) false "error" None JNull)).

Definition complianceCheck (projectRef token : string)
  : M (HttpResponse ComplianceReport) :=
  try_catch
    (checkId <- logEvidence "compliance_check_initiated" "info"
        (JObj [("projectRef", JStr projectRef)]) (Some projectRef) ;;
     mfaResult <- mfaCheck projectRef token checkId ;;
     rlsResult <- rlsCheck projectRef token checkId ;;
     pitrResult <- pitrCheck projectRef token checkId ;;
     let result :=
       mkReport projectRef checkId mfaResult rlsResult pitrResult
                (report_summary_of mfaResult rlsResult pitrResult) in
     logEvidence "compliance_check_completed" "success"
        (JObj [("projectRef", JStr projectRef);
               ("checkId", checkId);
               ("summary", report_summary_js (report_summary result))])
        (Some projectRef) ;;;
     ret (Json200 result))
    (fun error =>
       logEvidence "compliance_check_failed" "error"
         (JObj [("projectRef", JStr projectRef);
                ("error", JStr (message error))])
         (Some projectRef) ;;;
       ret (Json500 "Failed to run compliance checks" (message error))).

(** ** The compliance fix: [POST /api/compliance/fix/:projectRef] *)

(** Step 1, the three status probes.  Each catches its own failure and
    reports [needsFix: false] with the error message. *)
Definition mfaStatus (projectRef token : string) (statusCheckId : JSValue)
  : M CategoryStatus :=
  try_catch
    (authConfig <- axios GET (authConfigUrl projectRef) token JUndefined ;;
     let mfaNeedsFix :=
       negb (truthy authConfig) || negb (truthy (mfa_signals authConfig)) in
     logEvidence "mfa_status_checked" "info"
        (JObj [("projectRef", JStr projectRef);
               ("statusCheckId", statusCheckId);
               ("mfaNeedsFix", JBool mfaNeedsFix);
               ("mfaEnabled", JBool (negb mfaNeedsFix))])
        (Some projectRef) ;;;
     ret (mkCategoryStatus mfaNeedsFix None))
    (fun err =>
       logEvidence "mfa_status_check_failed" "error"
         (error_details projectRef "statusCheckId" statusCheckId err)
         (Some projectRef) ;;;
       ret (mkCategoryStatus false (Some (message err)))).

Definition rlsStatus (projectRef token : string) (statusCheckId : JSValue)
  : M RlsStatus :=
  try_catch
    (tables <- executeQuery projectRef token rls_missing_tables_query_sql
                 "rls_missing_tables_query" ;;
     names <- lift (map_throwing row_qualified_name tables) ;;
     logEvidence "rls_tables_checked" "info"
        (JObj [("projectRef", JStr projectRef);
               ("statusCheckId", statusCheckId);
               ("tablesNeedingRls", js_nat (List.length tables));
               ("tables", JArr (map JStr names))])
        (Some projectRef) ;;;
     refs <- lift (map_throwing table_ref_of_row tables) ;;
     ret (mkRlsStatus (0 <? List.length tables)%nat refs None))
    (fun err =>
       logEvidence "rls_status_check_failed" "error"
         (error_details projectRef "statusCheckId" statusCheckId err)
         (Some projectRef) ;;;
       ret (mkRlsStatus false [] (Some (message err)))).

Definition pitrStatus (projectRef token : string) (statusCheckId : JSValue)
  : M CategoryStatus :=
  try_catch
    (data <- axios GET (backupsUrl projectRef) token JUndefined ;;
     let backupsConfig := js_or data (JObj []) in
     let pitrNeedsFix := negb (truthy (prop backupsConfig "pitr_enabled")) in
     logEvidence "pitr_status_checked" "info"
        (JObj [("projectRef", JStr projectRef);
               ("statusCheckId", statusCheckId);
               ("pitrNeedsFix", JBool pitrNeedsFix);
               ("pitrEnabled", JBool (negb pitrNeedsFix))])
        (Some projectRef) ;;;
     ret (mkCategoryStatus pitrNeedsFix None))
    (fun err =>
       logEvidence "pitr_status_check_failed" "error"
         (error_details projectRef "statusCheckId" statusCheckId err)
         (Some projectRef) ;;;
       ret (mkCategoryStatus false (Some (message err)))).

Definition complianceStatus (projectRef token : string) (fixId : JSValue)
  : M ComplianceStatus :=
  try_catch
    (statusCheckId <- logEvidence "compliance_status_check" "info"
        (JObj [("projectRef", JStr projectRef); ("parentFixId", fixId)])
        (Some projectRef) ;;
     mfa <- mfaStatus projectRef token statusCheckId ;;
     rls <- rlsStatus projectRef token statusCheckId ;;
     pitr <- pitrStatus projectRef token statusCheckId ;;
     logEvidence "compliance_status_check_completed" "info"
        (JObj [("projectRef", JStr projectRef);
               ("statusCheckId", statusCheckId);
               ("mfaStatus", category_status_js mfa);
               ("rlsStatus", rls_status_js rls);
               ("pitrStatus", category_status_js pitr)])
        (Some projectRef) ;;;
     ret (mkComplianceStatus mfa rls pitr))
    (fun error =>
       logEvidence "compliance_status_check_failed" "error"
         (JObj [("projectRef", JStr projectRef);
                ("parentFixId", fixId);
                ("error", JStr (message error))])
         (Some projectRef) ;;;
       throw error).

(** Step 2.  In each [try] the assignments to [fixes] come after the last
    call that can throw, so a handler starts from the [fixes] the block was
    entered with. *)
Definition mfa_update_payload : JSValue :=
  JObj [("mfa_enabled", JBool true); ("mfa_required", JBool true)].

Definition fixMfa_step (projectRef token : string) (fixId : JSValue) (fixes : Fixes)
  : M Fixes :=
  if truthy (needed (fix_mfa fixes)) then
    try_catch
      (mfaFixId <- logEvidence "mfa_fix_attempt" "info"
          (JObj [("projectRef", JStr projectRef); ("parentFixId", fixId)])
          (Some projectRef) ;;
       logEvidence "mfa_config_update" "info"
          (JObj [("projectRef", JStr projectRef);
                 ("mfaFixId", mfaFixId);
                 ("updatePayload", mfa_update_payload)])
          (Some projectRef) ;;;
       data <- axios PATCH (authConfigUrl projectRef) token mfa_update_payload ;;
       let fixes' := set_mfa fixes (succeeded (fix_mfa fixes)) in
       logEvidence "mfa_fix_success" "success"
          (JObj [("projectRef", JStr projectRef);
                 ("mfaFixId", mfaFixId);
                 ("response", data)])
          (Some projectRef) ;;;
       ret fixes')
      (fun error =>
         let fixes' := set_mfa fixes (failed_with (fix_mfa fixes) (message error)) in
         logEvidence "mfa_fix_failure" "error"
           (JObj [("projectRef", JStr projectRef);
                  ("error", JStr (message error));
                  ("errorStatus", response_status error);
                  ("errorDetails", response_data error)])
           (Some projectRef) ;;;
         ret fixes')
  else ret fixes.

(** One table of the fallback: its promise never rejects. *)
Definition fixTable (projectRef token : string) (rlsFixId : JSValue) (table : TableRef)
  : M TableFix :=
  try_catch
    (let query := alter_table_sql table in
     tableFixId <- logEvidence "rls_table_fix_attempt" "info"
        (JObj [("projectRef", JStr projectRef);
               ("rlsFixId", rlsFixId);
               ("table", JStr (qualified_name table));
               ("query", JStr query)])
        (Some projectRef) ;;
     executeQuery projectRef token query
        ("rls_enable_" ++ toString (ref_schema table) ++ "_"
           ++ toString (ref_name table)) ;;;
     logEvidence "rls_table_fix_success" "success"
        (JObj [("projectRef", JStr projectRef);
               ("tableFixId", tableFixId);
               ("table", JStr (qualified_name table))])
        (Some projectRef) ;;;
     ret (mkTableFix (qualified_name table) true None))
    (fun tableError =>
       logEvidence "rls_table_fix_failure" "error"
         (JObj [("projectRef", JStr projectRef);
                ("table", JStr (qualified_name table));
                ("error", JStr (message tableError));
                ("errorStatus", response_status tableError);
                ("errorDetails", response_data tableError)])
         (Some projectRef) ;;;
       ret (mkTableFix (qualified_name table) false (Some (message tableError)))).

Definition rlsFallback (projectRef token : string) (rlsFixId : JSValue)
    (tables : list TableRef) (batchError : JSError) (fixes : Fixes) : M Fixes :=
  try_catch
    (logEvidence "rls_individual_fix_fallback" "info"
        (JObj [("projectRef", JStr projectRef);
               ("rlsFixId", rlsFixId);
               ("tableCount", js_nat (List.length tables))])
        (Some projectRef) ;;;
     results <- for_each (fixTable projectRef token rlsFixId) tables ;;
     let r := fix_rls fixes in
     let fixes' :=
       set_rls fixes
         (mkRlsFix (rls_needed r) (tableCount r) (rls_applied r)
                   (forallb table_success results) results (rls_error r)) in
     logEvidence "rls_individual_fixes_completed"
        (if rls_success (fix_rls fixes') then "success" else "partial_success")
        (JObj [("projectRef", JStr projectRef);
               ("rlsFixId", rlsFixId);
               ("tableCount", js_nat (List.length results));
               ("successCount", js_nat (count table_success results));
               ("failureCount",
                js_nat (count (fun t => negb (table_success t)) results))])
        (Some projectRef) ;;;
     ret fixes')
    (fun fallbackError =>
       let r := fix_rls fixes in
       let msg := "Batch error: " ++ message batchError ++ ". Fallback error: "
                    ++ message fallbackError in
       logEvidence "rls_fallback_failure" "error"
         (JObj [("projectRef", JStr projectRef);
                ("rlsFixId", rlsFixId);
                ("error", JStr msg)])
         (Some projectRef) ;;;
       ret (set_rls fixes
              (mkRlsFix (rls_needed r) (tableCount r) (rls_applied r)
                        (rls_success r) (rls_tables r) (Some msg)))).

Definition fixRls_step (projectRef token : string) (fixId : JSValue)
    (tables : list TableRef) (fixes0 : Fixes) : M Fixes :=
  if truthy (rls_needed (fix_rls fixes0)) then
    let r0 := fix_rls fixes0 in
    let fixes :=
      set_rls fixes0
        (mkRlsFix (rls_needed r0) (tableCount r0) true
                  (rls_success r0) (rls_tables r0) (rls_error r0)) in
    let r := fix_rls fixes in
    rlsFixId <- logEvidence "rls_fix_attempt" "info"
        (JObj [("projectRef", JStr projectRef);
               ("parentFixId", fixId);
               ("tableCount", js_nat (List.length tables));
               ("tables", JArr (map (fun t => JStr (qualified_name t)) tables))])
        (Some projectRef) ;;
    try_catch
      (let query := batch_sql tables in
       logEvidence "rls_batch_transaction" "info"
          (JObj [("projectRef", JStr projectRef);
                 ("rlsFixId", rlsFixId);
                 ("query", JStr (truncate_query query))])
          (Some projectRef) ;;;
       executeQuery projectRef token query "rls_batch_enable" ;;;
       let fixes' :=
         set_rls fixes
           (mkRlsFix (rls_needed r) (tableCount r) (rls_applied r) true
                     (map (fun t => mkTableFix (qualified_name t) true None) tables)
                     (rls_error r)) in
       logEvidence "rls_fix_success" "success"
          (JObj [("projectRef", JStr projectRef);
                 ("rlsFixId", rlsFixId);
                 ("tableCount", js_nat (List.length tables))])
          (Some projectRef) ;;;
       ret fixes')
      (fun error =>
         let fixes' :=
           set_rls fixes
             (mkRlsFix (rls_needed r) (tableCount r) (rls_applied r) false
                       (rls_tables r) (Some (message error))) in
         logEvidence "rls_batch_fix_failure" "error"
           (JObj [("projectRef", JStr projectRef);
                  ("rlsFixId", rlsFixId);
                  ("error", JStr (message error));
                  ("errorStatus", response_status error);
                  ("errorDetails", response_data error)])
           (Some projectRef) ;;;
         rlsFallback projectRef token rlsFixId tables error fixes')
  else ret fixes0.

Definition pitr_update_payload : JSValue := JObj [("pitr_enabled", JBool true)].

Definition fixPitr_step (projectRef token : string) (fixId : JSValue) (fixes : Fixes)
  : M Fixes :=
  if truthy (needed (fix_pitr fixes)) then
    pitrFixId <- logEvidence "pitr_fix_attempt" "info"
        (JObj [("projectRef", JStr projectRef); ("parentFixId", fixId)])
        (Some projectRef) ;;
    try_catch
      (try_catch
         (logEvidence "pitr_sql_fix_attempt" "info"
             (JObj [("projectRef", JStr projectRef);
                    ("pitrFixId", pitrFixId);
                    ("query", JStr pitrSqlQuery)])
             (Some projectRef) ;;;
          executeQuery projectRef token pitrSqlQuery "pitr_enable_sql" ;;;
          let fixes' := set_pitr fixes (succeeded (fix_pitr fixes)) in
          logEvidence "pitr_sql_fix_success" "success"
             (JObj [("projectRef", JStr projectRef); ("pitrFixId", pitrFixId)])
             (Some projectRef) ;;;
          ret fixes')
         (fun sqlError =>
            logEvidence "pitr_sql_fix_failure" "warning"
              (JObj [("projectRef", JStr projectRef);
                     ("pitrFixId", pitrFixId);
                     ("error", JStr (message sqlError));
                     ("errorDetails", response_data sqlError)])
              (Some projectRef) ;;;
            logEvidence "pitr_api_fix_attempt" "info"
              (JObj [("projectRef", JStr projectRef); ("pitrFixId", pitrFixId)])
              (Some projectRef) ;;;
            data <- axios PATCH (backupsUrl projectRef) token pitr_update_payload ;;
            let fixes' := set_pitr fixes (succeeded (fix_pitr fixes)) in
            logEvidence "pitr_api_fix_success" "success"
              (JObj [("projectRef", JStr projectRef);
                     ("pitrFixId", pitrFixId);
                     ("response", data)])
              (Some projectRef) ;;;
            ret fixes'))
      (fun error =>
         let fixes' := set_pitr fixes (failed_with (fix_pitr fixes) (message error)) in
         logEvidence "pitr_fix_failure" "error"
           (JObj [("projectRef", JStr projectRef);
                  ("error", JStr (message error));
                  ("errorStatus", response_status error);
                  ("errorDetails", response_data error)])
           (Some projectRef) ;;;
         ret fixes')
  else ret fixes.

Definition complianceFix (projectRef token : string) (reqBody : JSValue)
  : M (HttpResponse FixResult) :=
  try_catch
    (fixMfa <- lift (destructure_or_true reqBody "fixMfa") ;;
     fixRls <- lift (destructure_or_true reqBody "fixRls") ;;
     fixPitr <- lift (destructure_or_true reqBody "fixPitr") ;;
     fixId <- logEvidence "compliance_fix_initiated" "info"
        (JObj [("projectRef", JStr projectRef);
               ("fixOptions", JObj [("fixMfa", fixMfa);
                                    ("fixRls", fixRls);
                                    ("fixPitr", fixPitr)])])
        (Some projectRef) ;;
     st <- complianceStatus projectRef token fixId ;;
     let fixes0 := plan st fixMfa fixRls fixPitr in
     logEvidence "compliance_fix_plan" "info"
        (JObj [("projectRef", JStr projectRef);
               ("fixId", fixId);
               ("fixes", fixes_js fixes0)])
        (Some projectRef) ;;;
     fixes1 <- fixMfa_step projectRef token fixId fixes0 ;;
     fixes2 <- fixRls_step projectRef token fixId
                 (rls_status_tables (status_rls st)) fixes1 ;;
     fixes <- fixPitr_step projectRef token fixId fixes2 ;;
     let result :=
       mkFixResult projectRef fixId (summary_of_fixes fixes) fixes in
     logEvidence "compliance_fix_completed"
        (if allSuccessful fixes then "success" else "partial_success")
        (JObj [("projectRef", JStr projectRef);
               ("fixId", fixId);
               ("summary", fix_summary_js (fix_summary result));
               ("allSuccessful", JBool (allSuccessful fixes))])
        (Some projectRef) ;;;
     ret (Json200 result))
    (fun error =>
       logEvidence "compliance_fix_failure" "error"
         (JObj [("projectRef", JStr projectRef);
                ("error", JStr (message error))])
         (Some projectRef) ;;;
       ret (Json500 "Failed to fix compliance issues" (message error))).

(** ** The token middleware: [validateToken] *)

(** [validateToken(req, res, next)].  The calls of [logEvidence] are not
    awaited; the record is pushed before the call returns. *)
Definition validateToken {A} (req : HttpRequest) (next : JSValue -> M A)
  : M (Guarded A) :=
  let token := requestToken req in
  if negb (truthy token) then
    logEvidence "token_validation" "failure"
      (JObj [("message", JStr "Missing token");
             ("endpoint", JStr (originalUrl req));
             ("method", JStr (req_method req));
             ("headers", headers_js req)])
      None ;;;
    ret (Json401 "Supabase token is required")
  else
    logEvidence "token_validation_attempt" "info"
      (JObj [("endpoint", JStr (originalUrl req));
             ("method", JStr (req_method req));
             ("tokenProvided", JBool true);
             ("tokenSource", JStr (tokenSource req))])
      None ;;;
    answer <- next token ;;
    ret (Passed answer).

(** The two compliance routes behind the middleware; the handlers put
    [req.token] into [`Bearer ${token}`]. *)
Definition checkRoute (req : HttpRequest) (projectRef : string)
  : M (Guarded (HttpResponse ComplianceReport)) :=
  validateToken req (fun token => complianceCheck projectRef (toString token)).

Definition fixRoute (req : HttpRequest) (projectRef : string)
  : M (Guarded (HttpResponse FixResult)) :=
  validateToken req
    (fun token => complianceFix projectRef (toString token) (req_body req)).

(** ** The account routes: [POST /api/auth/validate], [GET /api/projects] *)

Definition authValidate (reqBody : JSValue) : M ValidateResponse :=
  try_catch
    (token <- lift (destructure reqBody "token") ;;
     if negb (truthy token) then
       logEvidence "token_validation" "failure"
         (JObj [("message", JStr "Token is required")]) None ;;;
       ret TokenRequired400
     else
       try_catch
         (validationAttemptId <- logEvidence "token_validation_attempt" "info"
            (JObj []) None ;;
          projects <- axios GET projectsUrl (toString token) JUndefined ;;
          refs <- lift (projectRefs "projects" projects) ;;
          logEvidence "token_validation" "success"
            (JObj [("message", JStr "Token validated successfully");
                   ("validationAttemptId", validationAttemptId);
                   ("projectCount", projectCount projects);
                   ("projectRefs", JArr refs)])
            None ;;;
          ret (Valid200 projects))
         (fun error =>
            logEvidence "token_validation" "failure"
              (JObj [("message", JStr "Invalid token");
                     ("error", JStr (message error));
                     ("errorStatus", response_status error);
                     ("errorDetails", response_data error)])
              None ;;;
            ret (InvalidToken401 (message error))))
    (fun error =>
       logEvidence "server_error" "error"
         (JObj [("endpoint", JStr "/api/auth/validate");
                ("error", JStr (message error))])
         None ;;;
       ret ServerError500).

Definition projectsHandler (token : JSValue) : M (HttpResponse JSValue) :=
  try_catch
    (requestId <- logEvidence "projects_request" "info" (JObj []) None ;;
     data <- axios GET projectsUrl (toString token) JUndefined ;;
     refs <- lift (projectRefs "response.data" data) ;;
     logEvidence "projects_retrieved" "success"
       (JObj [("requestId", requestId);
              ("projectCount", projectCount data);
              ("projectRefs", JArr refs)])
       None ;;;
     ret (Json200 data))
    (fun error =>
       logEvidence "projects_retrieval_failure" "error"
         (JObj [("error", JStr (message error));
                ("errorStatus", response_status error);
                ("errorDetails", response_data error)])
         None ;;;
       ret (Json500 "Failed to fetch projects" (message error))).

Definition projectsRoute (req : HttpRequest) : M (Guarded (HttpResponse JSValue)) :=
  validateToken req projectsHandler.

(** ** The evidence route without a project:
    [GET /api/evidence/logs] *)

(** [req.params.projectRef] is [undefined]: the route answers with the
    in-memory log, and reads no file. *)
Definition allEvidenceHandler : M (HttpResponse (list EvidenceRecord)) :=
  try_catch
    (logEvidence "evidence_logs_request" "info"
       (JObj [("projectRef", JStr "all")]) None ;;;
     fun w => (Return (Json200 (evidenceLogs w)), w))
    (fun error =>
       logEvidence "evidence_logs_request_failure" "error"
         (JObj [("projectRef", JStr "all"); ("error", JStr (message error))])
         None ;;;
       ret (Json500 "Failed to fetch evidence logs" (message error))).

Definition allEvidenceRoute (req : HttpRequest)
  : M (Guarded (HttpResponse (list EvidenceRecord))) :=
  validateToken req (fun _ => allEvidenceHandler).

(** ** Vocabulary of the statements *)

Open Scope list_scope.

Definition query_request (projectRef token query : string) : Request :=
  mkRequest POST (queryUrl projectRef) token (JObj [("query", JStr query)]).

Definition get_request (u token : string) : Request :=
  mkRequest GET u token JUndefined.

Definition patch_request (u token : string) (payload : JSValue) : Request :=
  mkRequest PATCH u token payload.

Definition query_attempt_entry (projectRef query queryName : string) : EvidenceRecord :=
  mkEvidence "sql_query_attempt" "info"
    (JObj [("projectRef", JStr projectRef);
           ("queryName", JStr queryName);
           ("query", JStr (truncate_query query))])
    (Some projectRef).

Definition query_failure_entry (projectRef query queryName : string) (e : JSError)
  : EvidenceRecord :=
  mkEvidence "sql_query_failure" "error"
    (JObj [("projectRef", JStr projectRef);
           ("queryName", JStr queryName);
           ("query", JStr (truncate_query query));
           ("error", JStr (message e));
           ("errorCode", response_status e);
           ("errorDetails", response_data e)])
    (Some projectRef).

Definition query_success_entry (projectRef query queryName : string)
    (resultCount : nat) (queryLogId : JSValue) : EvidenceRecord :=
  mkEvidence "sql_query_success" "success"
    (JObj [("projectRef", JStr projectRef);
           ("queryName", JStr queryName);
           ("query", JStr (truncate_query query));
           ("resultCount", js_nat resultCount);
           ("queryLogId", queryLogId)])
    (Some projectRef).

Arguments queryUrl : simpl never.
Arguments authConfigUrl : simpl never.
Arguments backupsUrl : simpl never.
Arguments truncate_query : simpl never.
Arguments toString : simpl never.
Arguments normalizeRows : simpl never.
Arguments batch_sql : simpl never.
Arguments alter_table_sql : simpl never.
Arguments qualified_name : simpl never.

Definition pass_or_fail (s : string) : Prop := s = "pass" \/ s = "fail".

Definition summary_adds_up (s : Summary) : Prop :=
  passing s + failing s = total s.

(** What every return of the MFA checker satisfies. *)
Definition mfa_result_ok (r : MfaResult) : Prop :=
  exists s, mfa_summary r = Some s
    /\ summary_adds_up s
    /\ (mfa_error r <> None -> s = zero_summary).

Definition rls_result_ok (r : RlsResult) : Prop :=
  exists s, rls_summary r = Some s
    /\ summary_adds_up s
    /\ (rls_check_error r <> None -> s = zero_summary).

Definition pitr_result_ok (r : PitrResult) : Prop :=
  (pitr_error r = None /\ pitr_status r = pitr_label (pitrEnabled r))
  \/ (pitr_error r <> None /\ pitr_status r = "error" /\ pitrEnabled r = false).

(** A 2xx answer whose payload is there but is not an array. *)
Definition malformed_payload (data : JSValue) : bool :=
  truthy data && negb (isArray data).

(** The requests of step 1, in the order they are sent. *)
Definition status_requests (projectRef token : string) : list Request :=
  [get_request (authConfigUrl projectRef) token;
   query_request projectRef token rls_missing_tables_query_sql;
   get_request (backupsUrl projectRef) token].

Arguments status_requests : simpl never.

Definition returns {A} (o : Outcome A) : bool :=
  match o with Return _ => true | Throw _ => false end.

Definition alter_request (projectRef token : string) (tb : TableRef) : Request :=
  query_request projectRef token (alter_table_sql tb).

Definition batch_request (projectRef token : string) (tables : list TableRef)
  : Request :=
  query_request projectRef token (batch_sql tables).

(** The requests that remediate a category. *)
Definition mfa_fix_request (projectRef token : string) (r : Request) : Prop :=
  r = patch_request (authConfigUrl projectRef) token mfa_update_payload.

Definition rls_fix_request (projectRef token : string) (r : Request) : Prop :=
  (exists tables, r = batch_request projectRef token tables)
  \/ (exists tb, r = alter_request projectRef token tb).

Definition pitr_fix_request (projectRef token : string) (r : Request) : Prop :=
  r = query_request projectRef token pitrSqlQuery
  \/ r = patch_request (backupsUrl projectRef) token pitr_update_payload.

(** The per-table results of the fallback against the answers of the API:
    the [i]-th result succeeds exactly when the [i]-th [ALTER TABLE] did. *)
Inductive table_outcomes (projectRef token : string)
  : list Request -> list TableRef -> list TableFix -> Prop :=
| outcomes_nil reqs : table_outcomes projectRef token reqs [] []
| outcomes_cons reqs tb tbs tf tfs :
    table_success tf = returns (remote reqs (alter_request projectRef token tb)) ->
    fixed_table tf = qualified_name tb ->
    table_outcomes projectRef token (reqs ++ [alter_request projectRef token tb]) tbs tfs ->
    table_outcomes projectRef token reqs (tb :: tbs) (tf :: tfs).

(** [fixX] after destructuring with its default. *)
Definition fix_option (reqBody : JSValue) (k : string) : JSValue :=
  if is_undefined (prop reqBody k) then JBool true else prop reqBody k.

(** A run of the fix handler on a body that can be destructured: the status
    it planned from, the plan, and the requests of each step. *)
Inductive fix_run (projectRef token : string) (reqBody : JSValue)
    (reqs : list Request) (result : FixResult) (new : list Request) : Prop :=
| fix_run_intro (st : ComplianceStatus) (new_mfa new_rls new_pitr : list Request)
    (fixes := fix_details result)
    (tables := rls_status_tables (status_rls st)) :
    new = status_requests projectRef token ++ new_mfa ++ new_rls ++ new_pitr ->
    fix_summary result = summary_of_fixes fixes ->
    (forall e,
       remote reqs (get_request (authConfigUrl projectRef) token) = Throw e ->
       status_mfa st = mkCategoryStatus false (Some (message e))) ->
    (forall e,
       remote (reqs ++ [get_request (authConfigUrl projectRef) token])
              (query_request projectRef token rls_missing_tables_query_sql)
         = Throw e ->
       status_rls st = mkRlsStatus false [] (Some (message e))) ->
    (forall e,
       remote (reqs ++ [get_request (authConfigUrl projectRef) token;
                        query_request projectRef token rls_missing_tables_query_sql])
              (get_request (backupsUrl projectRef) token) = Throw e ->
       status_pitr st = mkCategoryStatus false (Some (message e))) ->
    (rls_needsFix (status_rls st) = true -> tables <> []) ->
    needed (fix_mfa fixes) =
      js_and (JBool (needsFix (status_mfa st))) (fix_option reqBody "fixMfa") ->
    rls_needed (fix_rls fixes) =
      js_and (JBool (rls_needsFix (status_rls st))) (fix_option reqBody "fixRls") ->
    needed (fix_pitr fixes) =
      js_and (JBool (needsFix (status_pitr st))) (fix_option reqBody "fixPitr") ->
    (truthy (needed (fix_mfa fixes)) = false ->
     applied (fix_mfa fixes) = false /\ new_mfa = []) ->
    Forall (mfa_fix_request projectRef token) new_mfa ->
    (truthy (rls_needed (fix_rls fixes)) = false ->
     rls_applied (fix_rls fixes) = false /\ rls_tables (fix_rls fixes) = []
     /\ new_rls = []) ->
    (truthy (rls_needed (fix_rls fixes)) = true ->
     rls_applied (fix_rls fixes) = true
     /\ rls_success (fix_rls fixes) = forallb table_success (rls_tables (fix_rls fixes))
     /\ List.length (rls_tables (fix_rls fixes)) = List.length tables
     /\ (forall e,
           remote (reqs ++ status_requests projectRef token ++ new_mfa)
                  (batch_request projectRef token tables) = Throw e ->
           rls_error (fix_rls fixes) = Some (message e)
           /\ table_outcomes projectRef token
                ((reqs ++ status_requests projectRef token ++ new_mfa)
                   ++ [batch_request projectRef token tables])
                tables (rls_tables (fix_rls fixes)))
     /\ (returns (remote (reqs ++ status_requests projectRef token ++ new_mfa)
                         (batch_request projectRef token tables)) = true ->
         rls_success (fix_rls fixes) = true)) ->
    Forall (rls_fix_request projectRef token) new_rls ->
    (truthy (needed (fix_pitr fixes)) = false ->
     applied (fix_pitr fixes) = false /\ new_pitr = []) ->
    Forall (pitr_fix_request projectRef token) new_pitr ->
    fix_run projectRef token reqBody reqs result new.

Definition head_char (s : string) : option ascii :=
  match s with
  | EmptyString => None
  | String c _ => Some c
  end.

(** The failure clause as the specification words it: an execution fails
    on a network error, on a status outside 2xx and on a malformed payload,
    and every failed execution records a failure entry and re-raises. *)
Definition query_execution_fails (answer : Outcome JSValue) : Prop :=
  match answer with
  | Throw _ => True
  | Return data => malformed_payload data = true
  end.

Definition failure_recorded_and_reraised
    (projectRef token query queryName : string) (w : World) : Prop :=
  exists e w',
    executeQuery projectRef token query queryName w = (Throw e, w')
    /\ In (query_failure_entry projectRef query queryName e) (evidenceLogs w').

(** ** Vocabulary of the further statements *)

(** [getProjectLogs(projectRef)]: the records of the in-memory log whose
    [projectRef] is strictly equal to the argument. *)
Definition getProjectLogs (projectRef : string) (w : World) : list EvidenceRecord :=
  filter (fun log =>
            match ev_projectRef log with
            | Some q => (q =? projectRef)%string
            | None => false
            end)
         (evidenceLogs w).

Definition tagged (projectRef : string) (e : EvidenceRecord) : Prop :=
  ev_projectRef e = Some projectRef.

(** One of the three endpoints of a project, called with the given
    token. *)
Definition project_request (projectRef token : string) (r : Request) : Prop :=
  bearer r = token
  /\ (url r = authConfigUrl projectRef
      \/ url r = queryUrl projectRef
      \/ url r = backupsUrl projectRef).

(** A computation whose only effects are to append evidence records that
    satisfy [P] and to send requests that satisfy [Q]. *)
Definition effects (P : EvidenceRecord -> Prop) (Q : Request -> Prop)
    {A} (m : M A) : Prop :=
  forall w,
    exists logs reqs,
      snd (m w) = mkWorld (evidenceLogs w ++ logs) (requests w ++ reqs)
      /\ Forall P logs /\ Forall Q reqs.

(** The requests of the MFA checker, given the answer to the first. *)
Definition mfa_check_requests (projectRef token : string) (auth : Outcome JSValue)
  : list Request :=
  get_request (authConfigUrl projectRef) token ::
  match auth with
  | Return authConfig =>
      if nullish authConfig then []
      else [query_request projectRef token mfa_user_query_sql]
  | Throw _ => []
  end.


(** What [keeps_to_project] says of a handler: it only appends evidence
    tagged with the project, and only calls the project's endpoints. *)
Definition keeps_to_project (projectRef token : string) {A} (m : M A) : Prop :=
  forall w,
    exists logs reqs,
      snd (m w) = mkWorld (evidenceLogs w ++ logs) (requests w ++ reqs)
      /\ Forall (tagged projectRef) logs
      /\ Forall (project_request projectRef token) reqs
      /\ getProjectLogs projectRef (snd (m w)) = getProjectLogs projectRef w ++ logs
      /\ (forall other, other <> projectRef ->
            getProjectLogs other (snd (m w)) = getProjectLogs other w).

(** The user list of the MFA checker, given the answer to the user
    query. *)
Definition mfa_users_of (answer : Outcome JSValue) : list MfaUser :=
  match answer with
  | Throw _ => []
  | Return data =>
      match map_throwing mfa_user_of_row (normalizeRows data) with
      | Return users => users
      | Throw _ => []
      end
  end.

Definition mfa_failed (msg : string) : MfaResult :=
  mkMfaResult (Some msg) None None (Some zero_summary) None.

Definition rls_failed (msg : string) : RlsResult :=
  mkRlsResult (Some msg) None (Some zero_summary) None.

Definition pitr_failed (msg : string) : PitrResult :=
  mkPitrResult (Some msg) false "error" None JNull.


(** Whether the auth config shows one of the three signs of MFA. *)
Definition mfa_sources (authConfig : JSValue) : bool :=
  (truthy (prop authConfig "sms_provider")
   && strictly_differs_from_string (prop authConfig "sms_provider") "NONE")
  || truthy (prop authConfig "mfa_enabled")
  || truthy (prop authConfig "external_mfa_enabled").

(** The last record of a fix. *)
Definition fix_completed_entry (projectRef : string) (fixId : JSValue)
    (fixes : Fixes) : EvidenceRecord :=
  mkEvidence "compliance_fix_completed"
    (if allSuccessful fixes then "success" else "partial_success")
    (JObj [("projectRef", JStr projectRef);
           ("fixId", fixId);
           ("summary", fix_summary_js (summary_of_fixes fixes));
           ("allSuccessful", JBool (allSuccessful fixes))])
    (Some projectRef).

Definition mfa_patch (projectRef token : string) : Request :=
  patch_request (authConfigUrl projectRef) token mfa_update_payload.

Definition pitr_sql_request (projectRef token : string) : Request :=
  query_request projectRef token pitrSqlQuery.

Definition pitr_patch (projectRef token : string) : Request :=
  patch_request (backupsUrl projectRef) token pitr_update_payload.

(** A label that reports no failure. *)
Definition label_ok (label : string) : bool :=
  (label =? "no_action_needed")%string || (label =? "fixed")%string.


(** The MFA entry of [fixes] after the MFA step, given the answer to the
    PATCH. *)
Definition mfa_fix_outcome (c : CategoryFix) (answer : Outcome JSValue) : CategoryFix :=
  match answer with
  | Return _ => succeeded c
  | Throw e => failed_with c (message e)
  end.

(** The PITR entry after the PITR step, given the answers to the SQL
    statement and to the PATCH that follows its failure. *)
Definition pitr_fix_outcome (c : CategoryFix) (sql patch : Outcome JSValue)
  : CategoryFix :=
  match sql with
  | Return _ => succeeded c
  | Throw _ => mfa_fix_outcome c patch
  end.

Definition pitr_fix_requests (projectRef token : string) (sql : Outcome JSValue)
  : list Request :=
  pitr_sql_request projectRef token ::
  match sql with
  | Return _ => []
  | Throw _ => [pitr_patch projectRef token]
  end.

Arguments pitr_fix_requests : simpl never.


(** What each status probe of the fix returns, given the answer it got. *)
Definition mfa_status_of (answer : Outcome JSValue) : CategoryStatus :=
  match answer with
  | Throw e => mkCategoryStatus false (Some (message e))
  | Return authConfig =>
      mkCategoryStatus (negb (truthy (mfaEnabled_of authConfig))) None
  end.

Definition rls_status_of (answer : Outcome JSValue) : RlsStatus :=
  match answer with
  | Throw e => mkRlsStatus false [] (Some (message e))
  | Return data =>
      match map_throwing table_ref_of_row (normalizeRows data) with
      | Throw e => mkRlsStatus false [] (Some (message e))
      | Return refs =>
          mkRlsStatus (0 <? List.length (normalizeRows data))%nat refs None
      end
  end.

Definition pitr_status_of (answer : Outcome JSValue) : CategoryStatus :=
  match answer with
  | Throw e => mkCategoryStatus false (Some (message e))
  | Return data =>
      mkCategoryStatus
        (negb (truthy (prop (js_or data (JObj [])) "pitr_enabled"))) None
  end.

(** The status that step 1 of the fix reads when it starts after the
    requests [reqs]. *)
Definition planned_status (projectRef token : string) (reqs : list Request)
  : ComplianceStatus :=
  mkComplianceStatus
    (mfa_status_of
       (remote reqs (get_request (authConfigUrl projectRef) token)))
    (rls_status_of
       (remote (reqs ++ [get_request (authConfigUrl projectRef) token])
               (query_request projectRef token rls_missing_tables_query_sql)))
    (pitr_status_of
       (remote (reqs ++ [get_request (authConfigUrl projectRef) token;
                         query_request projectRef token rls_missing_tables_query_sql])
               (get_request (backupsUrl projectRef) token))).

(** The plan of a fix call. *)
Definition planned_fixes (projectRef token : string) (reqBody : JSValue)
    (reqs : list Request) : Fixes :=
  plan (planned_status projectRef token reqs)
       (fix_option reqBody "fixMfa") (fix_option reqBody "fixRls")
       (fix_option reqBody "fixPitr").

(** The tables that a fix call plans to alter. *)
Definition planned_tables (projectRef token : string) (reqs : list Request)
  : list TableRef :=
  rls_status_tables (status_rls (planned_status projectRef token reqs)).


(** The requests of each fix step, given the plan it starts from and the
    requests sent before it. *)
Definition mfa_step_requests (projectRef token : string) (fixes : Fixes)
  : list Request :=
  if truthy (needed (fix_mfa fixes)) then [mfa_patch projectRef token] else [].

Definition rls_step_requests (projectRef token : string) (tables : list TableRef)
    (fixes : Fixes) (reqs : list Request) : list Request :=
  if truthy (rls_needed (fix_rls fixes)) then
    batch_request projectRef token tables ::
    match remote reqs (batch_request projectRef token tables) with
    | Return _ => []
    | Throw _ => map (alter_request projectRef token) tables
    end
  else [].

Definition pitr_step_requests (projectRef token : string) (fixes : Fixes)
    (reqs : list Request) : list Request :=
  if truthy (needed (fix_pitr fixes))
  then pitr_fix_requests projectRef token
         (remote reqs (pitr_sql_request projectRef token))
  else [].

(** [fixes] after the MFA step and after the PITR step. *)
Definition mfa_step_result (projectRef token : string) (fixes : Fixes)
    (reqs : list Request) : Fixes :=
  if truthy (needed (fix_mfa fixes))
  then set_mfa fixes
         (mfa_fix_outcome (fix_mfa fixes) (remote reqs (mfa_patch projectRef token)))
  else fixes.

Definition pitr_step_result (projectRef token : string) (fixes : Fixes)
    (reqs : list Request) : Fixes :=
  if truthy (needed (fix_pitr fixes))
  then set_pitr fixes
         (pitr_fix_outcome (fix_pitr fixes)
            (remote reqs (pitr_sql_request projectRef token))
            (remote (reqs ++ [pitr_sql_request projectRef token])
                    (pitr_patch projectRef token)))
  else fixes.

(** The requests sent before the RLS step and before the PITR step of a
    fix call that starts after [reqs]. *)
Definition history_before_rls (projectRef token : string) (reqBody : JSValue)
    (reqs : list Request) : list Request :=
  (reqs ++ status_requests projectRef token)
    ++ mfa_step_requests projectRef token
         (planned_fixes projectRef token reqBody reqs).

Definition history_before_pitr (projectRef token : string) (reqBody : JSValue)
    (reqs : list Request) : list Request :=
  history_before_rls projectRef token reqBody reqs
    ++ rls_step_requests projectRef token (planned_tables projectRef token reqs)
         (planned_fixes projectRef token reqBody reqs)
         (history_before_rls projectRef token reqBody reqs).

Arguments mfa_step_requests : simpl never.
Arguments rls_step_requests : simpl never.
Arguments pitr_step_requests : simpl never.
Arguments history_before_rls : simpl never.
Arguments history_before_pitr : simpl never.
Arguments planned_fixes : simpl never.
Arguments planned_tables : simpl never.
Arguments planned_status : simpl never.

(** A row of the missing-tables query as the planner keeps it. *)
Definition table_ref (row : JSValue) : TableRef :=
  mkTableRef (prop row "schemaname") (prop row "tablename").

(** The first and the last record of a compliance check. *)
Definition check_initiated_entry (projectRef : string) : EvidenceRecord :=
  mkEvidence "compliance_check_initiated" "info"
    (JObj [("projectRef", JStr projectRef)]) (Some projectRef).

Definition check_completed_entry (projectRef : string) (report : ComplianceReport)
  : EvidenceRecord :=
  mkEvidence "compliance_check_completed" "success"
    (JObj [("projectRef", JStr projectRef);
           ("checkId", report_checkId report);
           ("summary", report_summary_js (report_summary report))])
    (Some projectRef).

(** The first record of a fix call: the options after destructuring. *)
Definition fix_initiated_entry (projectRef : string) (reqBody : JSValue)
  : EvidenceRecord :=
  mkEvidence "compliance_fix_initiated" "info"
    (JObj [("projectRef", JStr projectRef);
           ("fixOptions", JObj [("fixMfa", fix_option reqBody "fixMfa");
                                ("fixRls", fix_option reqBody "fixRls");
                                ("fixPitr", fix_option reqBody "fixPitr")])])
    (Some projectRef).

(** The SQL text that an evidence record stores. *)
Definition logged_query (r : EvidenceRecord) : JSValue := prop (details r) "query".

(** The records of the middleware. *)
Definition missing_token_entry (req : HttpRequest) : EvidenceRecord :=
  mkEvidence "token_validation" "failure"
    (JObj [("message", JStr "Missing token");
           ("endpoint", JStr (originalUrl req));
           ("method", JStr (req_method req));
           ("headers", headers_js req)])
    None.

Definition token_attempt_entry (req : HttpRequest) : EvidenceRecord :=
  mkEvidence "token_validation_attempt" "info"
    (JObj [("endpoint", JStr (originalUrl req));
           ("method", JStr (req_method req));
           ("tokenProvided", JBool true);
           ("tokenSource", JStr (tokenSource req))])
    None.


(** An answer of the projects endpoint that the account routes accept:
    an array without [null] or [undefined] elements. *)
Definition project_list (data : JSValue) : Prop :=
  exists items, data = JArr items /\ Forall (fun p => nullish p = false) items.

Definition projects_request (token : JSValue) : Request :=
  get_request projectsUrl (toString token).

Arguments projectsUrl : simpl never.

(** The requests that a compliance check may send. *)
Definition check_requests (projectRef token : string) : list Request :=
  [get_request (authConfigUrl projectRef) token;
   query_request projectRef token mfa_user_query_sql;
   query_request projectRef token rls_tables_query_sql;
   get_request (backupsUrl projectRef) token].



(** Node hands over the value of a header without the blanks at its end. *)
Fixpoint ends_with_blank (s : string) : bool :=
  match s with
  | EmptyString => false
  | String c EmptyString => (c =? " ")%char || (c =? ascii_of_nat 9)%char
  | String _ rest => ends_with_blank rest
  end.

(** ** Running the model *)

Ltac unfold_monad :=
  unfold try_catch, bind, ret, throw, lift, logEvidence, axios; simpl.

(** [executeQuery] sends exactly one request; its outcome is the one of
    the request, rows normalized. *)
Lemma executeQuery_throws projectRef token query queryName logs reqs e :
  remote reqs (query_request projectRef token query) = Throw e ->
  executeQuery projectRef token query queryName (mkWorld logs reqs) =
    (Throw e,
     mkWorld (logs ++ [query_attempt_entry projectRef query queryName;
                       query_failure_entry projectRef query queryName e])
             (reqs ++ [query_request projectRef token query])).
Proof.
  intros H. unfold executeQuery. unfold_monad.
  fold (query_request projectRef token query). rewrite H. simpl.
  rewrite <- app_assoc. reflexivity.
Qed.

Lemma executeQuery_returns projectRef token query queryName logs reqs data :
  remote reqs (query_request projectRef token query) = Return data ->
  executeQuery projectRef token query queryName (mkWorld logs reqs) =
    (Return (normalizeRows data),
     mkWorld (logs ++
                [query_attempt_entry projectRef query queryName;
                 query_success_entry projectRef query queryName
                   (List.length (normalizeRows data)) (evidence_id logs)])
             (reqs ++ [query_request projectRef token query])).
Proof.
  intros H. unfold executeQuery. unfold_monad.
  fold (query_request projectRef token query). rewrite H. simpl.
  rewrite <- app_assoc. reflexivity.
Qed.

(** Case analysis on the answer to the query that the goal runs next. *)
Ltac run_query e data H :=
  match goal with
  | |- context [executeQuery ?p ?t ?q ?n (mkWorld ?l ?r)] =>
      destruct (remote r (query_request p t q)) as [e|data] eqn:H;
      [rewrite (executeQuery_throws p t q n l r _ H)
      |rewrite (executeQuery_returns p t q n l r _ H)]
  end.

(** ** Lists, counts and rows *)

Lemma map_throwing_Forall2 {A B} (f : A -> Outcome B) l l' :
  map_throwing f l = Return l' -> Forall2 (fun x y => f x = Return y) l l'.
Proof.
  revert l'. induction l as [|x rest IH]; simpl; intros l' H.
  - injection H as <-. constructor.
  - destruct (f x) as [e|y] eqn:Hx; [discriminate|].
    destruct (map_throwing f rest) as [e|ys]; [discriminate|].
    injection H as <-. constructor; auto.
Qed.

Lemma map_throwing_total {A B} (f : A -> Outcome B) l :
  Forall (fun x => exists y, f x = Return y) l ->
  exists l', map_throwing f l = Return l'.
Proof.
  induction 1 as [|x rest [y Hy] _ [ys Hys]]; simpl.
  - eexists; reflexivity.
  - rewrite Hy, Hys. eexists; reflexivity.
Qed.

Lemma count_split {A} (p q : A -> bool) (l : list A) :
  Forall (fun x => p x = negb (q x)) l ->
  count p l + count q l = List.length l.
Proof.
  unfold count. induction 1 as [|x rest Hx _ IH]; simpl; [reflexivity|].
  rewrite Hx. destruct (q x); simpl; lia.
Qed.

Lemma pass_or_fail_split (s : string) :
  pass_or_fail s -> (s =? "pass")%string = negb (s =? "fail")%string.
Proof. intros [-> | ->]; reflexivity. Qed.

Lemma mfa_user_of_row_status row u :
  mfa_user_of_row row = Return u ->
  user_status u = (if truthy (prop row "has_mfa") then "pass" else "fail").
Proof.
  unfold mfa_user_of_row, get_prop. destruct (nullish row); [discriminate|].
  intros H; injection H as <-. reflexivity.
Qed.

Lemma rls_table_of_row_fields row tb :
  rls_table_of_row row = Return tb ->
  table_status tb = (if truthy (prop row "rls_enabled") then "pass" else "fail")
  /\ rlsEnabled tb = prop row "rls_enabled"
  /\ hasPolicies tb = prop row "has_policies".
Proof.
  unfold rls_table_of_row, get_prop. destruct (nullish row); [discriminate|].
  intros H; injection H as <-. auto.
Qed.

Lemma mfa_summary_adds_up users :
  Forall (fun u => pass_or_fail (user_status u)) users ->
  passing (mfa_summary_of users) + failing (mfa_summary_of users)
  = total (mfa_summary_of users).
Proof.
  intros H. simpl. apply count_split.
  eapply Forall_impl; [|exact H]. intros u Hu. now apply pass_or_fail_split.
Qed.

Lemma rls_summary_adds_up tables :
  Forall (fun t => pass_or_fail (table_status t)) tables ->
  passing (rls_summary_of tables) + failing (rls_summary_of tables)
  = total (rls_summary_of tables).
Proof.
  intros H. simpl. apply count_split.
  eapply Forall_impl; [|exact H]. intros u Hu. now apply pass_or_fail_split.
Qed.

Lemma mapped_users_pass_or_fail rows users :
  map_throwing mfa_user_of_row rows = Return users ->
  Forall (fun u => pass_or_fail (user_status u)) users.
Proof.
  intros H. apply map_throwing_Forall2 in H.
  induction H as [|row u rows' users' Hu _ IH]; constructor; auto.
  rewrite (mfa_user_of_row_status _ _ Hu).
  destruct (truthy _); [left | right]; reflexivity.
Qed.

Lemma mapped_tables_pass_or_fail rows tables :
  map_throwing rls_table_of_row rows = Return tables ->
  Forall (fun t => pass_or_fail (table_status t)) tables.
Proof.
  intros H. apply map_throwing_Forall2 in H.
  induction H as [|row tb rows' tables' Ht _ IH]; constructor; auto.
  destruct (rls_table_of_row_fields _ _ Ht) as [-> _].
  destruct (truthy _); [left | right]; reflexivity.
Qed.

(** ** The checkers, run *)

(** The user query of the MFA checker never throws past its [catch]; a
    failed query leaves the user list empty. *)
Lemma mfaUsers_runs projectRef token mfaCheckId w :
  exists users w',
    mfaUsers projectRef token mfaCheckId w = (Return users, w')
    /\ Forall (fun u => pass_or_fail (user_status u)) users
    /\ (forall e,
          remote (requests w) (query_request projectRef token mfa_user_query_sql)
            = Throw e -> users = []).
Proof.
  destruct w as [logs reqs]. unfold mfaUsers, try_catch, bind. simpl.
  run_query e data H.
  - unfold_monad.
    do 2 eexists. split; [reflexivity|]. split; [constructor|]. reflexivity.
  - unfold lift.
    destruct (map_throwing mfa_user_of_row (normalizeRows data)) as [e|users] eqn:Hm.
    + unfold_monad. do 2 eexists. split; [reflexivity|].
      split; [constructor|]. discriminate.
    + unfold_monad. do 2 eexists. split; [reflexivity|].
      split; [eapply mapped_users_pass_or_fail; eassumption|]. discriminate.
Qed.

Lemma mfaCheck_runs projectRef token checkId w :
  exists r w',
    mfaCheck projectRef token checkId w = (Return r, w') /\ mfa_result_ok r.
Proof.
  unfold mfaCheck, try_catch, bind. unfold logEvidence at 1, axios at 1. simpl.
  destruct (remote (requests w) _) as [e|authConfig].
  - unfold_monad. do 2 eexists. split; [reflexivity|].
    eexists; repeat split; reflexivity.
  - unfold lift. destruct (masked_config authConfig) as [e|config].
    + unfold_monad. do 2 eexists. split; [reflexivity|].
      eexists; repeat split; reflexivity.
    + match goal with
      | |- context [mfaUsers ?p ?t ?i ?w0] =>
          destruct (mfaUsers_runs p t i w0) as (users & w1 & Hrun & Hpf & _)
      end.
      rewrite Hrun. unfold_monad. do 2 eexists. split; [reflexivity|].
      exists (mfa_summary_of users). split; [reflexivity|].
      split; [now apply mfa_summary_adds_up|]. intros Habs. now elim Habs.
Qed.

Lemma rlsCheck_runs projectRef token checkId w :
  exists r w',
    rlsCheck projectRef token checkId w = (Return r, w') /\ rls_result_ok r.
Proof.
  destruct w as [logs reqs].
  unfold rlsCheck, try_catch, bind. unfold logEvidence at 1. simpl.
  run_query e data H.
  - unfold_monad. do 2 eexists. split; [reflexivity|].
    eexists; repeat split; reflexivity.
  - unfold lift.
    destruct (map_throwing rls_table_of_row (normalizeRows data)) as [e|tables] eqn:Hm.
    + unfold_monad. do 2 eexists. split; [reflexivity|].
      eexists; repeat split; reflexivity.
    + unfold_monad. do 2 eexists. split; [reflexivity|].
      exists (rls_summary_of tables). split; [reflexivity|].
      split; [eapply rls_summary_adds_up, mapped_tables_pass_or_fail; eassumption|].
      intros Habs. now elim Habs.
Qed.

Lemma pitrCheck_runs projectRef token checkId w :
  exists r w',
    pitrCheck projectRef token checkId w = (Return r, w') /\ pitr_result_ok r.
Proof.
  unfold pitrCheck, try_catch, bind. unfold logEvidence at 1, axios at 1. simpl.
  destruct (remote (requests w) _) as [e|data].
  - unfold_monad. do 2 eexists. split; [reflexivity|].
    right. repeat split. discriminate.
  - unfold_monad. do 2 eexists. split; [reflexivity|].
    left. split; reflexivity.
Qed.

(** The handler always answers 200 with a report built from the three
    checker results. *)
Lemma complianceCheck_runs projectRef token w :
  exists report w',
    complianceCheck projectRef token w = (Return (Json200 report), w')
    /\ report_summary report =
         report_summary_of (report_mfa report) (report_rls report) (report_pitr report)
    /\ mfa_result_ok (report_mfa report)
    /\ rls_result_ok (report_rls report)
    /\ pitr_result_ok (report_pitr report).
Proof.
  unfold complianceCheck, try_catch, bind. unfold logEvidence at 1.
  match goal with
  | |- context [mfaCheck ?p ?t ?i ?w0] =>
      destruct (mfaCheck_runs p t i w0) as (mfa & w1 & -> & Hmfa)
  end.
  destruct (rlsCheck_runs projectRef token (evidence_id (evidenceLogs w)) w1)
    as (rls & w2 & -> & Hrls).
  destruct (pitrCheck_runs projectRef token (evidence_id (evidenceLogs w)) w2)
    as (pitr & w3 & -> & Hpitr).
  unfold_monad. do 2 eexists. split; [reflexivity|]. simpl. auto.
Qed.

Lemma prop_of_config data k :
  prop (js_or data (JObj [])) k = prop data k.
Proof.
  unfold js_or. destruct data as [| |[|]|n|str|items|fields]; simpl; try reflexivity.
  - destruct (n =? 0)%Z; reflexivity.
  - destruct (str =? EmptyString)%string; reflexivity.
Qed.

Lemma failing_is_zero_spec (o : option Summary) :
  failing_is_zero o = true <-> exists s, o = Some s /\ failing s = 0.
Proof.
  destruct o as [s|]; simpl.
  - rewrite Nat.eqb_eq. split.
    + intros H. now exists s.
    + intros (s' & Hs & H). now injection Hs as ->.
  - split; [discriminate|]. intros (s' & Hs & _). discriminate.
Qed.

(** ** The query executor *)

(** C6: the rows returned by the query executor.  A payload that is an
    array whose first element is an array gives that first element; an
    empty array, or an array whose first element is not an array, is
    returned as it is; a payload that is absent or not an array gives the
    empty list of rows. *)
Theorem executeQuery_normalizes_payload projectRef token query queryName w data :
  remote (requests w) (query_request projectRef token query) = Return data ->
  exists rows w',
    executeQuery projectRef token query queryName w = (Return rows, w')
    /\ (forall inner rest, data = JArr (JArr inner :: rest) -> rows = inner)
    /\ (forall items,
          data = JArr items ->
          items = [] \/ (exists x rest, items = x :: rest /\ isArray x = false) ->
          rows = items)
    /\ (isArray data = false -> rows = []).
Proof.
  destruct w as [logs reqs]. simpl.
  intros H. rewrite (executeQuery_returns _ _ _ _ _ _ _ H).
  do 2 eexists. split; [reflexivity|]. split; [|split].
  - intros inner rest ->. reflexivity.
  - intros items -> [-> | (x & rest & -> & Hx)]; [reflexivity|].
    unfold normalizeRows. simpl. unfold isArray in Hx.
    destruct (asArray x); [discriminate | reflexivity].
  - unfold isArray, normalizeRows. intros Hd.
    destruct (truthy data); [|reflexivity].
    destruct (asArray data); [discriminate | reflexivity].
Qed.

(** C7, amended: when the request of a query execution throws (network
    error, status outside 2xx), the executor records a [sql_query_failure]
    entry with the message, status and body of the error and re-raises the
    same error, returning no rows.  A malformed payload in a 2xx answer is
    not a failure: the executor records [sql_query_success] and returns the
    empty list of rows. *)
Theorem executeQuery_reraises_request_errors projectRef token query queryName w :
  (forall e,
     remote (requests w) (query_request projectRef token query) = Throw e ->
     exists w',
       executeQuery projectRef token query queryName w = (Throw e, w')
       /\ evidenceLogs w' =
            evidenceLogs w ++ [query_attempt_entry projectRef query queryName;
                               query_failure_entry projectRef query queryName e])
  /\ (forall data,
        remote (requests w) (query_request projectRef token query) = Return data ->
        malformed_payload data = true ->
        exists w',
          executeQuery projectRef token query queryName w = (Return [], w')
          /\ evidenceLogs w' =
               evidenceLogs w ++
                 [query_attempt_entry projectRef query queryName;
                  query_success_entry projectRef query queryName 0
                    (evidence_id (evidenceLogs w))]).
Proof.
  destruct w as [logs reqs]. simpl. split.
  - intros e H. rewrite (executeQuery_throws _ _ _ _ _ _ _ H).
    eexists. split; reflexivity.
  - intros data H Hbad. rewrite (executeQuery_returns _ _ _ _ _ _ _ H).
    assert (Hrows : normalizeRows data = []).
    { unfold malformed_payload, isArray in Hbad. unfold normalizeRows.
      destruct (truthy data); [|reflexivity].
      destruct (asArray data); [discriminate | reflexivity]. }
    rewrite Hrows. eexists. split; reflexivity.
Qed.

(** ** The three checkers *)

(** When the auth config comes back [null] or [undefined], the MFA checker
    fails as a whole before the user query is sent. *)
Lemma mfaCheck_without_config projectRef token checkId w authConfig :
  remote (requests w) (get_request (authConfigUrl projectRef) token)
    = Return authConfig ->
  nullish authConfig = true ->
  exists r w',
    mfaCheck projectRef token checkId w = (Return r, w')
    /\ mfa_error r <> None
    /\ requests w' = requests w ++ [get_request (authConfigUrl projectRef) token].
Proof.
  intros H Hnull. unfold mfaCheck, try_catch, bind.
  unfold logEvidence at 1, axios at 1. simpl.
  fold (get_request (authConfigUrl projectRef) token). rewrite H.
  unfold lift, masked_config, get_prop. rewrite Hnull. unfold_monad.
  do 2 eexists. split; [reflexivity|]. split; [discriminate | reflexivity].
Qed.


(** C4: for every backups configuration that the PITR probe receives,
    [pitrEnabled] is [true] exactly when the upstream [pitr_enabled] is the
    boolean [true]; every other value, such as the string ["true"] or the
    number [1], gives [pitrEnabled = false] and the status ['fail']. *)
Theorem pitrCheck_strict_boolean projectRef token checkId w data :
  remote (requests w) (get_request (backupsUrl projectRef) token) = Return data ->
  exists r w',
    pitrCheck projectRef token checkId w = (Return r, w')
    /\ (pitrEnabled r = true <-> prop data "pitr_enabled" = JBool true)
    /\ (prop data "pitr_enabled" <> JBool true ->
        pitrEnabled r = false /\ pitr_status r = "fail")
    /\ (prop data "pitr_enabled" = JBool true -> pitr_status r = "pass")
    /\ (prop data "pitr_enabled" = JStr "true" \/ prop data "pitr_enabled" = JNum 1 ->
        pitrEnabled r = false /\ pitr_status r = "fail").
Proof.
  intros H. unfold pitrCheck, try_catch, bind.
  unfold logEvidence at 1, axios at 1. simpl.
  fold (get_request (backupsUrl projectRef) token). rewrite H. unfold_monad.
  do 2 eexists. split; [reflexivity|]. simpl. rewrite prop_of_config.
  destruct (prop data "pitr_enabled") as [| |[|]|n|str|items|fields]; simpl;
    (split; [split; congruence|]);
    (split; [intros Hne; try (now elim Hne); split; reflexivity|]);
    (split; [congruence|]);
    intros [Habs | Habs]; first [discriminate | split; reflexivity].
Qed.

(** C5: for every row that the RLS check query returns, the status of the
    table is ['pass'] exactly when [rls_enabled] is set (truthy), and
    otherwise ['fail']; the status is the same for any two rows that agree
    on [rls_enabled], whatever their [has_policies], which is only copied
    into [hasPolicies]. *)
Theorem rlsCheck_status_from_rls_enabled projectRef token checkId w data :
  remote (requests w) (query_request projectRef token rls_tables_query_sql)
    = Return data ->
  exists r w',
    rlsCheck projectRef token checkId w = (Return r, w')
    /\ (Forall (fun row => nullish row = false) (normalizeRows data) ->
        exists tables, rls_check_tables r = Some tables)
    /\ (forall tables,
          rls_check_tables r = Some tables ->
          Forall2 (fun row tb =>
                     (table_status tb = "pass" <-> truthy (prop row "rls_enabled") = true)
                     /\ (table_status tb = "fail" <-> truthy (prop row "rls_enabled") = false)
                     /\ hasPolicies tb = prop row "has_policies")
                  (normalizeRows data) tables
          /\ Forall2 (fun row tb =>
                        forall row' tb',
                          rls_table_of_row row' = Return tb' ->
                          prop row' "rls_enabled" = prop row "rls_enabled" ->
                          table_status tb' = table_status tb)
                     (normalizeRows data) tables).
Proof.
  destruct w as [logs reqs]. simpl. intros H.
  unfold rlsCheck, try_catch, bind. unfold logEvidence at 1. simpl.
  rewrite (executeQuery_returns _ _ _ _ _ _ _ H). unfold lift.
  destruct (map_throwing rls_table_of_row (normalizeRows data)) as [e|tables] eqn:Hm.
  - unfold_monad. do 2 eexists. split; [reflexivity|]. simpl. split.
    + intros Hrows. exfalso.
      destruct (map_throwing_total rls_table_of_row (normalizeRows data)) as [l Hl].
      * eapply Forall_impl; [|exact Hrows]. intros row Hrow.
        unfold rls_table_of_row, get_prop. rewrite Hrow. eexists; reflexivity.
      * congruence.
    + intros tables Habs. discriminate.
  - unfold_monad. do 2 eexists. split; [reflexivity|]. simpl. split.
    + intros _. eexists; reflexivity.
    + intros tables' Heq. injection Heq as <-.
      apply map_throwing_Forall2 in Hm.
      split; (induction Hm as [|row tb rows' tables' Ht _ IH]; constructor; auto).
      * destruct (rls_table_of_row_fields _ _ Ht) as (-> & _ & ->).
        destruct (truthy (prop row "rls_enabled")); repeat split; congruence.
      * intros row' tb' Ht' Hsame.
        destruct (rls_table_of_row_fields _ _ Ht) as (-> & _).
        destruct (rls_table_of_row_fields _ _ Ht') as (-> & _).
        now rewrite Hsame.
Qed.

(** ** The report *)

Lemma complianceCheck_report projectRef token w :
  exists report w' w1 w2 w3,
    complianceCheck projectRef token w = (Return (Json200 report), w')
    /\ fst (mfaCheck projectRef token (report_checkId report) w1)
       = Return (report_mfa report)
    /\ fst (rlsCheck projectRef token (report_checkId report) w2)
       = Return (report_rls report)
    /\ fst (pitrCheck projectRef token (report_checkId report) w3)
       = Return (report_pitr report)
    /\ report_summary report =
         report_summary_of (report_mfa report) (report_rls report) (report_pitr report)
    /\ mfa_result_ok (report_mfa report)
    /\ rls_result_ok (report_rls report).
Proof.
  unfold complianceCheck, try_catch, bind. unfold logEvidence at 1.
  match goal with
  | |- context [mfaCheck ?p ?t ?i ?w0] =>
      destruct (mfaCheck_runs p t i w0) as (mfa & w1 & Hm & Hmfa);
      pose (start := w0)
  end.
  rewrite Hm.
  destruct (rlsCheck_runs projectRef token (evidence_id (evidenceLogs w)) w1)
    as (rls & w2 & Hr & Hrls).
  rewrite Hr.
  destruct (pitrCheck_runs projectRef token (evidence_id (evidenceLogs w)) w2)
    as (pitr & w3 & Hp & Hpitr).
  rewrite Hp.
  unfold_monad. exists (mkReport projectRef (evidence_id (evidenceLogs w)) mfa rls pitr
                          (report_summary_of mfa rls pitr)).
  eexists. exists start, w1, w2. split; [reflexivity|]. simpl.
  subst start. rewrite Hm, Hr, Hp. simpl. repeat split; assumption.
Qed.

(** C1: the report's [summary.overallStatus] is ['pass'] exactly when the
    failing count of the summary that the MFA checker returned is 0, the
    failing count of the summary that the RLS checker returned is 0 and
    the status that the PITR checker returned is ['pass']; in every other
    case it is ['fail']. *)
Theorem complianceCheck_overallStatus projectRef token w :
  exists report w' mfaSummary rlsSummary,
    complianceCheck projectRef token w = (Return (Json200 report), w')
    /\ (exists w1,
          fst (mfaCheck projectRef token (report_checkId report) w1)
            = Return (report_mfa report))
    /\ (exists w2,
          fst (rlsCheck projectRef token (report_checkId report) w2)
            = Return (report_rls report))
    /\ (exists w3,
          fst (pitrCheck projectRef token (report_checkId report) w3)
            = Return (report_pitr report))
    /\ mfa_summary (report_mfa report) = Some mfaSummary
    /\ rls_summary (report_rls report) = Some rlsSummary
    /\ (overallStatus (report_summary report) = "pass" <->
        failing mfaSummary = 0
        /\ failing rlsSummary = 0
        /\ pitr_status (report_pitr report) = "pass")
    /\ (~ (failing mfaSummary = 0
           /\ failing rlsSummary = 0
           /\ pitr_status (report_pitr report) = "pass") ->
        overallStatus (report_summary report) = "fail").
Proof.
  destruct (complianceCheck_report projectRef token w)
    as (report & w' & w1 & w2 & w3 & Hrun & Hmfa & Hrls & Hpitr & Hsum
        & (sm & Hm & _) & (sr & Hr & _)).
  exists report, w', sm, sr. split; [exact Hrun|].
  split; [exists w1; exact Hmfa|]. split; [exists w2; exact Hrls|].
  split; [exists w3; exact Hpitr|]. split; [exact Hm|]. split; [exact Hr|].
  rewrite Hsum. unfold report_summary_of. simpl. rewrite Hm, Hr. simpl.
  destruct (Nat.eqb_spec (failing sm) 0) as [Em|Em];
    destruct (Nat.eqb_spec (failing sr) 0) as [Er|Er];
    destruct (String.eqb_spec (pitr_status (report_pitr report)) "pass") as [Ep|Ep];
    simpl; split; try tauto; try (split; [discriminate | tauto]).
Qed.


(** ** The status probes of the fix, run *)

Lemma map_throwing_length {A B} (f : A -> Outcome B) l l' :
  map_throwing f l = Return l' -> List.length l' = List.length l.
Proof.
  intros H. apply map_throwing_Forall2 in H.
  induction H; simpl; congruence.
Qed.

Lemma mfaStatus_runs projectRef token statusCheckId logs reqs :
  exists st logs',
    mfaStatus projectRef token statusCheckId (mkWorld logs reqs) =
      (Return st,
       mkWorld logs' (reqs ++ [get_request (authConfigUrl projectRef) token]))
    /\ (forall e,
          remote reqs (get_request (authConfigUrl projectRef) token) = Throw e ->
          st = mkCategoryStatus false (Some (message e))).
Proof.
  unfold mfaStatus, try_catch, bind. unfold axios at 1. simpl.
  fold (get_request (authConfigUrl projectRef) token).
  destruct (remote reqs _) as [e|authConfig]; unfold_monad.
  - do 2 eexists. split; [reflexivity|]. intros e' He. now injection He as <-.
  - do 2 eexists. split; [reflexivity|]. discriminate.
Qed.

Lemma rlsStatus_runs projectRef token statusCheckId logs reqs :
  exists st logs',
    rlsStatus projectRef token statusCheckId (mkWorld logs reqs) =
      (Return st,
       mkWorld logs'
         (reqs ++ [query_request projectRef token rls_missing_tables_query_sql]))
    /\ (forall e,
          remote reqs (query_request projectRef token rls_missing_tables_query_sql)
            = Throw e ->
          st = mkRlsStatus false [] (Some (message e)))
    /\ (rls_needsFix st = true -> rls_status_tables st <> []).
Proof.
  unfold rlsStatus, try_catch, bind. run_query e data H.
  - unfold_monad. do 2 eexists. split; [reflexivity|]. split.
    + intros e' He. now injection He as <-.
    + discriminate.
  - unfold lift.
    destruct (map_throwing row_qualified_name (normalizeRows data)) as [e|names].
    { unfold_monad. do 2 eexists. split; [reflexivity|].
      split; discriminate. }
    simpl.
    destruct (map_throwing table_ref_of_row (normalizeRows data)) as [e|refs] eqn:Hr.
    { unfold_monad. do 2 eexists. split; [reflexivity|].
      split; discriminate. }
    unfold_monad. do 2 eexists. split; [reflexivity|]. split; [discriminate|].
    simpl. intros Hlen Hnil. apply map_throwing_length in Hr.
    rewrite Hnil in Hr. simpl in Hr. rewrite <- Hr in Hlen. discriminate.
Qed.

Lemma pitrStatus_runs projectRef token statusCheckId logs reqs :
  exists st logs',
    pitrStatus projectRef token statusCheckId (mkWorld logs reqs) =
      (Return st,
       mkWorld logs' (reqs ++ [get_request (backupsUrl projectRef) token]))
    /\ (forall e,
          remote reqs (get_request (backupsUrl projectRef) token) = Throw e ->
          st = mkCategoryStatus false (Some (message e))).
Proof.
  unfold pitrStatus, try_catch, bind. unfold axios at 1. simpl.
  fold (get_request (backupsUrl projectRef) token).
  destruct (remote reqs _) as [e|data]; unfold_monad.
  - do 2 eexists. split; [reflexivity|]. intros e' He. now injection He as <-.
  - do 2 eexists. split; [reflexivity|]. discriminate.
Qed.

Lemma complianceStatus_runs projectRef token fixId logs reqs :
  exists st logs',
    complianceStatus projectRef token fixId (mkWorld logs reqs) =
      (Return st, mkWorld logs' (reqs ++ status_requests projectRef token))
    /\ (forall e,
          remote reqs (get_request (authConfigUrl projectRef) token) = Throw e ->
          status_mfa st = mkCategoryStatus false (Some (message e)))
    /\ (forall e,
          remote (reqs ++ [get_request (authConfigUrl projectRef) token])
                 (query_request projectRef token rls_missing_tables_query_sql)
            = Throw e ->
          status_rls st = mkRlsStatus false [] (Some (message e)))
    /\ (forall e,
          remote (reqs ++ [get_request (authConfigUrl projectRef) token;
                           query_request projectRef token rls_missing_tables_query_sql])
                 (get_request (backupsUrl projectRef) token) = Throw e ->
          status_pitr st = mkCategoryStatus false (Some (message e)))
    /\ (rls_needsFix (status_rls st) = true -> rls_status_tables (status_rls st) <> []).
Proof.
  unfold complianceStatus, try_catch, bind. unfold logEvidence at 1. simpl.
  match goal with
  | |- context [mfaStatus ?p ?t ?i (mkWorld ?l ?r)] =>
      destruct (mfaStatus_runs p t i l r) as (ms & l1 & -> & Hm)
  end.
  match goal with
  | |- context [rlsStatus ?p ?t ?i (mkWorld ?l ?r)] =>
      destruct (rlsStatus_runs p t i l r) as (rs & l2 & -> & Hr & Hne)
  end.
  match goal with
  | |- context [pitrStatus ?p ?t ?i (mkWorld ?l ?r)] =>
      destruct (pitrStatus_runs p t i l r) as (ps & l3 & -> & Hp)
  end.
  unfold_monad. rewrite <- !app_assoc in *. simpl in *.
  do 2 eexists. split; [reflexivity|]. simpl. auto.
Qed.

(** ** The fix steps, run *)

Lemma table_outcomes_length projectRef token reqs tbs tfs :
  table_outcomes projectRef token reqs tbs tfs ->
  List.length tfs = List.length tbs.
Proof. induction 1; simpl; congruence. Qed.

Lemma table_outcomes_all_succeed projectRef token reqs tbs tfs :
  table_outcomes projectRef token reqs tbs tfs ->
  (forall h tb, In tb tbs ->
     returns (remote h (alter_request projectRef token tb)) = true) ->
  forallb table_success tfs = true.
Proof.
  induction 1 as [|reqs tb tbs tf tfs Hs _ _ IH]; intros Hall; simpl.
  - reflexivity.
  - rewrite Hs, (Hall reqs tb (or_introl eq_refl)). simpl.
    apply IH. intros h tb' Hin. apply Hall. now right.
Qed.

Lemma fixMfa_step_runs projectRef token fixId fixes logs reqs :
  exists fixes' logs' new,
    fixMfa_step projectRef token fixId fixes (mkWorld logs reqs) =
      (Return fixes', mkWorld logs' (reqs ++ new))
    /\ fix_rls fixes' = fix_rls fixes
    /\ fix_pitr fixes' = fix_pitr fixes
    /\ needed (fix_mfa fixes') = needed (fix_mfa fixes)
    /\ (truthy (needed (fix_mfa fixes)) = false -> fixes' = fixes /\ new = [])
    /\ Forall (mfa_fix_request projectRef token) new.
Proof.
  unfold fixMfa_step. destruct (truthy (needed (fix_mfa fixes))) eqn:Hn.
  - unfold try_catch, bind. unfold logEvidence at 1 2, axios at 1. simpl.
    fold (patch_request (authConfigUrl projectRef) token mfa_update_payload).
    destruct (remote reqs _) as [e|data]; unfold_monad;
      do 3 eexists; (split; [reflexivity|]); simpl;
      repeat split; try discriminate; repeat constructor.
  - exists fixes, logs, []. rewrite app_nil_r.
    repeat split; auto.
Qed.

Lemma fixTable_runs projectRef token rlsFixId tb logs reqs :
  exists tf logs',
    fixTable projectRef token rlsFixId tb (mkWorld logs reqs) =
      (Return tf, mkWorld logs' (reqs ++ [alter_request projectRef token tb]))
    /\ table_success tf = returns (remote reqs (alter_request projectRef token tb))
    /\ fixed_table tf = qualified_name tb.
Proof.
  unfold fixTable, try_catch, bind. unfold logEvidence at 1. simpl.
  unfold alter_request. run_query e data H; unfold_monad;
    do 2 eexists; (split; [reflexivity|]); split; reflexivity.
Qed.

Lemma for_each_fixTable_runs projectRef token rlsFixId tables logs reqs :
  exists results logs',
    for_each (fixTable projectRef token rlsFixId) tables (mkWorld logs reqs) =
      (Return results,
       mkWorld logs' (reqs ++ map (alter_request projectRef token) tables))
    /\ table_outcomes projectRef token reqs tables results.
Proof.
  revert logs reqs. induction tables as [|tb tbs IH]; intros logs reqs; simpl.
  - exists [], logs. rewrite app_nil_r. split; [reflexivity | constructor].
  - unfold bind at 1.
    destruct (fixTable_runs projectRef token rlsFixId tb logs reqs)
      as (tf & l1 & -> & Hs & Hn).
    unfold bind at 1.
    destruct (IH l1 (reqs ++ [alter_request projectRef token tb]))
      as (tfs & l2 & -> & Ho).
    unfold ret. rewrite <- app_assoc. simpl.
    do 2 eexists. split; [reflexivity|]. now constructor.
Qed.

Lemma rlsFallback_runs projectRef token rlsFixId tables batchError fixes logs reqs :
  exists fixes' logs',
    rlsFallback projectRef token rlsFixId tables batchError fixes (mkWorld logs reqs) =
      (Return fixes',
       mkWorld logs' (reqs ++ map (alter_request projectRef token) tables))
    /\ fix_mfa fixes' = fix_mfa fixes
    /\ fix_pitr fixes' = fix_pitr fixes
    /\ rls_needed (fix_rls fixes') = rls_needed (fix_rls fixes)
    /\ rls_applied (fix_rls fixes') = rls_applied (fix_rls fixes)
    /\ rls_error (fix_rls fixes') = rls_error (fix_rls fixes)
    /\ rls_success (fix_rls fixes') = forallb table_success (rls_tables (fix_rls fixes'))
    /\ table_outcomes projectRef token reqs tables (rls_tables (fix_rls fixes')).
Proof.
  unfold rlsFallback, try_catch, bind. unfold logEvidence at 1. simpl.
  match goal with
  | |- context [for_each _ _ (mkWorld ?l ?r)] =>
      destruct (for_each_fixTable_runs projectRef token rlsFixId tables l r)
        as (results & l1 & -> & Ho)
  end.
  unfold_monad. do 2 eexists. split; [reflexivity|]. simpl. auto 10.
Qed.

Lemma all_marked_fixed tables :
  forallb table_success
    (map (fun t => mkTableFix (qualified_name t) true None) tables) = true.
Proof. induction tables; simpl; auto. Qed.

Lemma fixRls_step_runs projectRef token fixId tables fixes logs reqs :
  exists fixes' logs' new,
    fixRls_step projectRef token fixId tables fixes (mkWorld logs reqs) =
      (Return fixes', mkWorld logs' (reqs ++ new))
    /\ fix_mfa fixes' = fix_mfa fixes
    /\ fix_pitr fixes' = fix_pitr fixes
    /\ rls_needed (fix_rls fixes') = rls_needed (fix_rls fixes)
    /\ (truthy (rls_needed (fix_rls fixes)) = false -> fixes' = fixes /\ new = [])
    /\ (truthy (rls_needed (fix_rls fixes)) = true ->
        rls_applied (fix_rls fixes') = true
        /\ rls_success (fix_rls fixes') =
             forallb table_success (rls_tables (fix_rls fixes'))
        /\ List.length (rls_tables (fix_rls fixes')) = List.length tables
        /\ (forall e,
              remote reqs (batch_request projectRef token tables) = Throw e ->
              rls_error (fix_rls fixes') = Some (message e)
              /\ table_outcomes projectRef token
                   (reqs ++ [batch_request projectRef token tables]) tables
                   (rls_tables (fix_rls fixes')))
        /\ (returns (remote reqs (batch_request projectRef token tables)) = true ->
            rls_success (fix_rls fixes') = true))
    /\ Forall (rls_fix_request projectRef token) new.
Proof.
  unfold fixRls_step. destruct (truthy (rls_needed (fix_rls fixes))) eqn:Hn.
  - unfold try_catch, bind. unfold logEvidence at 1 2. simpl.
    unfold batch_request. run_query e data H.
    + simpl.
      match goal with
      | |- context [rlsFallback ?p ?t ?i ?tb ?err ?f (mkWorld ?l ?r)] =>
          destruct (rlsFallback_runs p t i tb err f l r)
            as (fixes' & l1 & -> & Hm & Hp & Hnd & Ha & He & Hs & Ho)
      end.
      simpl in *. rewrite <- (app_assoc reqs). simpl.
      do 3 eexists. split; [reflexivity|].
      split; [exact Hm|]. split; [exact Hp|]. split; [exact Hnd|].
      split; [discriminate|]. split.
      * intros _. split; [exact Ha|]. split; [exact Hs|].
        split; [eapply table_outcomes_length; eassumption|]. split.
        -- intros e' He'. injection He' as <-.
           split; [exact He | exact Ho].
        -- discriminate.
      * constructor.
        { left. exists tables. reflexivity. }
        apply Forall_forall. intros r Hin. apply in_map_iff in Hin.
        destruct Hin as (tb & <- & _). right. now exists tb.
    + unfold_monad. do 3 eexists. split; [reflexivity|]. simpl.
      split; [reflexivity|]. split; [reflexivity|]. split; [reflexivity|].
      split; [discriminate|]. split.
      * intros _. split; [reflexivity|].
        split; [symmetry; apply all_marked_fixed|].
        split; [apply length_map|]. split.
        -- intros e' He'. discriminate.
        -- reflexivity.
      * constructor; [|constructor]. left. exists tables. reflexivity.
  - exists fixes, logs, []. rewrite app_nil_r.
    repeat split; auto; discriminate.
Qed.

Lemma fixPitr_step_runs projectRef token fixId fixes logs reqs :
  exists fixes' logs' new,
    fixPitr_step projectRef token fixId fixes (mkWorld logs reqs) =
      (Return fixes', mkWorld logs' (reqs ++ new))
    /\ fix_mfa fixes' = fix_mfa fixes
    /\ fix_rls fixes' = fix_rls fixes
    /\ needed (fix_pitr fixes') = needed (fix_pitr fixes)
    /\ (truthy (needed (fix_pitr fixes)) = false -> fixes' = fixes /\ new = [])
    /\ Forall (pitr_fix_request projectRef token) new.
Proof.
  unfold fixPitr_step. destruct (truthy (needed (fix_pitr fixes))) eqn:Hn.
  - unfold try_catch, bind. unfold logEvidence at 1 2. simpl.
    run_query e data H.
    + simpl.
      fold (patch_request (backupsUrl projectRef) token pitr_update_payload).
      destruct (remote _ (patch_request _ _ _)) as [e'|data]; unfold_monad;
        rewrite <- (app_assoc reqs); simpl;
        do 3 eexists; (split; [reflexivity|]); simpl;
        repeat split; try discriminate;
        (constructor; [left; reflexivity|]);
        (constructor; [right; reflexivity|]); constructor.
    + unfold_monad. do 3 eexists. split; [reflexivity|]. simpl.
      repeat split; try discriminate.
      constructor; [left; reflexivity | constructor].
  - exists fixes, logs, []. rewrite app_nil_r.
    repeat split; auto.
Qed.

(** ** The fix handler, run *)

Lemma complianceFix_runs projectRef token reqBody logs reqs :
  nullish reqBody = false ->
  exists result logs' new,
    complianceFix projectRef token reqBody (mkWorld logs reqs) =
      (Return (Json200 result), mkWorld logs' (reqs ++ new))
    /\ fix_run projectRef token reqBody reqs result new.
Proof.
  intros Hbody. unfold complianceFix, try_catch, bind, lift, destructure_or_true.
  rewrite Hbody. unfold logEvidence at 1. simpl.
  fold (fix_option reqBody "fixMfa") (fix_option reqBody "fixRls")
       (fix_option reqBody "fixPitr").
  match goal with
  | |- context [complianceStatus ?p ?t ?i (mkWorld ?l ?r)] =>
      destruct (complianceStatus_runs p t i l r)
        as (st & l1 & -> & Hsm & Hsr & Hsp & Hne)
  end.
  simpl.
  match goal with
  | |- context [fixMfa_step ?p ?t ?i ?f (mkWorld ?l ?r)] =>
      destruct (fixMfa_step_runs p t i f l r)
        as (f1 & l2 & new_mfa & -> & Hm_rls & Hm_pitr & Hm_needed & Hm_skip & Hm_reqs)
  end.
  match goal with
  | |- context [fixRls_step ?p ?t ?i ?tb ?f (mkWorld ?l ?r)] =>
      destruct (fixRls_step_runs p t i tb f l r)
        as (f2 & l3 & new_rls & -> & Hr_mfa & Hr_pitr & Hr_needed & Hr_skip
            & Hr_done & Hr_reqs)
  end.
  match goal with
  | |- context [fixPitr_step ?p ?t ?i ?f (mkWorld ?l ?r)] =>
      destruct (fixPitr_step_runs p t i f l r)
        as (f3 & l4 & new_pitr & -> & Hp_mfa & Hp_rls & Hp_needed & Hp_skip & Hp_reqs)
  end.
  unfold_monad. rewrite <- !(app_assoc reqs).
  do 3 eexists. split; [reflexivity|].
  simpl in *. rewrite <- (app_assoc reqs) in Hr_done.
  apply (fix_run_intro _ _ _ _ _ _ st new_mfa new_rls new_pitr); simpl; auto.
  - rewrite <- !app_assoc. reflexivity.
  - rewrite Hp_mfa, Hr_mfa, Hm_needed. reflexivity.
  - rewrite Hp_rls, Hr_needed, Hm_rls. reflexivity.
  - rewrite Hp_needed, Hr_pitr, Hm_pitr. reflexivity.
  - rewrite Hp_mfa, Hr_mfa. intros Hn. rewrite Hm_needed in Hn. simpl in Hn.
    destruct (Hm_skip Hn) as [-> ->]. split; reflexivity.
  - rewrite Hp_rls. intros Hn. rewrite Hr_needed, Hm_rls in Hn. simpl in Hn.
    rewrite Hm_rls in Hr_skip. simpl in Hr_skip.
    destruct (Hr_skip Hn) as [-> ->]. rewrite Hm_rls. simpl. auto.
  - rewrite Hp_rls. intros Hn. rewrite Hr_needed, Hm_rls in Hn. simpl in Hn.
    rewrite Hm_rls in Hr_done. simpl in Hr_done. exact (Hr_done Hn).
  - intros Hn. rewrite Hp_needed, Hr_pitr, Hm_pitr in Hn. simpl in Hn.
    rewrite Hr_pitr, Hm_pitr in Hp_skip. simpl in Hp_skip.
    destruct (Hp_skip Hn) as [-> ->]. rewrite Hr_pitr, Hm_pitr. simpl. auto.
Qed.

(** ** Telling the requests apart *)

Lemma fold_left_extends (tables : list TableRef) (acc : string) :
  exists rest,
    fold_left (fun query t => query ++ alter_table_sql t ++ newline)%string tables acc
    = (acc ++ rest)%string.
Proof.
  revert acc. induction tables as [|tb tbs IH]; intros acc; cbn [fold_left].
  - exists EmptyString. clear. induction acc; simpl; congruence.
  - destruct (IH (acc ++ alter_table_sql tb ++ newline)%string) as [rest ->].
    exists ((alter_table_sql tb ++ newline) ++ rest)%string.
    generalize (alter_table_sql tb ++ newline)%string. clear.
    intros mid. induction acc; simpl; [reflexivity | congruence].
Qed.

Lemma batch_sql_head tables : head_char (batch_sql tables) = Some "B"%char.
Proof.
  unfold batch_sql.
  destruct (fold_left_extends tables ("BEGIN;" ++ newline)%string) as [rest ->].
  reflexivity.
Qed.

Lemma alter_table_sql_head tb : head_char (alter_table_sql tb) = Some "A"%char.
Proof. reflexivity. Qed.

Lemma query_request_sql p t q p' t' q' :
  query_request p t q = query_request p' t' q' -> q = q'.
Proof. unfold query_request. intros H. now injection H. Qed.

Lemma rls_fix_request_head projectRef token p t q :
  rls_fix_request projectRef token (query_request p t q) ->
  head_char q = Some "B"%char \/ head_char q = Some "A"%char.
Proof.
  intros [[tables H] | [tb H]]; apply query_request_sql in H; subst q.
  - left. apply batch_sql_head.
  - right. apply alter_table_sql_head.
Qed.

Lemma status_requests_fix_nothing projectRef token :
  Forall (fun r => ~ mfa_fix_request projectRef token r
                   /\ ~ rls_fix_request projectRef token r
                   /\ ~ pitr_fix_request projectRef token r)
         (status_requests projectRef token).
Proof.
  unfold status_requests. repeat constructor;
    try (intros H; discriminate H);
    try (intros [[tables H] | [tb H]]; discriminate H);
    try (intros [H | H]; discriminate H);
    try (intros H; apply rls_fix_request_head in H; destruct H as [H | H];
         discriminate H).
Qed.

Lemma mfa_fix_is_no_other_fix projectRef token r :
  mfa_fix_request projectRef token r ->
  ~ rls_fix_request projectRef token r /\ ~ pitr_fix_request projectRef token r.
Proof.
  intros ->. split.
  - intros [[tables H] | [tb H]]; discriminate H.
  - intros [H | H]; [discriminate H|].
    unfold patch_request in H. injection H as _ H. discriminate H.
Qed.

Lemma rls_fix_is_no_other_fix projectRef token r :
  rls_fix_request projectRef token r ->
  ~ mfa_fix_request projectRef token r /\ ~ pitr_fix_request projectRef token r.
Proof.
  intros Hr. split.
  - intros ->. destruct Hr as [[tables H] | [tb H]]; discriminate H.
  - intros [-> | ->].
    + apply rls_fix_request_head in Hr. destruct Hr as [H | H]; discriminate H.
    + destruct Hr as [[tables H] | [tb H]]; discriminate H.
Qed.

Lemma pitr_fix_is_no_other_fix projectRef token r :
  pitr_fix_request projectRef token r ->
  ~ mfa_fix_request projectRef token r /\ ~ rls_fix_request projectRef token r.
Proof.
  intros Hp. split; intros Hother.
  - apply mfa_fix_is_no_other_fix in Hother. tauto.
  - apply rls_fix_is_no_other_fix in Hother. tauto.
Qed.

Lemma no_success_among_some {A} (f : A -> bool) (l : list A) :
  l <> [] -> existsb f l = false -> forallb f l = false.
Proof.
  destruct l as [|x rest]; [congruence|]. simpl. intros _ H.
  apply orb_false_iff in H. destruct H as [-> _]. reflexivity.
Qed.

Lemma needed_truthy (b : bool) (opt : JSValue) :
  truthy (js_and (JBool b) opt) = true -> b = true.
Proof. unfold js_and. destruct b; simpl; congruence. Qed.

(** ** The fix handler *)

(** C9: in a fix call where the status probe of a category throws during
    planning (the auth config fetch for MFA, the missing-tables query for
    RLS, the backups fetch for PITR), [needed] of that category is [false]:
    the category is reported ['no_action_needed'], nothing is applied and
    no remediation request is sent for it. *)
Theorem complianceFix_probe_failure_means_no_action projectRef token reqBody w :
  nullish reqBody = false ->
  exists result w' new,
    complianceFix projectRef token reqBody w = (Return (Json200 result), w')
    /\ requests w' = requests w ++ new
    /\ (forall e,
          remote (requests w) (get_request (authConfigUrl projectRef) token)
            = Throw e ->
          needed (fix_mfa (fix_details result)) = JBool false
          /\ applied (fix_mfa (fix_details result)) = false
          /\ label_mfa (fix_summary result) = "no_action_needed"
          /\ Forall (fun r => ~ mfa_fix_request projectRef token r) new)
    /\ (forall e,
          remote (requests w ++ [get_request (authConfigUrl projectRef) token])
                 (query_request projectRef token rls_missing_tables_query_sql)
            = Throw e ->
          rls_needed (fix_rls (fix_details result)) = JBool false
          /\ rls_applied (fix_rls (fix_details result)) = false
          /\ label_rls (fix_summary result) = "no_action_needed"
          /\ Forall (fun r => ~ rls_fix_request projectRef token r) new)
    /\ (forall e,
          remote (requests w ++
                    [get_request (authConfigUrl projectRef) token;
                     query_request projectRef token rls_missing_tables_query_sql])
                 (get_request (backupsUrl projectRef) token) = Throw e ->
          needed (fix_pitr (fix_details result)) = JBool false
          /\ applied (fix_pitr (fix_details result)) = false
          /\ label_pitr (fix_summary result) = "no_action_needed"
          /\ Forall (fun r => ~ pitr_fix_request projectRef token r) new).
Proof.
  destruct w as [logs reqs]. simpl. intros Hbody.
  destruct (complianceFix_runs projectRef token reqBody logs reqs Hbody)
    as (result & logs' & new & Hrun & Hfix).
  exists result, (mkWorld logs' (reqs ++ new)), new.
  split; [exact Hrun|]. split; [reflexivity|].
  destruct Hfix as [st new_mfa new_rls new_pitr fixes tables
    -> Hsum Hsm Hsr Hsp _ Hnm Hnr Hnp Hm_skip Hm_reqs Hr_skip _ Hr_reqs
    Hp_skip Hp_reqs].
  subst fixes.
  pose proof (status_requests_fix_nothing projectRef token) as Hstatus.
  rewrite Hsum. unfold summary_of_fixes, category_label, rls_label.
  cbn [label_mfa label_rls label_pitr].
  split; [|split].
  - intros e He. rewrite (Hsm e He) in Hnm. unfold js_and in Hnm.
    simpl in Hnm. rewrite Hnm in Hm_skip. destruct (Hm_skip eq_refl) as [Ha ->].
    split; [exact Hnm|]. split; [exact Ha|].
    split; [rewrite Hnm; reflexivity|].
    apply Forall_app; split.
    { eapply Forall_impl; [|exact Hstatus]. simpl. tauto. }
    apply Forall_app; split; [constructor|].
    apply Forall_app; split.
    + eapply Forall_impl; [|exact Hr_reqs].
      intros r Hr. apply rls_fix_is_no_other_fix in Hr. tauto.
    + eapply Forall_impl; [|exact Hp_reqs].
      intros r Hr. apply pitr_fix_is_no_other_fix in Hr. tauto.
  - intros e He. rewrite (Hsr e He) in Hnr. unfold js_and in Hnr.
    simpl in Hnr. rewrite Hnr in Hr_skip.
    destruct (Hr_skip eq_refl) as (Ha & _ & ->).
    split; [exact Hnr|]. split; [exact Ha|].
    split; [rewrite Hnr; reflexivity|].
    apply Forall_app; split.
    { eapply Forall_impl; [|exact Hstatus]. simpl. tauto. }
    apply Forall_app; split.
    + eapply Forall_impl; [|exact Hm_reqs].
      intros r Hr. apply mfa_fix_is_no_other_fix in Hr. tauto.
    + apply Forall_app; split; [constructor|].
      eapply Forall_impl; [|exact Hp_reqs].
      intros r Hr. apply pitr_fix_is_no_other_fix in Hr. tauto.
  - intros e He. rewrite (Hsp e He) in Hnp. unfold js_and in Hnp.
    simpl in Hnp. rewrite Hnp in Hp_skip. destruct (Hp_skip eq_refl) as [Ha ->].
    split; [exact Hnp|]. split; [exact Ha|].
    split; [rewrite Hnp; reflexivity|].
    apply Forall_app; split.
    { eapply Forall_impl; [|exact Hstatus]. simpl. tauto. }
    apply Forall_app; split.
    + eapply Forall_impl; [|exact Hm_reqs].
      intros r Hr. apply mfa_fix_is_no_other_fix in Hr. tauto.
    + apply Forall_app; split; [|constructor].
      eapply Forall_impl; [|exact Hr_reqs].
      intros r Hr. apply rls_fix_is_no_other_fix in Hr. tauto.
Qed.

(** C10: when the MFA checker or the RLS checker fails as a whole, its
    summary has [failing = 0], so the failure alone does not make
    [overallStatus] ['fail']: a report whose MFA (or RLS) payload carries an
    error has [overallStatus] ['pass'] as soon as the other of the two has
    no failing unit and PITR passes.  A failed PITR probe gives ['fail']. *)
Theorem complianceCheck_errored_probe projectRef token w :
  exists report w',
    complianceCheck projectRef token w = (Return (Json200 report), w')
    /\ (mfa_error (report_mfa report) <> None ->
        failing (summary_mfa (report_summary report)) = 0
        /\ (failing (summary_rls (report_summary report)) = 0 ->
            pitr_status (report_pitr report) = "pass" ->
            overallStatus (report_summary report) = "pass"))
    /\ (rls_check_error (report_rls report) <> None ->
        failing (summary_rls (report_summary report)) = 0
        /\ (failing (summary_mfa (report_summary report)) = 0 ->
            pitr_status (report_pitr report) = "pass" ->
            overallStatus (report_summary report) = "pass"))
    /\ (pitr_error (report_pitr report) <> None ->
        overallStatus (report_summary report) = "fail").
Proof.
  destruct (complianceCheck_runs projectRef token w)
    as (report & w' & Hrun & Hsum & (sm & Hm & _ & Hmz) & (sr & Hr & _ & Hrz)
        & Hpitr).
  exists report, w'. split; [exact Hrun|].
  rewrite Hsum. unfold report_summary_of. simpl. rewrite Hm, Hr. simpl.
  split; [|split].
  - intros He. rewrite (Hmz He). simpl. split; [reflexivity|].
    intros -> ->. reflexivity.
  - intros He. rewrite (Hrz He). simpl. split; [reflexivity|].
    intros -> ->. reflexivity.
  - intros He. destruct Hpitr as [[Hnone _] | (_ & -> & _)]; [contradiction|].
    simpl. rewrite andb_false_r. reflexivity.
Qed.

(** ** Effects of the handlers *)

Section Effects.

Variable P : EvidenceRecord -> Prop.
Variable Q : Request -> Prop.

Lemma effects_ret {A} (a : A) : effects P Q (ret a).
Proof.
  intros w. exists [], []. rewrite !app_nil_r. destruct w; auto.
Qed.

Lemma effects_throw {A} (e : JSError) : effects P Q (@throw A e).
Proof.
  intros w. exists [], []. rewrite !app_nil_r. destruct w; auto.
Qed.

Lemma effects_lift {A} (o : Outcome A) : effects P Q (lift o).
Proof.
  intros w. exists [], []. rewrite !app_nil_r. destruct w; auto.
Qed.

Lemma effects_log act st det pr :
  P (mkEvidence act st det pr) -> effects P Q (logEvidence act st det pr).
Proof.
  intros H w. exists [mkEvidence act st det pr], []. rewrite app_nil_r.
  simpl. auto.
Qed.

Lemma effects_axios m u t payload :
  Q (mkRequest m u t payload) -> effects P Q (axios m u t payload).
Proof.
  intros H w. exists [], [mkRequest m u t payload]. rewrite app_nil_r.
  simpl. auto.
Qed.

Lemma effects_bind {A B} (m : M A) (k : A -> M B) :
  effects P Q m -> (forall a, effects P Q (k a)) -> effects P Q (bind m k).
Proof.
  intros Hm Hk w. unfold bind.
  destruct (Hm w) as (l1 & r1 & H1 & Hl1 & Hr1).
  destruct (m w) as [[e|a] w1]; simpl in H1; subst w1.
  - exists l1, r1. auto.
  - destruct (Hk a (mkWorld (evidenceLogs w ++ l1) (requests w ++ r1)))
      as (l2 & r2 & H2 & Hl2 & Hr2).
    exists (l1 ++ l2), (r1 ++ r2). rewrite H2. simpl. rewrite !app_assoc.
    split; [reflexivity|]. split; apply Forall_app; auto.
Qed.

Lemma effects_try {A} (m : M A) (h : JSError -> M A) :
  effects P Q m -> (forall e, effects P Q (h e)) -> effects P Q (try_catch m h).
Proof.
  intros Hm Hh w. unfold try_catch.
  destruct (Hm w) as (l1 & r1 & H1 & Hl1 & Hr1).
  destruct (m w) as [[e|a] w1]; simpl in H1; subst w1.
  - destruct (Hh e (mkWorld (evidenceLogs w ++ l1) (requests w ++ r1)))
      as (l2 & r2 & H2 & Hl2 & Hr2).
    exists (l1 ++ l2), (r1 ++ r2). rewrite H2. simpl. rewrite !app_assoc.
    split; [reflexivity|]. split; apply Forall_app; auto.
  - exists l1, r1. auto.
Qed.

Lemma effects_for_each {A B} (f : A -> M B) (l : list A) :
  (forall x, effects P Q (f x)) -> effects P Q (for_each f l).
Proof.
  intros Hf. induction l as [|x rest IH]; simpl.
  - apply effects_ret.
  - apply effects_bind; [apply Hf|]. intros y.
    apply effects_bind; [exact IH|]. intros ys. apply effects_ret.
Qed.

End Effects.

(** Goes through a handler along its structure. *)
Ltac effects_step :=
  first
    [ apply effects_ret
    | apply effects_throw
    | apply effects_lift
    | apply effects_bind
    | apply effects_try
    | apply effects_for_each
    | apply effects_log
    | apply effects_axios ].

Lemma executeQuery_effects P Q projectRef token query queryName :
  (forall act st det, P (mkEvidence act st det (Some projectRef))) ->
  Q (query_request projectRef token query) ->
  effects P Q (executeQuery projectRef token query queryName).
Proof.
  intros HP HQ. unfold executeQuery.
  repeat (effects_step; intros); auto.
Qed.

Create HintDb effects.

Ltac effects_side :=
  try solve [ reflexivity
            | split; [reflexivity | simpl; tauto]
            | intros; reflexivity ].

Ltac effects_go :=
  cbv zeta;
  repeat first
    [ effects_step
    | solve [auto with effects]
    | progress intros
    | progress cbv zeta
    | match goal with
      | |- effects _ _ (if ?c then _ else _) => destruct c
      end ];
  effects_side.

Section HandlerEffects.

Variables projectRef token : string.

Let P := tagged projectRef.
Let Q := project_request projectRef token.

Lemma executeQuery_tagged query queryName :
  effects P Q (executeQuery projectRef token query queryName).
Proof.
  apply executeQuery_effects; [reflexivity|].
  split; [reflexivity | simpl; tauto].
Qed.
Hint Resolve executeQuery_tagged : effects.

Lemma mfaUsers_effects mfaCheckId :
  effects P Q (mfaUsers projectRef token mfaCheckId).
Proof. unfold mfaUsers. effects_go. Qed.
Hint Resolve mfaUsers_effects : effects.

Lemma mfaCheck_effects checkId : effects P Q (mfaCheck projectRef token checkId).
Proof. unfold mfaCheck. effects_go. Qed.

Lemma rlsCheck_effects checkId : effects P Q (rlsCheck projectRef token checkId).
Proof. unfold rlsCheck. effects_go. Qed.

Lemma pitrCheck_effects checkId : effects P Q (pitrCheck projectRef token checkId).
Proof. unfold pitrCheck. effects_go. Qed.
Hint Resolve mfaCheck_effects rlsCheck_effects pitrCheck_effects : effects.

Lemma complianceCheck_effects : effects P Q (complianceCheck projectRef token).
Proof. unfold complianceCheck. effects_go. Qed.

Lemma mfaStatus_effects i : effects P Q (mfaStatus projectRef token i).
Proof. unfold mfaStatus. effects_go. Qed.

Lemma rlsStatus_effects i : effects P Q (rlsStatus projectRef token i).
Proof. unfold rlsStatus. effects_go. Qed.

Lemma pitrStatus_effects i : effects P Q (pitrStatus projectRef token i).
Proof. unfold pitrStatus. effects_go. Qed.
Hint Resolve mfaStatus_effects rlsStatus_effects pitrStatus_effects : effects.

Lemma complianceStatus_effects i : effects P Q (complianceStatus projectRef token i).
Proof. unfold complianceStatus. effects_go. Qed.

Lemma fixMfa_step_effects i fixes : effects P Q (fixMfa_step projectRef token i fixes).
Proof. unfold fixMfa_step. effects_go. Qed.

Lemma fixTable_effects i tb : effects P Q (fixTable projectRef token i tb).
Proof. unfold fixTable. effects_go. Qed.
Hint Resolve fixTable_effects : effects.

Lemma rlsFallback_effects i tables err fixes :
  effects P Q (rlsFallback projectRef token i tables err fixes).
Proof. unfold rlsFallback. effects_go. Qed.
Hint Resolve rlsFallback_effects : effects.

Lemma fixRls_step_effects i tables fixes :
  effects P Q (fixRls_step projectRef token i tables fixes).
Proof. unfold fixRls_step. effects_go. Qed.

Lemma fixPitr_step_effects i fixes :
  effects P Q (fixPitr_step projectRef token i fixes).
Proof. unfold fixPitr_step. effects_go. Qed.
Hint Resolve complianceStatus_effects fixMfa_step_effects fixRls_step_effects
  fixPitr_step_effects : effects.

Lemma complianceFix_effects reqBody :
  effects P Q (complianceFix projectRef token reqBody).
Proof. unfold complianceFix. effects_go. Qed.

End HandlerEffects.

Lemma getProjectLogs_app projectRef logs new reqs reqs' :
  getProjectLogs projectRef (mkWorld (logs ++ new) reqs') =
  getProjectLogs projectRef (mkWorld logs reqs)
    ++ getProjectLogs projectRef (mkWorld new reqs).
Proof. unfold getProjectLogs. simpl. apply filter_app. Qed.

Lemma getProjectLogs_other projectRef other new reqs :
  other <> projectRef -> Forall (tagged projectRef) new ->
  getProjectLogs other (mkWorld new reqs) = [].
Proof.
  intros Hne H. unfold getProjectLogs. simpl.
  induction H as [|e rest He _ IH]; simpl; [reflexivity|].
  rewrite He. destruct (String.eqb_spec projectRef other); [congruence | exact IH].
Qed.

Lemma getProjectLogs_own projectRef new reqs :
  Forall (tagged projectRef) new ->
  getProjectLogs projectRef (mkWorld new reqs) = new.
Proof.
  intros H. unfold getProjectLogs. simpl.
  induction H as [|e rest He _ IH]; simpl; [reflexivity|].
  rewrite He, String.eqb_refl, IH. reflexivity.
Qed.

Lemma effects_keep_to_project projectRef token {A} (m : M A) :
  effects (tagged projectRef) (project_request projectRef token) m ->
  keeps_to_project projectRef token m.
Proof.
  intros He w. destruct (He w) as (logs & reqs & Hw & Hl & Hr).
  exists logs, reqs. rewrite Hw. destruct w as [l0 r0]. simpl.
  repeat split; auto.
  - rewrite (getProjectLogs_app projectRef l0 logs r0).
    rewrite (getProjectLogs_own projectRef logs r0 Hl). reflexivity.
  - intros other Hne.
    rewrite (getProjectLogs_app other l0 logs r0).
    rewrite (getProjectLogs_other projectRef other logs r0 Hne Hl).
    apply app_nil_r.
Qed.

(** X1: the check handler and the fix handler only append to the
    in-memory evidence log, every record they append carries the project
    of the call, and every request they send goes to one of the three
    endpoints of that project with the caller's token.  So
    [getProjectLogs] of the project grows by exactly the new records and
    [getProjectLogs] of any other project is unchanged. *)
Theorem handlers_keep_to_their_project projectRef token :
  keeps_to_project projectRef token (complianceCheck projectRef token)
  /\ (forall reqBody,
        keeps_to_project projectRef token (complianceFix projectRef token reqBody)).
Proof.
  split; [|intros reqBody]; apply effects_keep_to_project.
  - apply complianceCheck_effects.
  - apply complianceFix_effects.
Qed.

(** ** The checkers, in full *)

Lemma map_throwing_throws {A B} (f : A -> Outcome B) l :
  Exists (fun x => returns (f x) = false) l ->
  returns (map_throwing f l) = false.
Proof.
  induction 1 as [x rest Hx | x rest _ IH]; simpl.
  - destruct (f x); [reflexivity | discriminate].
  - destruct (f x); [reflexivity|].
    destruct (map_throwing f rest); [reflexivity | discriminate].
Qed.

Lemma mfaUsers_trace projectRef token mfaCheckId logs reqs :
  exists logs',
    mfaUsers projectRef token mfaCheckId (mkWorld logs reqs) =
      (Return (mfa_users_of
                 (remote reqs (query_request projectRef token mfa_user_query_sql))),
       mkWorld (logs ++ logs')
               (reqs ++ [query_request projectRef token mfa_user_query_sql]))
    /\ (returns (map_throwing mfa_user_of_row
                   (match remote reqs
                            (query_request projectRef token mfa_user_query_sql) with
                    | Return data => normalizeRows data
                    | Throw _ => [JNull]
                    end)) = false ->
        exists det,
          In (mkEvidence "mfa_user_query_failure" "warning" det (Some projectRef))
             logs').
Proof.
  unfold mfaUsers, try_catch, bind. run_query e data H.
  - unfold_monad. rewrite <- app_assoc. eexists. split; [reflexivity|].
    intros _. eexists. simpl. auto.
  - unfold lift, mfa_users_of.
    destruct (map_throwing mfa_user_of_row (normalizeRows data)) as [e|users] eqn:Hm.
    + unfold_monad. rewrite <- app_assoc. eexists. split; [reflexivity|].
      intros _. eexists. simpl. auto.
    + unfold_monad. rewrite <- app_assoc. eexists. split; [reflexivity|].
      discriminate.
Qed.

Lemma mfaCheck_trace projectRef token checkId logs reqs :
  exists logs',
    mfaCheck projectRef token checkId (mkWorld logs reqs) =
      (Return
         (match remote reqs (get_request (authConfigUrl projectRef) token) with
          | Throw e => mfa_failed (message e)
          | Return authConfig =>
              if nullish authConfig
              then mfa_failed (message (type_error authConfig "sms_provider_auth_token"))
              else
                let users :=
                  mfa_users_of
                    (remote (reqs ++ [get_request (authConfigUrl projectRef) token])
                            (query_request projectRef token mfa_user_query_sql)) in
                mkMfaResult None (Some (mfaEnabled_of authConfig)) (Some users)
                            (Some (mfa_summary_of users))
                            (Some (evidence_id logs))
          end),
       mkWorld logs'
         (reqs ++ mfa_check_requests projectRef token
                    (remote reqs (get_request (authConfigUrl projectRef) token)))).
Proof.
  unfold mfaCheck, try_catch, bind, mfa_check_requests.
  unfold logEvidence at 1, axios at 1. simpl.
  fold (get_request (authConfigUrl projectRef) token).
  destruct (remote reqs _) as [e|authConfig].
  - unfold_monad. eexists. reflexivity.
  - unfold lift, masked_config, get_prop. destruct (nullish authConfig) eqn:Hn.
    + unfold_monad. eexists. reflexivity.
    + simpl.
      match goal with
      | |- context [mfaUsers ?p ?t ?i (mkWorld ?l ?r)] =>
          destruct (mfaUsers_trace p t i l r) as (l1 & -> & _)
      end.
      unfold_monad. rewrite <- (app_assoc reqs). eexists. reflexivity.
Qed.

Lemma rlsCheck_trace projectRef token checkId logs reqs :
  exists logs',
    rlsCheck projectRef token checkId (mkWorld logs reqs) =
      (Return
         (match remote reqs (query_request projectRef token rls_tables_query_sql) with
          | Throw e => rls_failed (message e)
          | Return data =>
              match map_throwing rls_table_of_row (normalizeRows data) with
              | Throw e => rls_failed (message e)
              | Return tables =>
                  mkRlsResult None (Some tables) (Some (rls_summary_of tables))
                              (Some (evidence_id logs))
              end
          end),
       mkWorld logs'
         (reqs ++ [query_request projectRef token rls_tables_query_sql])).
Proof.
  unfold rlsCheck, try_catch, bind. unfold logEvidence at 1. simpl.
  run_query e data H.
  - unfold_monad. eexists. reflexivity.
  - unfold lift.
    destruct (map_throwing rls_table_of_row (normalizeRows data)) as [e|tables];
      unfold_monad; eexists; reflexivity.
Qed.

Lemma pitrCheck_trace projectRef token checkId logs reqs :
  exists logs',
    pitrCheck projectRef token checkId (mkWorld logs reqs) =
      (Return
         (match remote reqs (get_request (backupsUrl projectRef) token) with
          | Throw e => pitr_failed (message e)
          | Return data =>
              let enabled := strictly_true (prop (js_or data (JObj [])) "pitr_enabled") in
              mkPitrResult None enabled (pitr_label enabled)
                           (Some (js_or data (JObj []))) (evidence_id logs)
          end),
       mkWorld logs' (reqs ++ [get_request (backupsUrl projectRef) token])).
Proof.
  unfold pitrCheck, try_catch, bind. unfold logEvidence at 1, axios at 1. simpl.
  fold (get_request (backupsUrl projectRef) token).
  destruct (remote reqs _) as [e|data]; unfold_monad; eexists; reflexivity.
Qed.

Lemma complianceCheck_trace projectRef token logs reqs :
  exists report logs',
    complianceCheck projectRef token (mkWorld logs reqs) =
      (Return (Json200 report),
       mkWorld logs'
         (reqs ++ mfa_check_requests projectRef token
                    (remote reqs (get_request (authConfigUrl projectRef) token))
               ++ [query_request projectRef token rls_tables_query_sql;
                   get_request (backupsUrl projectRef) token])).
Proof.
  unfold complianceCheck, try_catch, bind. unfold logEvidence at 1. simpl.
  match goal with
  | |- context [mfaCheck ?p ?t ?i (mkWorld ?l ?r)] =>
      destruct (mfaCheck_trace p t i l r) as (l1 & ->)
  end.
  match goal with
  | |- context [rlsCheck ?p ?t ?i (mkWorld ?l ?r)] =>
      destruct (rlsCheck_trace p t i l r) as (l2 & ->)
  end.
  match goal with
  | |- context [pitrCheck ?p ?t ?i (mkWorld ?l ?r)] =>
      destruct (pitrCheck_trace p t i l r) as (l3 & ->)
  end.
  unfold_monad. rewrite <- !(app_assoc reqs). rewrite <- app_assoc.
  do 2 eexists. reflexivity.
Qed.

(** X2: a compliance check is read-only and sends three or four
    requests, each one of: the auth config fetch, the user query, the
    tables query, the backups fetch.  The auth config fetch, the tables
    query and the backups fetch are always sent; the user query is not
    sent when the auth config cannot be fetched.  None of the requests
    is a PATCH. *)
Theorem complianceCheck_request_trace projectRef token w :
  exists sent,
    requests (snd (complianceCheck projectRef token w)) = requests w ++ sent
    /\ 3 <= List.length sent <= 4
    /\ Forall (fun r => method r <> PATCH) sent
    /\ Forall (fun r => In r (check_requests projectRef token)) sent
    /\ In (get_request (authConfigUrl projectRef) token) sent
    /\ In (query_request projectRef token rls_tables_query_sql) sent
    /\ In (get_request (backupsUrl projectRef) token) sent
    /\ ((forall h,
           returns (remote h (get_request (authConfigUrl projectRef) token))
             = false) ->
        ~ In (query_request projectRef token mfa_user_query_sql) sent).
Proof.
  destruct w as [logs reqs]. cbn [requests].
  destruct (complianceCheck_trace projectRef token logs reqs) as (report & l & ->).
  eexists. split; [reflexivity|].
  unfold mfa_check_requests, check_requests.
  destruct (remote reqs (get_request (authConfigUrl projectRef) token))
    as [e|cfg] eqn:Hauth; [|destruct (nullish cfg)]; cbn [app List.length];
    (split; [lia|]);
    (split; [repeat constructor; discriminate|]);
    (split; [repeat constructor; simpl; tauto|]);
    (split; [simpl; tauto|]); (split; [simpl; tauto|]); (split; [simpl; tauto|]).
  - intros _ [H | [H | [H | []]]]; discriminate H.
  - intros Hdown. specialize (Hdown reqs). rewrite Hauth in Hdown. discriminate.
  - intros Hdown. specialize (Hdown reqs). rewrite Hauth in Hdown. discriminate.
Qed.

(** X3: the RLS checker is all or nothing.  When its query fails, or when
    one row of the answer is [null], the result carries the error message,
    no table list and the zero summary: the tables that were read are
    dropped. *)
Theorem rlsCheck_all_or_nothing projectRef token checkId w :
  (forall e,
     remote (requests w) (query_request projectRef token rls_tables_query_sql)
       = Throw e ->
     fst (rlsCheck projectRef token checkId w) = Return (rls_failed (message e)))
  /\ (forall data,
        remote (requests w) (query_request projectRef token rls_tables_query_sql)
          = Return data ->
        Exists (fun row => nullish row = true) (normalizeRows data) ->
        exists msg,
          fst (rlsCheck projectRef token checkId w) = Return (rls_failed msg)).
Proof.
  destruct w as [logs reqs]. simpl.
  destruct (rlsCheck_trace projectRef token checkId logs reqs) as (l & ->).
  split.
  - intros e ->. reflexivity.
  - intros data -> Hnull. simpl.
    assert (Hthrow : returns (map_throwing rls_table_of_row (normalizeRows data))
                     = false).
    { apply map_throwing_throws. eapply Exists_impl; [|exact Hnull].
      intros row Hrow. unfold rls_table_of_row, get_prop. now rewrite Hrow. }
    destruct (map_throwing rls_table_of_row (normalizeRows data)) as [e|tables];
      [|discriminate].
    eexists. reflexivity.
Qed.



(** ** Check and fix on the same configuration *)

Lemma truthy_js_or a b : truthy (js_or a b) = truthy a || truthy b.
Proof. unfold js_or. destruct (truthy a) eqn:H; simpl; auto. Qed.

Lemma truthy_js_and a b : truthy (js_and a b) = truthy a && truthy b.
Proof. unfold js_and. destruct (truthy a) eqn:H; simpl; auto. Qed.

Lemma truthy_mfa_signals authConfig :
  truthy (mfa_signals authConfig) = mfa_sources authConfig.
Proof.
  unfold mfa_signals, mfa_sources.
  rewrite !truthy_js_or, truthy_js_and. reflexivity.
Qed.

Lemma truthy_mfaEnabled_of authConfig :
  truthy (mfaEnabled_of authConfig) = truthy authConfig && mfa_sources authConfig.
Proof.
  unfold mfaEnabled_of. rewrite <- truthy_mfa_signals.
  destruct (truthy authConfig) eqn:H; simpl; auto.
Qed.

Lemma mfaStatus_trace projectRef token statusCheckId logs reqs :
  exists logs',
    mfaStatus projectRef token statusCheckId (mkWorld logs reqs) =
      (Return
         (match remote reqs (get_request (authConfigUrl projectRef) token) with
          | Throw e => mkCategoryStatus false (Some (message e))
          | Return authConfig =>
              mkCategoryStatus (negb (truthy (mfaEnabled_of authConfig))) None
          end),
       mkWorld logs' (reqs ++ [get_request (authConfigUrl projectRef) token])).
Proof.
  unfold mfaStatus, try_catch, bind. unfold axios at 1. simpl.
  fold (get_request (authConfigUrl projectRef) token).
  destruct (remote reqs _) as [e|authConfig]; unfold_monad.
  - eexists. reflexivity.
  - rewrite truthy_mfaEnabled_of, truthy_mfa_signals, negb_andb.
    eexists. reflexivity.
Qed.

Lemma pitrStatus_trace projectRef token statusCheckId logs reqs :
  exists logs',
    pitrStatus projectRef token statusCheckId (mkWorld logs reqs) =
      (Return
         (match remote reqs (get_request (backupsUrl projectRef) token) with
          | Throw e => mkCategoryStatus false (Some (message e))
          | Return data =>
              mkCategoryStatus
                (negb (truthy (prop (js_or data (JObj [])) "pitr_enabled"))) None
          end),
       mkWorld logs' (reqs ++ [get_request (backupsUrl projectRef) token])).
Proof.
  unfold pitrStatus, try_catch, bind. unfold axios at 1. simpl.
  fold (get_request (backupsUrl projectRef) token).
  destruct (remote reqs _) as [e|data]; unfold_monad; eexists; reflexivity.
Qed.

(** X5: on the same auth config the MFA probe of the fix and the MFA
    checker agree: a fix is planned exactly when [mfaEnabledGlobally] of
    the check is falsy.  That flag is truthy when the config is truthy and
    one of three signals is set: an SMS provider other than ['NONE'],
    [mfa_enabled], or [external_mfa_enabled].  A [null] config makes the
    checker fail and the probe ask for a fix. *)
Theorem mfa_probe_agrees_with_check projectRef token id1 id2 w1 w2 authConfig :
  remote (requests w1) (get_request (authConfigUrl projectRef) token)
    = Return authConfig ->
  remote (requests w2) (get_request (authConfigUrl projectRef) token)
    = Return authConfig ->
  exists r st,
    fst (mfaCheck projectRef token id1 w1) = Return r
    /\ fst (mfaStatus projectRef token id2 w2) = Return st
    /\ needsFix st = negb (truthy (mfaEnabled_of authConfig))
    /\ truthy (mfaEnabled_of authConfig)
       = truthy authConfig && mfa_sources authConfig
    /\ (nullish authConfig = false ->
        mfaEnabledGlobally r = Some (mfaEnabled_of authConfig))
    /\ (nullish authConfig = true -> mfa_error r <> None /\ needsFix st = true).
Proof.
  destruct w1 as [l1 r1], w2 as [l2 r2]. simpl. intros H1 H2.
  destruct (mfaCheck_trace projectRef token id1 l1 r1) as (l1' & ->).
  destruct (mfaStatus_trace projectRef token id2 l2 r2) as (l2' & ->).
  rewrite H1, H2. simpl. do 2 eexists.
  split; [reflexivity|]. split; [reflexivity|]. simpl.
  split; [reflexivity|]. split; [apply truthy_mfaEnabled_of|].
  destruct (nullish authConfig) eqn:Hn; split; try discriminate; intros _.
  - split; [discriminate|].
    destruct authConfig; try discriminate; reflexivity.
  - reflexivity.
Qed.

(** X6: on the same backups configuration the PITR checker and the PITR
    probe of the fix can disagree.  The probe plans a fix exactly when
    [pitr_enabled] is falsy, the checker passes only on the boolean [true]:
    a passing check never leads to a fix, but a truthy value other than
    [true] fails the check and plans no fix. *)
Theorem pitr_probe_is_laxer_than_check projectRef token id1 id2 w1 w2 data :
  remote (requests w1) (get_request (backupsUrl projectRef) token) = Return data ->
  remote (requests w2) (get_request (backupsUrl projectRef) token) = Return data ->
  exists r st,
    fst (pitrCheck projectRef token id1 w1) = Return r
    /\ fst (pitrStatus projectRef token id2 w2) = Return st
    /\ needsFix st = negb (truthy (prop data "pitr_enabled"))
    /\ (pitr_status r = "pass" -> needsFix st = false)
    /\ (truthy (prop data "pitr_enabled") = true ->
        prop data "pitr_enabled" <> JBool true ->
        pitr_status r = "fail" /\ needsFix st = false).
Proof.
  destruct w1 as [l1 r1], w2 as [l2 r2]. simpl. intros H1 H2.
  destruct (pitrCheck_trace projectRef token id1 l1 r1) as (l1' & ->).
  destruct (pitrStatus_trace projectRef token id2 l2 r2) as (l2' & ->).
  rewrite H1, H2. cbv zeta. rewrite !prop_of_config. do 2 eexists.
  split; [reflexivity|]. split; [reflexivity|]. simpl.
  split; [reflexivity|].
  split.
  - destruct (prop data "pitr_enabled") as [| |[|]|n|str|items|fields]; simpl;
      intros Hpass; try discriminate Hpass; reflexivity.
  - intros Ht Hne.
    destruct (prop data "pitr_enabled") as [| |[|]|n|str|items|fields];
      simpl in *; try discriminate Ht; try (now elim Hne);
      try rewrite Ht; split; reflexivity.
Qed.


(** ** The fix steps, in full *)

Lemma fixMfa_step_skipped projectRef token fixId fixes w :
  truthy (needed (fix_mfa fixes)) = false ->
  fixMfa_step projectRef token fixId fixes w = (Return fixes, w).
Proof. intros H. unfold fixMfa_step. rewrite H. reflexivity. Qed.

Lemma fixMfa_step_outcome projectRef token fixId fixes logs reqs :
  truthy (needed (fix_mfa fixes)) = true ->
  exists logs',
    fixMfa_step projectRef token fixId fixes (mkWorld logs reqs) =
      (Return (set_mfa fixes
                 (mfa_fix_outcome (fix_mfa fixes)
                    (remote reqs (mfa_patch projectRef token)))),
       mkWorld logs' (reqs ++ [mfa_patch projectRef token])).
Proof.
  intros H. unfold fixMfa_step. rewrite H.
  unfold try_catch, bind. unfold logEvidence at 1 2, axios at 1. simpl.
  fold (patch_request (authConfigUrl projectRef) token mfa_update_payload).
  fold (mfa_patch projectRef token).
  destruct (remote reqs _) as [e|data]; unfold_monad; eexists; reflexivity.
Qed.

Lemma fixPitr_step_skipped projectRef token fixId fixes w :
  truthy (needed (fix_pitr fixes)) = false ->
  fixPitr_step projectRef token fixId fixes w = (Return fixes, w).
Proof. intros H. unfold fixPitr_step. rewrite H. reflexivity. Qed.

Lemma fixPitr_step_outcome projectRef token fixId fixes logs reqs :
  truthy (needed (fix_pitr fixes)) = true ->
  exists logs',
    fixPitr_step projectRef token fixId fixes (mkWorld logs reqs) =
      (Return (set_pitr fixes
                 (pitr_fix_outcome (fix_pitr fixes)
                    (remote reqs (pitr_sql_request projectRef token))
                    (remote (reqs ++ [pitr_sql_request projectRef token])
                            (pitr_patch projectRef token)))),
       mkWorld logs'
         (reqs ++ pitr_fix_requests projectRef token
                    (remote reqs (pitr_sql_request projectRef token)))).
Proof.
  intros H. unfold fixPitr_step, pitr_fix_requests, pitr_sql_request. rewrite H.
  unfold try_catch, bind. unfold logEvidence at 1 2. simpl.
  run_query e data Hq.
  - simpl.
    fold (patch_request (backupsUrl projectRef) token pitr_update_payload).
    fold (pitr_patch projectRef token).
    destruct (remote _ (pitr_patch _ _)) as [e'|data]; unfold_monad;
      rewrite <- (app_assoc reqs); eexists; reflexivity.
  - unfold_monad. eexists. reflexivity.
Qed.

Lemma fixRls_step_skipped projectRef token fixId tables fixes w :
  truthy (rls_needed (fix_rls fixes)) = false ->
  fixRls_step projectRef token fixId tables fixes w = (Return fixes, w).
Proof. intros H. unfold fixRls_step. rewrite H. reflexivity. Qed.

Lemma fixRls_step_batch_ok projectRef token fixId tables fixes logs reqs data :
  truthy (rls_needed (fix_rls fixes)) = true ->
  remote reqs (batch_request projectRef token tables) = Return data ->
  exists logs',
    fixRls_step projectRef token fixId tables fixes (mkWorld logs reqs) =
      (Return (set_rls fixes
                 (mkRlsFix (rls_needed (fix_rls fixes)) (tableCount (fix_rls fixes))
                    true true
                    (map (fun t => mkTableFix (qualified_name t) true None) tables)
                    (rls_error (fix_rls fixes)))),
       mkWorld logs' (reqs ++ [batch_request projectRef token tables])).
Proof.
  intros H Hb. unfold fixRls_step. rewrite H.
  unfold try_catch, bind. unfold logEvidence at 1 2. simpl.
  unfold batch_request in *.
  rewrite (executeQuery_returns _ _ _ _ _ _ _ Hb).
  unfold_monad. eexists. reflexivity.
Qed.

Lemma fixRls_step_fallback projectRef token fixId tables fixes logs reqs e :
  truthy (rls_needed (fix_rls fixes)) = true ->
  remote reqs (batch_request projectRef token tables) = Throw e ->
  exists logs' results,
    fixRls_step projectRef token fixId tables fixes (mkWorld logs reqs) =
      (Return (set_rls fixes
                 (mkRlsFix (rls_needed (fix_rls fixes)) (tableCount (fix_rls fixes))
                    true (forallb table_success results) results
                    (Some (message e)))),
       mkWorld logs'
         (reqs ++ batch_request projectRef token tables
               :: map (alter_request projectRef token) tables))
    /\ table_outcomes projectRef token
         (reqs ++ [batch_request projectRef token tables]) tables results.
Proof.
  intros H Hb. unfold fixRls_step. rewrite H.
  unfold try_catch, bind. unfold logEvidence at 1 2. simpl.
  unfold batch_request in *.
  rewrite (executeQuery_throws _ _ _ _ _ _ _ Hb). simpl.
  unfold rlsFallback, try_catch, bind. simpl.
  match goal with
  | |- context [for_each _ _ (mkWorld ?l ?r)] =>
      destruct (for_each_fixTable_runs projectRef token (evidence_id logs) tables l r)
        as (results & l1 & -> & Ho)
  end.
  unfold_monad. rewrite <- (app_assoc reqs). simpl.
  do 2 eexists. split; [reflexivity | exact Ho].
Qed.

Lemma table_outcomes_names projectRef token reqs tables results :
  table_outcomes projectRef token reqs tables results ->
  map fixed_table results = map qualified_name tables.
Proof. induction 1; simpl; congruence. Qed.

Lemma table_outcomes_nth projectRef token reqs tables results :
  table_outcomes projectRef token reqs tables results ->
  forall i tb,
    nth_error tables i = Some tb ->
    exists tf,
      nth_error results i = Some tf
      /\ table_success tf =
           returns (remote (reqs ++ map (alter_request projectRef token)
                                        (firstn i tables))
                           (alter_request projectRef token tb)).
Proof.
  induction 1 as [|reqs tb0 tbs tf tfs Hs Hn Ho IH]; intros i tb Hi.
  - destruct i; discriminate.
  - destruct i as [|i]; simpl in *.
    + injection Hi as <-. exists tf. rewrite app_nil_r. auto.
    + destruct (IH i tb Hi) as (tf' & Hnth & Hsucc).
      exists tf'. split; [exact Hnth|].
      rewrite Hsucc, <- app_assoc. reflexivity.
Qed.


(** ** The fix handler, step by step *)

Lemma names_and_refs_throw_alike rows :
  match map_throwing row_qualified_name rows, map_throwing table_ref_of_row rows with
  | Throw e1, Throw e2 => e1 = e2
  | Return _, Return _ => True
  | _, _ => False
  end.
Proof.
  induction rows as [|row rest IH]; simpl; [exact I|].
  destruct (nullish row) eqn:Hn.
  - unfold row_qualified_name, table_ref_of_row, get_prop. rewrite Hn. reflexivity.
  - assert (Hq : row_qualified_name row
                 = Return (toString (prop row "schemaname") ++ "."
                             ++ toString (prop row "tablename"))%string)
      by (unfold row_qualified_name, get_prop; rewrite Hn; reflexivity).
    assert (Hr : table_ref_of_row row
                 = Return (mkTableRef (prop row "schemaname") (prop row "tablename")))
      by (unfold table_ref_of_row, get_prop; rewrite Hn; reflexivity).
    rewrite Hq, Hr. revert IH.
    destruct (map_throwing row_qualified_name rest),
             (map_throwing table_ref_of_row rest); simpl; auto.
Qed.

Lemma rlsStatus_trace projectRef token statusCheckId logs reqs :
  exists logs',
    rlsStatus projectRef token statusCheckId (mkWorld logs reqs) =
      (Return (rls_status_of
                 (remote reqs
                    (query_request projectRef token rls_missing_tables_query_sql))),
       mkWorld logs'
         (reqs ++ [query_request projectRef token rls_missing_tables_query_sql])).
Proof.
  unfold rlsStatus, try_catch, bind, rls_status_of. run_query e data H.
  - unfold_monad. eexists. reflexivity.
  - unfold lift.
    pose proof (names_and_refs_throw_alike (normalizeRows data)) as Hboth.
    destruct (map_throwing row_qualified_name (normalizeRows data)) as [e1|names],
             (map_throwing table_ref_of_row (normalizeRows data)) as [e2|refs];
      try contradiction.
    + subst e2. unfold_monad. eexists. reflexivity.
    + unfold_monad. eexists. reflexivity.
Qed.

Lemma complianceStatus_trace projectRef token fixId logs reqs :
  exists logs',
    complianceStatus projectRef token fixId (mkWorld logs reqs) =
      (Return (planned_status projectRef token reqs),
       mkWorld logs' (reqs ++ status_requests projectRef token)).
Proof.
  unfold complianceStatus, try_catch, bind, planned_status.
  unfold logEvidence at 1. simpl.
  match goal with
  | |- context [mfaStatus ?p ?t ?i (mkWorld ?l ?r)] =>
      destruct (mfaStatus_trace p t i l r) as (l1 & ->)
  end.
  match goal with
  | |- context [rlsStatus ?p ?t ?i (mkWorld ?l ?r)] =>
      destruct (rlsStatus_trace p t i l r) as (l2 & ->)
  end.
  match goal with
  | |- context [pitrStatus ?p ?t ?i (mkWorld ?l ?r)] =>
      destruct (pitrStatus_trace p t i l r) as (l3 & ->)
  end.
  unfold_monad. rewrite <- !(app_assoc reqs). simpl.
  eexists. reflexivity.
Qed.

Lemma fixMfa_step_trace projectRef token fixId fixes logs reqs :
  exists logs',
    fixMfa_step projectRef token fixId fixes (mkWorld logs reqs) =
      (Return (mfa_step_result projectRef token fixes reqs),
       mkWorld logs' (reqs ++ mfa_step_requests projectRef token fixes)).
Proof.
  unfold mfa_step_result, mfa_step_requests.
  destruct (truthy (needed (fix_mfa fixes))) eqn:H.
  - apply fixMfa_step_outcome. exact H.
  - rewrite (fixMfa_step_skipped _ _ _ _ _ H), app_nil_r. eexists. reflexivity.
Qed.

Lemma fixPitr_step_trace projectRef token fixId fixes logs reqs :
  exists logs',
    fixPitr_step projectRef token fixId fixes (mkWorld logs reqs) =
      (Return (pitr_step_result projectRef token fixes reqs),
       mkWorld logs' (reqs ++ pitr_step_requests projectRef token fixes reqs)).
Proof.
  unfold pitr_step_result, pitr_step_requests.
  destruct (truthy (needed (fix_pitr fixes))) eqn:H.
  - apply fixPitr_step_outcome. exact H.
  - rewrite (fixPitr_step_skipped _ _ _ _ _ H), app_nil_r. eexists. reflexivity.
Qed.

Lemma fixRls_step_trace projectRef token fixId tables fixes logs reqs :
  exists f' logs',
    fixRls_step projectRef token fixId tables fixes (mkWorld logs reqs) =
      (Return f',
       mkWorld logs' (reqs ++ rls_step_requests projectRef token tables fixes reqs))
    /\ fix_mfa f' = fix_mfa fixes
    /\ fix_pitr f' = fix_pitr fixes
    /\ rls_needed (fix_rls f') = rls_needed (fix_rls fixes)
    /\ tableCount (fix_rls f') = tableCount (fix_rls fixes)
    /\ (truthy (rls_needed (fix_rls fixes)) = false -> f' = fixes)
    /\ (truthy (rls_needed (fix_rls fixes)) = true ->
        rls_applied (fix_rls f') = true
        /\ rls_success (fix_rls f') = forallb table_success (rls_tables (fix_rls f'))
        /\ (returns (remote reqs (batch_request projectRef token tables)) = true ->
            rls_tables (fix_rls f')
              = map (fun t => mkTableFix (qualified_name t) true None) tables
            /\ rls_error (fix_rls f') = rls_error (fix_rls fixes))
        /\ (forall e,
              remote reqs (batch_request projectRef token tables) = Throw e ->
              rls_error (fix_rls f') = Some (message e)
              /\ table_outcomes projectRef token
                   (reqs ++ [batch_request projectRef token tables]) tables
                   (rls_tables (fix_rls f')))).
Proof.
  unfold rls_step_requests.
  destruct (truthy (rls_needed (fix_rls fixes))) eqn:H.
  - destruct (remote reqs (batch_request projectRef token tables)) as [e|data] eqn:Hb.
    + destruct (fixRls_step_fallback projectRef token fixId tables fixes logs reqs
                  e H Hb) as (l' & results & -> & Ho).
      do 2 eexists. split; [reflexivity|]. simpl.
      do 4 (split; [reflexivity|]). split; [discriminate|].
      intros _. do 2 (split; [reflexivity|]). split; [discriminate|].
      intros e' He'. injection He' as <-. split; [reflexivity | exact Ho].
    + destruct (fixRls_step_batch_ok projectRef token fixId tables fixes logs reqs
                  data H Hb) as (l' & ->).
      do 2 eexists. split; [reflexivity|]. simpl.
      do 4 (split; [reflexivity|]). split; [discriminate|].
      intros _. split; [reflexivity|].
      split; [symmetry; apply all_marked_fixed|].
      split; [intros _; split; reflexivity|].
      intros e' He'. discriminate.
  - rewrite (fixRls_step_skipped _ _ _ _ _ _ H), app_nil_r.
    do 2 eexists. split; [reflexivity|]. repeat split; auto; discriminate.
Qed.

(** The handler as the sequence of its steps. *)
Lemma complianceFix_pipeline projectRef token reqBody logs reqs :
  nullish reqBody = false ->
  let f0 := planned_fixes projectRef token reqBody reqs in
  let h1 := reqs ++ status_requests projectRef token in
  let h2 := history_before_rls projectRef token reqBody reqs in
  let h3 := history_before_pitr projectRef token reqBody reqs in
  let f1 := mfa_step_result projectRef token f0 h1 in
  exists fixId l1 f2 l2 l3,
    fixRls_step projectRef token fixId (planned_tables projectRef token reqs) f1
      (mkWorld l1 h2) = (Return f2, mkWorld l2 h3)
    /\ complianceFix projectRef token reqBody (mkWorld logs reqs) =
         (Return (Json200
                    (mkFixResult projectRef fixId
                       (summary_of_fixes (pitr_step_result projectRef token f2 h3))
                       (pitr_step_result projectRef token f2 h3))),
          mkWorld (l3 ++ [fix_completed_entry projectRef fixId
                            (pitr_step_result projectRef token f2 h3)])
                  (h3 ++ pitr_step_requests projectRef token f2 h3)).
Proof.
  intros Hbody f0 h1 h2 h3 f1. subst f0 h1 h2 h3 f1.
  unfold complianceFix, try_catch, bind, lift, destructure_or_true.
  rewrite Hbody. unfold logEvidence at 1. simpl.
  fold (fix_option reqBody "fixMfa") (fix_option reqBody "fixRls")
       (fix_option reqBody "fixPitr").
  match goal with
  | |- context [complianceStatus ?p ?t ?i (mkWorld ?l ?r)] =>
      destruct (complianceStatus_trace p t i l r) as (lst & ->)
  end.
  simpl.
  change (plan (planned_status projectRef token reqs) (fix_option reqBody "fixMfa")
            (fix_option reqBody "fixRls") (fix_option reqBody "fixPitr"))
    with (planned_fixes projectRef token reqBody reqs).
  change (rls_status_tables (status_rls (planned_status projectRef token reqs)))
    with (planned_tables projectRef token reqs).
  match goal with
  | |- context [fixMfa_step ?p ?t ?i ?f (mkWorld ?l ?r)] =>
      destruct (fixMfa_step_trace p t i f l r) as (l1 & ->)
  end.
  change ((reqs ++ status_requests projectRef token)
            ++ mfa_step_requests projectRef token
                 (planned_fixes projectRef token reqBody reqs))
    with (history_before_rls projectRef token reqBody reqs).
  match goal with
  | |- context [fixRls_step ?p ?t ?i ?tb ?f (mkWorld ?l ?r)] =>
      destruct (fixRls_step_trace p t i tb f l r) as (f2 & l2 & Hr & _)
  end.
  change (rls_status_tables
            (rls_status_of
               (remote (reqs ++ [get_request (authConfigUrl projectRef) token])
                  (query_request projectRef token rls_missing_tables_query_sql))))
    with (planned_tables projectRef token reqs) in *.
  assert (Hh3 : history_before_rls projectRef token reqBody reqs
                  ++ rls_step_requests projectRef token
                       (planned_tables projectRef token reqs)
                       (mfa_step_result projectRef token
                          (planned_fixes projectRef token reqBody reqs)
                          (reqs ++ status_requests projectRef token))
                       (history_before_rls projectRef token reqBody reqs)
                = history_before_pitr projectRef token reqBody reqs).
  { unfold history_before_pitr. f_equal.
    unfold rls_step_requests, mfa_step_result.
    destruct (truthy (needed (fix_mfa (planned_fixes projectRef token reqBody reqs))));
      reflexivity. }
  rewrite Hh3 in Hr. rewrite Hr.
  match goal with
  | |- context [fixPitr_step ?p ?t ?i ?f (mkWorld ?l ?r)] =>
      destruct (fixPitr_step_trace p t i f l r) as (l3 & ->)
  end.
  unfold_monad. do 5 eexists. split; [exact Hr | reflexivity].
Qed.


Lemma mfa_step_result_frame projectRef token fixes reqs :
  fix_rls (mfa_step_result projectRef token fixes reqs) = fix_rls fixes
  /\ fix_pitr (mfa_step_result projectRef token fixes reqs) = fix_pitr fixes.
Proof.
  unfold mfa_step_result. destruct (truthy (needed (fix_mfa fixes))); auto.
Qed.

Lemma pitr_step_result_frame projectRef token fixes reqs :
  fix_mfa (pitr_step_result projectRef token fixes reqs) = fix_mfa fixes
  /\ fix_rls (pitr_step_result projectRef token fixes reqs) = fix_rls fixes.
Proof.
  unfold pitr_step_result. destruct (truthy (needed (fix_pitr fixes))); auto.
Qed.


Lemma pitr_step_requests_fix projectRef token fixes reqs :
  Forall (pitr_fix_request projectRef token)
         (pitr_step_requests projectRef token fixes reqs).
Proof.
  unfold pitr_step_requests, pitr_fix_requests. destruct (truthy _); [|constructor].
  constructor; [left; reflexivity|].
  destruct (remote reqs _); [|constructor].
  constructor; [right; reflexivity | constructor].
Qed.

(** The result of a fix call, entry by entry. *)
Lemma complianceFix_result projectRef token reqBody logs reqs :
  nullish reqBody = false ->
  let f0 := planned_fixes projectRef token reqBody reqs in
  let tables := planned_tables projectRef token reqs in
  let h1 := reqs ++ status_requests projectRef token in
  let h2 := history_before_rls projectRef token reqBody reqs in
  let h3 := history_before_pitr projectRef token reqBody reqs in
  exists result earlier,
    complianceFix projectRef token reqBody (mkWorld logs reqs) =
      (Return (Json200 result),
       mkWorld (earlier ++ [fix_completed_entry projectRef (fixId result)
                              (fix_details result)])
               (h3 ++ pitr_step_requests projectRef token f0 h3))
    /\ fix_summary result = summary_of_fixes (fix_details result)
    /\ fix_mfa (fix_details result)
       = fix_mfa (mfa_step_result projectRef token f0 h1)
    /\ fix_pitr (fix_details result)
       = fix_pitr (pitr_step_result projectRef token f0 h3)
    /\ rls_needed (fix_rls (fix_details result)) = rls_needed (fix_rls f0)
    /\ tableCount (fix_rls (fix_details result)) = List.length tables
    /\ (truthy (rls_needed (fix_rls f0)) = false ->
        fix_rls (fix_details result) = fix_rls f0)
    /\ (truthy (rls_needed (fix_rls f0)) = true ->
        rls_applied (fix_rls (fix_details result)) = true
        /\ rls_success (fix_rls (fix_details result))
           = forallb table_success (rls_tables (fix_rls (fix_details result)))
        /\ (returns (remote h2 (batch_request projectRef token tables)) = true ->
            rls_tables (fix_rls (fix_details result))
              = map (fun t => mkTableFix (qualified_name t) true None) tables
            /\ rls_error (fix_rls (fix_details result)) = None)
        /\ (forall e,
              remote h2 (batch_request projectRef token tables) = Throw e ->
              rls_error (fix_rls (fix_details result)) = Some (message e)
              /\ table_outcomes projectRef token
                   (h2 ++ [batch_request projectRef token tables]) tables
                   (rls_tables (fix_rls (fix_details result))))).
Proof.
  intros Hbody f0 tables h1 h2 h3.
  destruct (complianceFix_pipeline projectRef token reqBody logs reqs Hbody)
    as (fixId0 & l1 & f2 & l2 & l3 & Hr & Hrun).
  fold f0 h1 h2 h3 tables in Hr, Hrun.
  destruct (fixRls_step_trace projectRef token fixId0 tables
              (mfa_step_result projectRef token f0 h1) l1 h2)
    as (f2' & l2' & Hr' & Hmfa & Hpitr & Hneeded & Hcount & Hskip & Hdone).
  rewrite Hr in Hr'. injection Hr' as <- _ _.
  destruct (mfa_step_result_frame projectRef token f0 h1) as [Hf1_rls Hf1_pitr].
  destruct (pitr_step_result_frame projectRef token f2 h3) as [Hf3_mfa Hf3_rls].
  rewrite Hf1_rls in *.
  assert (Hsame : pitr_step_requests projectRef token f2 h3
                  = pitr_step_requests projectRef token f0 h3).
  { unfold pitr_step_requests. rewrite Hpitr, Hf1_pitr. reflexivity. }
  rewrite Hsame in Hrun.
  do 2 eexists. split; [exact Hrun|]. simpl.
  rewrite Hf3_mfa, Hf3_rls.
  split; [reflexivity|]. split; [exact Hmfa|].
  split.
  { unfold pitr_step_result. rewrite Hpitr, Hf1_pitr.
    destruct (truthy (needed (fix_pitr f0))); simpl; [reflexivity|].
    rewrite Hpitr, Hf1_pitr. reflexivity. }
  split; [exact Hneeded|]. split; [exact Hcount|].
  split.
  { intros Hn. rewrite (Hskip Hn), Hf1_rls. reflexivity. }
  exact Hdone.
Qed.


Lemma label_ok_category c :
  label_ok (category_label c) = negb (truthy (needed c)) || success c.
Proof.
  unfold category_label. destruct (truthy (needed c)), (success c); reflexivity.
Qed.

Lemma label_ok_rls r :
  label_ok (rls_label r) = negb (truthy (rls_needed r)) || rls_success r.
Proof.
  unfold rls_label.
  destruct (truthy (rls_needed r)), (rls_success r),
           (existsb table_success (rls_tables r)); reflexivity.
Qed.

Lemma planned_needed_off projectRef token reqBody reqs :
  let f0 := planned_fixes projectRef token reqBody reqs in
  (truthy (fix_option reqBody "fixMfa") = false ->
   truthy (needed (fix_mfa f0)) = false)
  /\ (truthy (fix_option reqBody "fixRls") = false ->
      truthy (rls_needed (fix_rls f0)) = false)
  /\ (truthy (fix_option reqBody "fixPitr") = false ->
      truthy (needed (fix_pitr f0)) = false).
Proof.
  unfold planned_fixes, plan. simpl.
  repeat split; intros H; rewrite truthy_js_and, H; apply andb_false_r.
Qed.

(** X7: a fix call first sends the three status probes (auth config,
    missing tables, backups), in that order and whatever the answers;
    every later request is a remediation request.  A category whose flag
    in the body is falsy is reported ['no_action_needed'] and gets no
    remediation request, whatever its probe found; with the three flags
    off the call sends the probes and nothing else. *)
Theorem complianceFix_probes_then_remediation projectRef token reqBody w :
  nullish reqBody = false ->
  exists result w' rest,
    complianceFix projectRef token reqBody w = (Return (Json200 result), w')
    /\ requests w' = requests w ++ status_requests projectRef token ++ rest
    /\ Forall (fun r => mfa_fix_request projectRef token r
                        \/ rls_fix_request projectRef token r
                        \/ pitr_fix_request projectRef token r) rest
    /\ (truthy (fix_option reqBody "fixMfa") = false ->
        label_mfa (fix_summary result) = "no_action_needed"
        /\ Forall (fun r => ~ mfa_fix_request projectRef token r) rest)
    /\ (truthy (fix_option reqBody "fixRls") = false ->
        label_rls (fix_summary result) = "no_action_needed"
        /\ Forall (fun r => ~ rls_fix_request projectRef token r) rest)
    /\ (truthy (fix_option reqBody "fixPitr") = false ->
        label_pitr (fix_summary result) = "no_action_needed"
        /\ Forall (fun r => ~ pitr_fix_request projectRef token r) rest)
    /\ (truthy (fix_option reqBody "fixMfa") = false ->
        truthy (fix_option reqBody "fixRls") = false ->
        truthy (fix_option reqBody "fixPitr") = false ->
        rest = []).
Proof.
  destruct w as [logs reqs]. simpl. intros Hbody.
  destruct (complianceFix_runs projectRef token reqBody logs reqs Hbody)
    as (result & logs' & new & Hrun & Hfix).
  destruct Hfix as [st new_mfa new_rls new_pitr fixes tables
    -> Hsum _ _ _ _ Hnm Hnr Hnp Hm_skip Hm_reqs Hr_skip _ Hr_reqs
    Hp_skip Hp_reqs].
  subst fixes.
  exists result, (mkWorld logs' (reqs ++ status_requests projectRef token
                                     ++ new_mfa ++ new_rls ++ new_pitr)),
         (new_mfa ++ new_rls ++ new_pitr).
  split; [exact Hrun|]. split; [reflexivity|].
  assert (Hoff_m : truthy (fix_option reqBody "fixMfa") = false ->
                   truthy (needed (fix_mfa (fix_details result))) = false).
  { intros H. rewrite Hnm, truthy_js_and, H. apply andb_false_r. }
  assert (Hoff_r : truthy (fix_option reqBody "fixRls") = false ->
                   truthy (rls_needed (fix_rls (fix_details result))) = false).
  { intros H. rewrite Hnr, truthy_js_and, H. apply andb_false_r. }
  assert (Hoff_p : truthy (fix_option reqBody "fixPitr") = false ->
                   truthy (needed (fix_pitr (fix_details result))) = false).
  { intros H. rewrite Hnp, truthy_js_and, H. apply andb_false_r. }
  rewrite Hsum. unfold summary_of_fixes, category_label, rls_label.
  cbn [label_mfa label_rls label_pitr].
  split; [|split; [|split; [|split]]].
  - apply Forall_app; split; [|apply Forall_app; split].
    + eapply Forall_impl; [|exact Hm_reqs]. tauto.
    + eapply Forall_impl; [|exact Hr_reqs]. tauto.
    + eapply Forall_impl; [|exact Hp_reqs]. tauto.
  - intros H. specialize (Hoff_m H). destruct (Hm_skip Hoff_m) as [_ ->].
    rewrite Hoff_m. split; [reflexivity|].
    apply Forall_app; split; [constructor|]. apply Forall_app; split.
    + eapply Forall_impl; [|exact Hr_reqs].
      intros r Hr. apply rls_fix_is_no_other_fix in Hr. tauto.
    + eapply Forall_impl; [|exact Hp_reqs].
      intros r Hr. apply pitr_fix_is_no_other_fix in Hr. tauto.
  - intros H. specialize (Hoff_r H). destruct (Hr_skip Hoff_r) as (_ & _ & ->).
    rewrite Hoff_r. split; [reflexivity|].
    apply Forall_app; split; [|apply Forall_app; split; [constructor|]].
    + eapply Forall_impl; [|exact Hm_reqs].
      intros r Hr. apply mfa_fix_is_no_other_fix in Hr. tauto.
    + eapply Forall_impl; [|exact Hp_reqs].
      intros r Hr. apply pitr_fix_is_no_other_fix in Hr. tauto.
  - intros H. specialize (Hoff_p H). destruct (Hp_skip Hoff_p) as [_ ->].
    rewrite Hoff_p. split; [reflexivity|].
    apply Forall_app; split; [|apply Forall_app; split; [|constructor]].
    + eapply Forall_impl; [|exact Hm_reqs].
      intros r Hr. apply mfa_fix_is_no_other_fix in Hr. tauto.
    + eapply Forall_impl; [|exact Hr_reqs].
      intros r Hr. apply rls_fix_is_no_other_fix in Hr. tauto.
  - intros Hm Hr Hp.
    destruct (Hm_skip (Hoff_m Hm)) as [_ ->].
    destruct (Hr_skip (Hoff_r Hr)) as (_ & _ & ->).
    destruct (Hp_skip (Hoff_p Hp)) as [_ ->]. reflexivity.
Qed.



Lemma table_outcomes_entry projectRef token reqs tables results :
  table_outcomes projectRef token reqs tables results ->
  forall i tb,
    nth_error tables i = Some tb ->
    exists tf sent,
      nth_error results i = Some tf
      /\ fixed_table tf = qualified_name tb
      /\ table_success tf =
           returns (remote (reqs ++ sent) (alter_request projectRef token tb)).
Proof.
  induction 1 as [|reqs tb0 tbs tf tfs Hs Hn Ho IH]; intros i tb Hi.
  - destruct i; discriminate.
  - destruct i as [|i]; simpl in *.
    + injection Hi as <-. exists tf, []. rewrite app_nil_r. auto.
    + destruct (IH i tb Hi) as (tf' & sent & Hnth & Hname & Hsucc).
      exists tf', (alter_request projectRef token tb0 :: sent).
      split; [exact Hnth|]. split; [exact Hname|].
      rewrite Hsucc, <- app_assoc. reflexivity.
Qed.

Lemma forallb_marked_fixed (tables : list TableRef) :
  forallb table_success
    (map (fun t => mkTableFix (qualified_name t) true None) tables) = true.
Proof. induction tables; simpl; auto. Qed.

Lemma pitr_requests_fix_no_rls projectRef token fixes reqs :
  Forall (fun r => ~ rls_fix_request projectRef token r)
         (pitr_step_requests projectRef token fixes reqs).
Proof.
  eapply Forall_impl; [|apply pitr_step_requests_fix].
  intros r Hr. apply pitr_fix_is_no_other_fix in Hr. tauto.
Qed.

(** X10: in a fix call whose plan needs an RLS fix and whose batch
    transaction is accepted, the batch is the only RLS request of the
    call; every planned table is reported fixed, in the order of the plan
    and without an error, and the category is labelled ['fixed']. *)
Theorem complianceFix_rls_batch_accepted projectRef token reqBody w data :
  nullish reqBody = false ->
  truthy (rls_needed (fix_rls (planned_fixes projectRef token reqBody (requests w))))
    = true ->
  remote (history_before_rls projectRef token reqBody (requests w))
         (batch_request projectRef token
            (planned_tables projectRef token (requests w))) = Return data ->
  exists result w' rest,
    complianceFix projectRef token reqBody w = (Return (Json200 result), w')
    /\ let rls := fix_rls (fix_details result) in
       let tables := planned_tables projectRef token (requests w) in
       requests w'
         = history_before_rls projectRef token reqBody (requests w)
             ++ batch_request projectRef token tables :: rest
       /\ Forall (fun r => ~ rls_fix_request projectRef token r) rest
       /\ rls_applied rls = true
       /\ rls_success rls = true
       /\ rls_error rls = None
       /\ rls_tables rls
          = map (fun t => mkTableFix (qualified_name t) true None) tables
       /\ tableCount rls = List.length tables
       /\ label_rls (fix_summary result) = "fixed".
Proof.
  destruct w as [logs reqs]. cbn [requests]. intros Hbody Hneeded Hbatch.
  destruct (complianceFix_result projectRef token reqBody logs reqs Hbody)
    as (result & earlier & Hrun & Hsum & _ & _ & Hn & Hcount & _ & Hdone).
  cbv zeta in Hdone. destruct (Hdone Hneeded) as (Happlied & Hsuccess & Hok & _).
  rewrite Hbatch in Hok. destruct (Hok eq_refl) as [Htables Herror].
  assert (Hs : rls_success (fix_rls (fix_details result)) = true).
  { rewrite Hsuccess, Htables. apply forallb_marked_fixed. }
  do 3 eexists. split; [exact Hrun|]. cbv zeta. cbn [requests].
  split.
  { unfold history_before_pitr at 1. unfold rls_step_requests at 1.
    rewrite Hneeded, Hbatch. rewrite <- (app_assoc _ [_]). reflexivity. }
  split; [apply pitr_requests_fix_no_rls|].
  repeat (split; [assumption|]).
  rewrite Hsum. unfold summary_of_fixes, rls_label. cbn [label_rls].
  rewrite Hn, Hneeded, Hs. reflexivity.
Qed.

(** X11: in a fix call whose plan needs an RLS fix and whose batch
    transaction is refused, the handler falls back to one [ALTER TABLE]
    request per planned table.  The results name the planned tables in
    the order of the plan; each one succeeds exactly when the API
    accepted the [ALTER TABLE] of its table; the category succeeds when
    all of them do, and its error stays the message of the batch, also
    when every table was fixed. *)
Theorem complianceFix_rls_fallback projectRef token reqBody w e :
  nullish reqBody = false ->
  truthy (rls_needed (fix_rls (planned_fixes projectRef token reqBody (requests w))))
    = true ->
  remote (history_before_rls projectRef token reqBody (requests w))
         (batch_request projectRef token
            (planned_tables projectRef token (requests w))) = Throw e ->
  exists result w' alters rest,
    complianceFix projectRef token reqBody w = (Return (Json200 result), w')
    /\ let rls := fix_rls (fix_details result) in
       let tables := planned_tables projectRef token (requests w) in
       let before := history_before_rls projectRef token reqBody (requests w) in
       requests w'
         = before ++ batch_request projectRef token tables :: alters ++ rest
       /\ List.length alters = List.length tables
       /\ (forall r,
             In r alters
             <-> exists tb, In tb tables /\ r = alter_request projectRef token tb)
       /\ Forall (fun r => ~ rls_fix_request projectRef token r) rest
       /\ rls_applied rls = true
       /\ rls_error rls = Some (message e)
       /\ map fixed_table (rls_tables rls) = map qualified_name tables
       /\ rls_success rls = forallb table_success (rls_tables rls)
       /\ (forall i tb,
             nth_error tables i = Some tb ->
             exists tf sent,
               nth_error (rls_tables rls) i = Some tf
               /\ fixed_table tf = qualified_name tb
               /\ table_success tf
                  = returns (remote (before ++ batch_request projectRef token tables
                                            :: sent)
                                    (alter_request projectRef token tb))).
Proof.
  destruct w as [logs reqs]. cbn [requests]. intros Hbody Hneeded Hbatch.
  destruct (complianceFix_result projectRef token reqBody logs reqs Hbody)
    as (result & earlier & Hrun & Hsum & _ & _ & Hn & Hcount & _ & Hdone).
  cbv zeta in Hdone. destruct (Hdone Hneeded) as (Happlied & Hsuccess & _ & Hko).
  destruct (Hko e Hbatch) as [Herror Hout].
  exists result. eexists.
  exists (map (alter_request projectRef token)
              (planned_tables projectRef token reqs)).
  eexists. split; [exact Hrun|]. cbv zeta. cbn [requests].
  split.
  { unfold history_before_pitr at 1. unfold rls_step_requests at 1.
    rewrite Hneeded, Hbatch. rewrite <- !app_assoc. reflexivity. }
  split; [apply length_map|].
  split.
  { intros r. rewrite in_map_iff. split; intros (tb & H1 & H2); exists tb; auto. }
  split; [apply pitr_requests_fix_no_rls|].
  split; [assumption|]. split; [assumption|].
  split; [eapply table_outcomes_names; exact Hout|].
  split; [assumption|].
  intros i tb Hi.
  destruct (table_outcomes_entry _ _ _ _ _ Hout i tb Hi)
    as (tf & sent & Hnth & Hname & Hs).
  exists tf, sent. split; [exact Hnth|]. split; [exact Hname|].
  rewrite Hs, <- app_assoc. reflexivity.
Qed.

Lemma table_refs_of_rows rows :
  Forall (fun row => nullish row = false) rows ->
  map_throwing table_ref_of_row rows = Return (map table_ref rows).
Proof.
  induction 1 as [|row rows Hrow _ IH]; [reflexivity|].
  simpl. unfold table_ref_of_row at 1, get_prop. rewrite Hrow, IH. reflexivity.
Qed.

Lemma table_refs_of_null_row rows :
  Exists (fun row => nullish row = true) rows ->
  returns (map_throwing table_ref_of_row rows) = false.
Proof.
  intros H. apply map_throwing_throws.
  eapply Exists_impl; [|exact H].
  intros row Hrow. unfold table_ref_of_row, get_prop. rewrite Hrow. reflexivity.
Qed.

(** X12: the RLS part of the plan is read off the rows of the
    missing-tables query.  When no row is [null] or [undefined], the
    planned tables are the rows' [schemaname] and [tablename], in order,
    and the fix is needed exactly when there is a row and the [fixRls]
    option is truthy.  A single [null] row makes the probe fail as a
    whole: no table is planned, nothing is applied and the category is
    reported ['no_action_needed'], whatever the other rows say. *)
Theorem complianceFix_rls_plan projectRef token reqBody w data :
  nullish reqBody = false ->
  remote (requests w ++ [get_request (authConfigUrl projectRef) token])
         (query_request projectRef token rls_missing_tables_query_sql)
    = Return data ->
  exists result w',
    complianceFix projectRef token reqBody w = (Return (Json200 result), w')
    /\ let rls := fix_rls (fix_details result) in
       let rows := normalizeRows data in
       (Forall (fun row => nullish row = false) rows ->
        planned_tables projectRef token (requests w) = map table_ref rows
        /\ tableCount rls = List.length rows
        /\ truthy (rls_needed rls)
           = negb (List.length rows =? 0)%nat
             && truthy (fix_option reqBody "fixRls"))
       /\ (Exists (fun row => nullish row = true) rows ->
           planned_tables projectRef token (requests w) = []
           /\ rls_needed rls = JBool false
           /\ tableCount rls = 0%nat
           /\ rls_applied rls = false
           /\ rls_tables rls = []
           /\ label_rls (fix_summary result) = "no_action_needed").
Proof.
  destruct w as [logs reqs]. cbn [requests]. intros Hbody Hrows.
  destruct (complianceFix_result projectRef token reqBody logs reqs Hbody)
    as (result & earlier & Hrun & Hsum & _ & _ & Hn & Hcount & Hskip & _).
  do 2 eexists. split; [exact Hrun|]. cbv zeta.
  rewrite Hsum. unfold summary_of_fixes. cbn [label_rls].
  rewrite Hn, Hcount.
  assert (Hst : status_rls (planned_status projectRef token reqs)
                = rls_status_of (Return data)).
  { unfold planned_status. cbn [status_rls]. rewrite Hrows. reflexivity. }
  assert (Hneeded : rls_needed (fix_rls (planned_fixes projectRef token reqBody reqs))
                    = js_and (JBool (rls_needsFix (rls_status_of (Return data))))
                             (fix_option reqBody "fixRls")).
  { unfold planned_fixes, plan. cbn [fix_rls rls_needed]. rewrite Hst. reflexivity. }
  unfold planned_tables. rewrite Hst. rewrite Hneeded.
  unfold rls_status_of. split.
  - intros Hall. rewrite (table_refs_of_rows _ Hall).
    cbn [rls_status_tables rls_needsFix]. rewrite length_map.
    split; [reflexivity|]. split; [reflexivity|].
    rewrite truthy_js_and. cbn [truthy].
    destruct (normalizeRows data); reflexivity.
  - intros Hnull. apply table_refs_of_null_row in Hnull.
    assert (Hoff : truthy (rls_needed
                     (fix_rls (planned_fixes projectRef token reqBody reqs))) = false).
    { rewrite Hneeded. unfold rls_status_of.
      destruct (map_throwing table_ref_of_row (normalizeRows data));
        [reflexivity | discriminate]. }
    destruct (map_throwing table_ref_of_row (normalizeRows data)) as [e|refs];
      [|discriminate].
    cbn [rls_status_tables rls_needsFix js_and truthy].
    split; [reflexivity|]. split; [reflexivity|]. split; [reflexivity|].
    rewrite (Hskip Hoff).
    split; [reflexivity|]. split; [reflexivity|].
    unfold rls_label. rewrite Hoff. reflexivity.
Qed.






(** X14: the last record of a fix call is ['compliance_fix_completed'].
    Its status is ['success'] exactly when each of the three labels of
    the response is ['no_action_needed'] or ['fixed'], and
    ['partial_success'] otherwise; the summary it stores is the summary
    of the response. *)
Theorem complianceFix_completion_record projectRef token reqBody w :
  nullish reqBody = false ->
  exists result w' earlier last,
    complianceFix projectRef token reqBody w = (Return (Json200 result), w')
    /\ evidenceLogs w' = earlier ++ [last]
    /\ action last = "compliance_fix_completed"
    /\ ev_projectRef last = Some projectRef
    /\ prop (details last) "summary" = fix_summary_js (fix_summary result)
    /\ status last
       = (if label_ok (label_mfa (fix_summary result))
             && label_ok (label_rls (fix_summary result))
             && label_ok (label_pitr (fix_summary result))
          then "success" else "partial_success").
Proof.
  destruct w as [logs reqs]. intros Hbody.
  destruct (complianceFix_result projectRef token reqBody logs reqs Hbody)
    as (result & earlier & Hrun & Hsum & _).
  do 4 eexists. split; [exact Hrun|]. split; [reflexivity|].
  split; [reflexivity|]. split; [reflexivity|].
  rewrite Hsum. split; [reflexivity|].
  unfold summary_of_fixes, fix_completed_entry, allSuccessful.
  cbn [status label_mfa label_rls label_pitr].
  rewrite !label_ok_category, label_ok_rls. reflexivity.
Qed.

Lemma checker_logs {A} projectRef token (m : M A) logs reqs a logs' reqs' :
  effects (tagged projectRef) (project_request projectRef token) m ->
  m (mkWorld logs reqs) = (a, mkWorld logs' reqs') ->
  exists new, logs' = logs ++ new /\ Forall (tagged projectRef) new.
Proof.
  intros He Hrun. destruct (He (mkWorld logs reqs)) as (new & sent & Hw & Hl & _).
  rewrite Hrun in Hw. simpl in Hw. injection Hw as -> _.
  exists new. auto.
Qed.

Lemma complianceCheck_log projectRef token logs reqs :
  exists report middle reqs',
    complianceCheck projectRef token (mkWorld logs reqs) =
      (Return (Json200 report),
       mkWorld (logs ++ check_initiated_entry projectRef
                  :: middle ++ [check_completed_entry projectRef report])
               reqs')
    /\ Forall (tagged projectRef) middle
    /\ report_checkId report = evidence_id logs
    /\ report_projectRef report = projectRef.
Proof.
  unfold complianceCheck, try_catch, bind. unfold logEvidence at 1.
  cbn [evidenceLogs requests].
  fold (check_initiated_entry projectRef).
  match goal with
  | |- context [mfaCheck ?p ?t ?i (mkWorld ?l ?r)] =>
      destruct (mfaCheck_trace p t i l r) as (l1 & Hrun1);
      destruct (checker_logs p t _ _ _ _ _ _ (mfaCheck_effects p t i) Hrun1)
        as (n1 & -> & Hn1);
      rewrite Hrun1
  end.
  match goal with
  | |- context [rlsCheck ?p ?t ?i (mkWorld ?l ?r)] =>
      destruct (rlsCheck_trace p t i l r) as (l2 & Hrun2);
      destruct (checker_logs p t _ _ _ _ _ _ (rlsCheck_effects p t i) Hrun2)
        as (n2 & -> & Hn2);
      rewrite Hrun2
  end.
  match goal with
  | |- context [pitrCheck ?p ?t ?i (mkWorld ?l ?r)] =>
      destruct (pitrCheck_trace p t i l r) as (l3 & Hrun3);
      destruct (checker_logs p t _ _ _ _ _ _ (pitrCheck_effects p t i) Hrun3)
        as (n3 & -> & Hn3);
      rewrite Hrun3
  end.
  unfold logEvidence, ret. cbn [evidenceLogs requests].
  match goal with
  | |- context [Json200 ?r] => exists r, (n1 ++ n2 ++ n3)
  end.
  eexists. split.
  - unfold check_completed_entry. cbn [report_checkId report_summary].
    rewrite <- !app_assoc. reflexivity.
  - split; [|split; reflexivity].
    apply Forall_app; split; [assumption|]. apply Forall_app; split; assumption.
Qed.

(** X15: a compliance check always answers 200, whatever the management
    API does: each checker catches its own errors.  The check writes
    ['compliance_check_initiated'] first and ['compliance_check_completed']
    last, the latter always with status ['success'] and with the summary
    of the response; the [checkId] of the response is the id of the first
    record. *)
Theorem complianceCheck_always_completes projectRef token w :
  exists report w' middle,
    complianceCheck projectRef token w = (Return (Json200 report), w')
    /\ evidenceLogs w'
       = evidenceLogs w
           ++ check_initiated_entry projectRef
           :: middle ++ [check_completed_entry projectRef report]
    /\ Forall (tagged projectRef) middle
    /\ report_checkId report = evidence_id (evidenceLogs w)
    /\ report_projectRef report = projectRef.
Proof.
  destruct w as [logs reqs].
  destruct (complianceCheck_log projectRef token logs reqs)
    as (report & middle & reqs' & Hrun & Hrest).
  do 2 eexists. exists middle.
  split; [exact Hrun|]. split; [reflexivity|exact Hrest].
Qed.

Lemma complianceFix_first_record projectRef token reqBody logs reqs :
  nullish reqBody = false ->
  exists result later reqs',
    complianceFix projectRef token reqBody (mkWorld logs reqs) =
      (Return (Json200 result),
       mkWorld (logs ++ fix_initiated_entry projectRef reqBody :: later) reqs')
    /\ fixId result = evidence_id logs
    /\ fix_projectRef result = projectRef
    /\ Forall (tagged projectRef) later.
Proof.
  intros Hbody.
  unfold complianceFix, try_catch, bind, lift, destructure_or_true.
  rewrite Hbody. unfold logEvidence at 1. cbn [evidenceLogs requests].
  fold (fix_option reqBody "fixMfa") (fix_option reqBody "fixRls")
       (fix_option reqBody "fixPitr").
  fold (fix_initiated_entry projectRef reqBody).
  match goal with
  | |- context [complianceStatus ?p ?t ?i (mkWorld ?l ?r)] =>
      destruct (complianceStatus_trace p t i l r) as (l0 & Hst);
      destruct (checker_logs p t _ _ _ _ _ _ (complianceStatus_effects p t i) Hst)
        as (n0 & -> & Hn0);
      rewrite Hst
  end.
  unfold logEvidence at 1. cbn [evidenceLogs requests].
  match goal with
  | |- context [fixMfa_step ?p ?t ?i ?f (mkWorld ?l ?r)] =>
      destruct (fixMfa_step_trace p t i f l r) as (l1 & Hm);
      destruct (checker_logs p t _ _ _ _ _ _ (fixMfa_step_effects p t i f) Hm)
        as (n1 & -> & Hn1);
      rewrite Hm
  end.
  match goal with
  | |- context [fixRls_step ?p ?t ?i ?tb ?f (mkWorld ?l ?r)] =>
      destruct (fixRls_step_trace p t i tb f l r) as (f2 & l2 & Hr & _);
      destruct (checker_logs p t _ _ _ _ _ _ (fixRls_step_effects p t i tb f) Hr)
        as (n2 & -> & Hn2);
      rewrite Hr
  end.
  match goal with
  | |- context [fixPitr_step ?p ?t ?i ?f (mkWorld ?l ?r)] =>
      destruct (fixPitr_step_trace p t i f l r) as (l3 & Hp);
      destruct (checker_logs p t _ _ _ _ _ _ (fixPitr_step_effects p t i f) Hp)
        as (n3 & -> & Hn3);
      rewrite Hp
  end.
  unfold logEvidence, ret. cbn [evidenceLogs requests].
  match goal with
  | |- context [Json200 ?r] => exists r
  end.
  match goal with
  | |- context [(((((?l ++ n0) ++ [?e1]) ++ n1) ++ n2) ++ n3) ++ [?e2]] =>
      exists (n0 ++ [e1] ++ n1 ++ n2 ++ n3 ++ [e2])
  end.
  eexists. split.
  - rewrite <- !app_assoc. reflexivity.
  - split; [reflexivity|]. split; [reflexivity|].
    apply Forall_app; split; [exact Hn0|].
    apply Forall_app; split; [repeat constructor|].
    apply Forall_app; split; [exact Hn1|].
    apply Forall_app; split; [exact Hn2|].
    apply Forall_app; split; [exact Hn3|].
    repeat constructor.
Qed.

(** X13: on every body that reaches the fix handler, that is on every
    body but [null] and [undefined], the handler answers 200 whatever the
    management API does: the branch that answers 500 is not taken.  The
    first record it writes is ['compliance_fix_initiated'], which stores
    each option as it was sent, or [true] when it was not sent; every
    later record carries the project, and the [fixId] of the response is
    the id returned for that first record. *)
Theorem complianceFix_always_answers projectRef token reqBody w :
  nullish reqBody = false ->
  exists result w' later,
    complianceFix projectRef token reqBody w = (Return (Json200 result), w')
    /\ fix_projectRef result = projectRef
    /\ fixId result = evidence_id (evidenceLogs w)
    /\ evidenceLogs w'
       = evidenceLogs w ++ fix_initiated_entry projectRef reqBody :: later
    /\ Forall (tagged projectRef) later
    /\ (forall k,
          In k ["fixMfa"; "fixRls"; "fixPitr"] ->
          prop (prop (details (fix_initiated_entry projectRef reqBody)) "fixOptions") k
          = if is_undefined (prop reqBody k) then JBool true else prop reqBody k).
Proof.
  destruct w as [logs reqs]. intros Hbody.
  destruct (complianceFix_first_record projectRef token reqBody logs reqs Hbody)
    as (result & later & reqs' & Hrun & Hid & Hproject & Hlater).
  exists result. eexists. exists later.
  split; [exact Hrun|]. split; [exact Hproject|]. split; [exact Hid|].
  split; [reflexivity|]. split; [exact Hlater|].
  intros k [<- | [<- | [<- | []]]]; reflexivity.
Qed.

(** ** The query in the evidence *)

Lemma code_units_le c : (code_units c <= 2)%nat.
Proof.
  unfold code_units.
  destruct (_ <? 128)%nat; [lia|]. destruct (_ <? 192)%nat; [lia|].
  destruct (_ <? 240)%nat; lia.
Qed.

Lemma js_length_append (s t : string) :
  js_length (s ++ t) = (js_length s + js_length t)%nat.
Proof. induction s as [|c s IH]; simpl; [reflexivity|]. rewrite IH. lia. Qed.

Lemma code_units_of_nat k :
  (k < 256)%nat ->
  code_units (ascii_of_nat k)
  = if (k <? 128)%nat then 1%nat else if (k <? 192)%nat then 0%nat
    else if (k <? 240)%nat then 1%nat else 2%nat.
Proof.
  intros H. unfold code_units. rewrite nat_ascii_embedding by exact H. reflexivity.
Qed.

Lemma js_length_high_surrogate lead rest :
  js_length (high_surrogate lead rest) = 1%nat.
Proof.
  unfold high_surrogate. cbv zeta.
  set (top := (_ - 64)%nat).
  cbn [js_length].
  assert (H1 : (top / 64 mod 16 < 16)%nat) by (apply Nat.mod_upper_bound; lia).
  assert (H2 : (top mod 64 < 64)%nat) by (apply Nat.mod_upper_bound; lia).
  rewrite (code_units_of_nat 237) by lia.
  rewrite (code_units_of_nat (160 + _)) by lia.
  rewrite (code_units_of_nat (128 + _)) by lia.
  replace (237 <? 128)%nat with false by reflexivity.
  replace (237 <? 192)%nat with false by reflexivity.
  replace (237 <? 240)%nat with true by reflexivity.
  destruct (Nat.ltb_spec (160 + top / 64 mod 16) 128); [lia|].
  destruct (Nat.ltb_spec (160 + top / 64 mod 16) 192); [|lia].
  destruct (Nat.ltb_spec (128 + top mod 64) 128); [lia|].
  destruct (Nat.ltb_spec (128 + top mod 64) 192); [|lia].
  reflexivity.
Qed.

Lemma js_prefix_all (n : nat) (s : string) :
  (js_length s <= n)%nat -> js_prefix n s = s.
Proof.
  revert n. induction s as [|c rest IH]; intros n H; [reflexivity|].
  cbn [js_length] in H. cbn [js_prefix].
  pose proof (code_units_le c) as Hc.
  destruct (code_units c) as [|[|[|k]]] eqn:E; try lia.
  - rewrite IH by lia. reflexivity.
  - destruct n as [|n']; [lia|]. rewrite IH by lia. reflexivity.
  - destruct n as [|[|n']]; try lia. rewrite IH by lia. reflexivity.
Qed.

Lemma js_length_prefix (n : nat) (s : string) :
  (n <= js_length s)%nat -> js_length (js_prefix n s) = n.
Proof.
  revert n. induction s as [|c rest IH]; intros n H.
  - simpl in *. lia.
  - cbn [js_length] in H. cbn [js_prefix].
    pose proof (code_units_le c) as Hc.
    destruct (code_units c) as [|[|[|k]]] eqn:E; try lia.
    + cbn [js_length]. rewrite E. rewrite IH by lia. reflexivity.
    + destruct n as [|n']; [reflexivity|].
      cbn [js_length]. rewrite E, IH by lia. reflexivity.
    + destruct n as [|[|n']]; [reflexivity| |].
      * apply js_length_high_surrogate.
      * cbn [js_length]. rewrite E, IH by lia. reflexivity.
Qed.

Lemma js_length_of_ascii (s : string) :
  Forall (fun c => (nat_of_ascii c < 128)%nat) (list_ascii_of_string s) ->
  js_length s = String.length s /\ forall n, js_prefix n s = substring 0 n s.
Proof.
  induction s as [|c rest IH]; simpl; intros H.
  - split; [reflexivity|]. intros [|n]; reflexivity.
  - inversion H as [|? ? Hc Hrest]; subst. destruct (IH Hrest) as [Hl Hp].
    unfold code_units. apply Nat.ltb_lt in Hc. rewrite Hc. split; [lia|].
    intros [|n]; [reflexivity|]. simpl. rewrite Hp. reflexivity.
Qed.

Lemma truncate_query_bounds query :
  (js_length (truncate_query query) <= 1003)%nat
  /\ ((js_length query <= 1000)%nat -> truncate_query query = query)
  /\ ((1000 < js_length query)%nat ->
      truncate_query query = (js_prefix 1000 query ++ "...")%string
      /\ js_length (js_prefix 1000 query) = 1000%nat
      /\ js_length (truncate_query query) = 1003%nat).
Proof.
  unfold truncate_query.
  destruct (1000 <? js_length query)%nat eqn:Hlen.
  - apply Nat.ltb_lt in Hlen.
    assert (Hp : js_length (js_prefix 1000 query) = 1000%nat)
      by (apply js_length_prefix; lia).
    assert (Hl : js_length (js_prefix 1000 query ++ "...")%string = 1003%nat).
    { rewrite js_length_append, Hp. reflexivity. }
    split; [rewrite Hl; lia|]. split; [lia|].
    intros _. split; [reflexivity|]. split; [exact Hp | exact Hl].
  - apply Nat.ltb_ge in Hlen. split; [lia|]. split; [reflexivity|]. lia.
Qed.

(** X16: an execution of a query sends exactly one request, which
    carries the query in full, and writes exactly two records: the
    attempt, then the success or the failure.  Both records store the
    query cut to its first 1000 UTF-16 code units followed by ['...']
    when [query.length] is more than 1000, so 1003 code units, and
    unchanged otherwise.  For a query of ASCII characters the code units
    are the characters. *)
Theorem executeQuery_logs_bounded_query projectRef token query queryName w :
  exists first second,
    snd (executeQuery projectRef token query queryName w)
      = mkWorld (evidenceLogs w ++ [first; second])
                (requests w ++ [query_request projectRef token query])
    /\ body (query_request projectRef token query) = JObj [("query", JStr query)]
    /\ action first = "sql_query_attempt"
    /\ action second
       = (if returns (remote (requests w) (query_request projectRef token query))
          then "sql_query_success" else "sql_query_failure")
    /\ logged_query first = JStr (truncate_query query)
    /\ logged_query second = JStr (truncate_query query)
    /\ (js_length (truncate_query query) <= 1003)%nat
    /\ ((js_length query <= 1000)%nat -> truncate_query query = query)
    /\ ((1000 < js_length query)%nat ->
        truncate_query query = (js_prefix 1000 query ++ "...")%string
        /\ js_length (js_prefix 1000 query) = 1000%nat
        /\ js_length (truncate_query query) = 1003%nat)
    /\ (Forall (fun c => (nat_of_ascii c < 128)%nat) (list_ascii_of_string query) ->
        js_length query = String.length query
        /\ js_prefix 1000 query = substring 0 1000 query).
Proof.
  destruct w as [logs reqs]. cbn [requests evidenceLogs].
  assert (Hascii : Forall (fun c => (nat_of_ascii c < 128)%nat)
                          (list_ascii_of_string query) ->
                   js_length query = String.length query
                   /\ js_prefix 1000 query = substring 0 1000 query).
  { intros H. destruct (js_length_of_ascii query H) as [Hl Hp]. auto. }
  destruct (truncate_query_bounds query) as (Hb1 & Hb2 & Hb3).
  destruct (remote reqs (query_request projectRef token query)) as [e|data] eqn:H.
  - rewrite (executeQuery_throws _ _ _ _ _ _ _ H).
    do 2 eexists. split; [reflexivity|].
    do 5 (split; [reflexivity|]). auto.
  - rewrite (executeQuery_returns _ _ _ _ _ _ _ H).
    do 2 eexists. split; [reflexivity|].
    do 5 (split; [reflexivity|]). auto.
Qed.

(** ** The token middleware *)

Lemma validateToken_rejects {A} req (next : JSValue -> M A) logs reqs :
  truthy (requestToken req) = false ->
  validateToken req next (mkWorld logs reqs) =
    (Return (Json401 "Supabase token is required"),
     mkWorld (logs ++ [missing_token_entry req]) reqs).
Proof. intros H. unfold validateToken. cbv zeta. rewrite H. reflexivity. Qed.

Lemma validateToken_passes {A} req (next : JSValue -> M A) logs reqs :
  truthy (requestToken req) = true ->
  validateToken req next (mkWorld logs reqs) =
    match next (requestToken req)
               (mkWorld (logs ++ [token_attempt_entry req]) reqs) with
    | (Return answer, w') => (Return (Passed answer), w')
    | (Throw e, w') => (Throw e, w')
    end.
Proof.
  intros H. unfold validateToken. cbv zeta. rewrite H.
  unfold bind, logEvidence, ret. cbn [negb evidenceLogs requests].
  fold (token_attempt_entry req).
  destruct (next _ _) as [[e|answer] w']; reflexivity.
Qed.

Lemma getProjectLogs_untagged projectRef logs reqs e :
  ev_projectRef e = None ->
  getProjectLogs projectRef (mkWorld (logs ++ [e]) reqs)
  = getProjectLogs projectRef (mkWorld logs reqs).
Proof.
  intros He. unfold getProjectLogs. cbn [evidenceLogs].
  rewrite filter_app. cbn [filter]. rewrite He. apply app_nil_r.
Qed.

(** X18: a request in which the middleware finds no token is answered
    401 whatever the route behind it: the route is not run, no request
    is sent to the management API, and the single record written,
    ['token_validation'] with status ['failure'], belongs to no project
    and stores the headers of the request, the [Authorization] header
    as it was sent. *)
Theorem validateToken_rejects_missing_token {A} req (next : JSValue -> M A) w :
  truthy (requestToken req) = false ->
  exists w' record,
    validateToken req next w
      = (Return (Json401 "Supabase token is required"), w')
    /\ requests w' = requests w
    /\ evidenceLogs w' = evidenceLogs w ++ [record]
    /\ action record = "token_validation"
    /\ status record = "failure"
    /\ (forall projectRef, getProjectLogs projectRef w' = getProjectLogs projectRef w)
    /\ (forall a,
          authorization req = Some a ->
          prop (prop (details record) "headers") "authorization" = JStr a).
Proof.
  destruct w as [logs reqs]. intros H.
  rewrite (validateToken_rejects req next logs reqs H).
  do 2 eexists. split; [reflexivity|].
  do 4 (split; [reflexivity|]). split.
  - intros projectRef. apply getProjectLogs_untagged. reflexivity.
  - intros a Ha. unfold missing_token_entry, headers_js.
    cbn [details prop lookup String.eqb Ascii.eqb Bool.eqb].
    rewrite Ha. reflexivity.
Qed.

Lemma substring_all (s : string) : substring 0 (String.length s) s = s.
Proof. induction s; simpl; congruence. Qed.

Lemma bearer_token_of_header t :
  prefix "Bearer " ("Bearer " ++ t)%string = true
  /\ substring 7 (String.length ("Bearer " ++ t)%string - 7) ("Bearer " ++ t)%string
     = t.
Proof.
  split.
  - simpl. destruct t; reflexivity.
  - simpl. rewrite Nat.sub_0_r. apply substring_all.
Qed.

Lemma bearer_token_is_there t :
  ends_with_blank ("Bearer " ++ t)%string = false -> t <> EmptyString.
Proof. intros H ->. discriminate H. Qed.

(** X19: an [Authorization] header that starts with ['Bearer '] decides
    alone.  Its value arrives without a blank at the end, so something
    follows the prefix: that is the token, whatever the [supabase-token]
    header, the body and the query carry; the request passes the
    middleware, the route is run with that token, and the source logged
    is ['Authorization header']. *)
Theorem bearer_header_decides {A} req (next : JSValue -> M A) w t :
  authorization req = Some ("Bearer " ++ t)%string ->
  ends_with_blank ("Bearer " ++ t)%string = false ->
  requestToken req = JStr t
  /\ t <> EmptyString
  /\ tokenSource req = "Authorization header"
  /\ validateToken req next w
     = match next (JStr t)
                  (mkWorld (evidenceLogs w ++ [token_attempt_entry req])
                           (requests w)) with
       | (Return answer, w') => (Return (Passed answer), w')
       | (Throw e, w') => (Throw e, w')
       end.
Proof.
  intros Ha Hblank.
  assert (Htoken : requestToken req = JStr t).
  { unfold requestToken. cbv zeta. rewrite Ha.
    destruct (bearer_token_of_header t) as [-> ->]. reflexivity. }
  assert (Ht : t <> EmptyString) by (apply bearer_token_is_there; exact Hblank).
  destruct w as [logs reqs]. split; [exact Htoken|]. split; [exact Ht|].
  split.
  - unfold tokenSource. rewrite Ha. reflexivity.
  - rewrite validateToken_passes.
    + rewrite Htoken. reflexivity.
    + rewrite Htoken. cbn [truthy]. apply negb_true_iff.
      apply String.eqb_neq. exact Ht.
Qed.


Lemma complianceFix_answers projectRef token reqBody w :
  exists resp w', complianceFix projectRef token reqBody w = (Return resp, w').
Proof.
  destruct w as [logs reqs]. destruct (nullish reqBody) eqn:Hbody.
  - unfold complianceFix, try_catch, bind, lift, destructure_or_true.
    rewrite Hbody. do 2 eexists. reflexivity.
  - destruct (complianceFix_runs projectRef token reqBody logs reqs Hbody)
      as (result & logs' & new & Hrun & _).
    do 2 eexists. exact Hrun.
Qed.

Lemma effects_requests {A} P Q (m : M A) w a w' :
  effects P Q m -> m w = (a, w') ->
  exists new, requests w' = requests w ++ new /\ Forall Q new.
Proof.
  intros He Hrun. destruct (He w) as (logs & new & Hw & _ & Hq).
  rewrite Hrun in Hw. simpl in Hw. subst w'. exists new. auto.
Qed.

(** X21: the middleware only tests that the token is truthy: it sends
    nothing to the management API itself.  On a request that carries a
    token, the check route and the fix route run their handler, and every
    request they send goes to an endpoint of the project of the URL with
    the token of the request, as a string, for bearer. *)
Theorem guarded_routes_forward_the_token req projectRef w :
  truthy (requestToken req) = true ->
  let token := toString (requestToken req) in
  (exists report w' new,
     checkRoute req projectRef w = (Return (Passed (Json200 report)), w')
     /\ requests w' = requests w ++ new
     /\ Forall (project_request projectRef token) new)
  /\ (exists resp w' new,
        fixRoute req projectRef w = (Return (Passed resp), w')
        /\ requests w' = requests w ++ new
        /\ Forall (project_request projectRef token) new).
Proof.
  destruct w as [logs reqs]. intros Htoken token. split.
  - unfold checkRoute. rewrite (validateToken_passes _ _ _ _ Htoken).
    destruct (complianceCheck_trace projectRef token
                (logs ++ [token_attempt_entry req]) reqs)
      as (report & logs' & Hrun).
    fold token. rewrite Hrun.
    destruct (effects_requests _ _ _ _ _ _
                (complianceCheck_effects projectRef token) Hrun)
      as (new & Hreqs & Hnew).
    exists report. do 2 eexists. split; [reflexivity|]. split; eassumption.
  - unfold fixRoute. rewrite (validateToken_passes _ _ _ _ Htoken).
    destruct (complianceFix_answers projectRef token (req_body req)
                (mkWorld (logs ++ [token_attempt_entry req]) reqs))
      as (resp & w' & Hrun).
    fold token. rewrite Hrun.
    destruct (effects_requests _ _ _ _ _ _
                (complianceFix_effects projectRef token (req_body req)) Hrun)
      as (new & Hreqs & Hnew).
    exists resp. do 2 eexists. split; [reflexivity|]. split; eassumption.
Qed.

(** ** The account routes *)

Lemma refs_of_projects items :
  returns (map_throwing (fun p => get_prop p "ref") items) = true
  <-> Forall (fun p => nullish p = false) items.
Proof.
  induction items as [|p items IH]; simpl.
  - split; [constructor | reflexivity].
  - unfold get_prop at 1. destruct (nullish p) eqn:Hp.
    + split; [discriminate|]. intros H. inversion H. congruence.
    + destruct (map_throwing _ items) as [e|refs]; simpl in *.
      * split; [discriminate|]. intros H. inversion H. apply IH. assumption.
      * split; [|reflexivity]. intros _. constructor; [exact Hp|].
        apply IH. reflexivity.
Qed.

Lemma projectRefs_accepts name data :
  returns (projectRefs name data) = true <-> project_list data.
Proof.
  unfold projectRefs, project_list.
  destruct data as [| |b|n|s|items|fields]; cbn [nullish returns];
    try (split; [discriminate | intros (items & H & _); discriminate H]).
  rewrite refs_of_projects. split.
  - intros H. exists items. auto.
  - intros (items' & H & Hall). injection H as ->. exact Hall.
Qed.

Lemma authValidate_runs reqBody logs reqs :
  nullish reqBody = false ->
  truthy (prop reqBody "token") = true ->
  let token := prop reqBody "token" in
  exists logs',
    authValidate reqBody (mkWorld logs reqs) =
      (Return
         match remote reqs (projects_request token) with
         | Throw e => InvalidToken401 (message e)
         | Return data =>
             match projectRefs "projects" data with
             | Throw e => InvalidToken401 (message e)
             | Return _ => Valid200 data
             end
         end,
       mkWorld logs' (reqs ++ [projects_request token])).
Proof.
  intros Hbody Htoken token.
  unfold authValidate, try_catch, bind, lift, destructure. rewrite Hbody.
  fold token. unfold token at 1. rewrite Htoken. cbn [negb].
  unfold logEvidence at 1. unfold axios. cbn [evidenceLogs requests].
  fold (get_request projectsUrl (toString token)).
  fold (projects_request token).
  destruct (remote reqs (projects_request token)) as [e|data].
  - unfold logEvidence, ret. eexists. reflexivity.
  - destruct (projectRefs "projects" data) as [e|refs];
      unfold logEvidence, ret; eexists; reflexivity.
Qed.

(** X22: the answers of [POST /api/auth/validate].  500 exactly when
    the body is [null] or [undefined]; 400 when the body has no truthy
    [token]; in both cases nothing is sent.  Otherwise the route sends
    one GET to the projects endpoint with the token for bearer, and
    answers 200 with the payload exactly when the payload is an array
    without [null] elements; 401 ['Invalid Supabase token'] in every
    other case, also when the management API accepted the token and
    answered something else than such an array. *)
Theorem authValidate_classifies reqBody w :
  exists resp w',
    authValidate reqBody w = (Return resp, w')
    /\ (nullish reqBody = true ->
        resp = ServerError500 /\ requests w' = requests w)
    /\ (nullish reqBody = false ->
        truthy (prop reqBody "token") = false ->
        resp = TokenRequired400 /\ requests w' = requests w)
    /\ (nullish reqBody = false ->
        truthy (prop reqBody "token") = true ->
        let sent := projects_request (prop reqBody "token") in
        requests w' = requests w ++ [sent]
        /\ (forall e,
              remote (requests w) sent = Throw e ->
              resp = InvalidToken401 (message e))
        /\ (forall data,
              remote (requests w) sent = Return data ->
              (project_list data -> resp = Valid200 data)
              /\ (~ project_list data ->
                  exists details, resp = InvalidToken401 details))).
Proof.
  destruct w as [logs reqs]. destruct (nullish reqBody) eqn:Hbody.
  - unfold authValidate, try_catch, bind, lift, destructure. rewrite Hbody.
    unfold logEvidence, ret. do 2 eexists. split; [reflexivity|].
    split; [intros _; split; reflexivity|]. split; discriminate.
  - destruct (truthy (prop reqBody "token")) eqn:Htoken.
    + destruct (authValidate_runs reqBody logs reqs Hbody Htoken) as (logs' & Hrun).
      cbv zeta in Hrun. do 2 eexists. split; [exact Hrun|].
      split; [discriminate|]. split; [discriminate|].
      intros _ _. cbv zeta. cbn [requests]. split; [reflexivity|]. split.
      * intros e ->. reflexivity.
      * intros data ->. split.
        -- intros Hlist. apply (projectRefs_accepts "projects") in Hlist.
           destruct (projectRefs "projects" data); [discriminate | reflexivity].
        -- intros Hlist.
           destruct (projectRefs "projects" data) as [e|refs] eqn:Hrefs.
           ++ eexists. reflexivity.
           ++ exfalso. apply Hlist. apply (projectRefs_accepts "projects").
              rewrite Hrefs. reflexivity.
    + unfold authValidate, try_catch, bind, lift, destructure. rewrite Hbody, Htoken.
      unfold logEvidence, ret. do 2 eexists. split; [reflexivity|].
      split; [discriminate|]. split; [intros _ _; split; reflexivity|].
      discriminate.
Qed.

Lemma projectsHandler_runs token logs reqs :
  exists logs',
    projectsHandler token (mkWorld logs reqs) =
      (Return
         match remote reqs (projects_request token) with
         | Throw e => Json500 "Failed to fetch projects" (message e)
         | Return data =>
             match projectRefs "response.data" data with
             | Throw e => Json500 "Failed to fetch projects" (message e)
             | Return _ => Json200 data
             end
         end,
       mkWorld logs' (reqs ++ [projects_request token])).
Proof.
  unfold projectsHandler, try_catch, bind, lift.
  unfold logEvidence at 1. unfold axios. cbn [evidenceLogs requests].
  fold (get_request projectsUrl (toString token)).
  fold (projects_request token).
  destruct (remote reqs (projects_request token)) as [e|data].
  - unfold logEvidence, ret. eexists. reflexivity.
  - destruct (projectRefs "response.data" data) as [e|refs];
      unfold logEvidence, ret; eexists; reflexivity.
Qed.

(** X23: the answers of [GET /api/projects] on a request that carries a
    token.  The route sends one GET to the projects endpoint with the
    token for bearer; it answers 200 with the payload exactly when the
    payload is an array without [null] elements, and 500 otherwise: with
    the message of the request error when the request failed, with the
    message of a [TypeError] when the payload has another shape. *)
Theorem projectsRoute_classifies req w :
  truthy (requestToken req) = true ->
  exists resp w',
    projectsRoute req w = (Return (Passed resp), w')
    /\ let sent := projects_request (requestToken req) in
       requests w' = requests w ++ [sent]
       /\ (forall e,
             remote (requests w) sent = Throw e ->
             resp = Json500 "Failed to fetch projects" (message e))
       /\ (forall data,
             remote (requests w) sent = Return data ->
             (project_list data -> resp = Json200 data)
             /\ (~ project_list data ->
                 exists details,
                   resp = Json500 "Failed to fetch projects" details)
             /\ (isArray data = false -> nullish data = false ->
                 resp = Json500 "Failed to fetch projects"
                                "response.data.map is not a function")).
Proof.
  destruct w as [logs reqs]. intros Htoken.
  unfold projectsRoute. rewrite (validateToken_passes _ _ _ _ Htoken).
  destruct (projectsHandler_runs (requestToken req)
              (logs ++ [token_attempt_entry req]) reqs) as (logs' & ->).
  do 2 eexists. split; [reflexivity|]. cbv zeta. cbn [requests].
  split; [reflexivity|]. split.
  - intros e ->. reflexivity.
  - intros data ->. split; [|split].
    + intros Hlist. apply (projectRefs_accepts "response.data") in Hlist.
      destruct (projectRefs "response.data" data); [discriminate | reflexivity].
    + intros Hlist.
      destruct (projectRefs "response.data" data) as [e|refs] eqn:Hrefs.
      * eexists. reflexivity.
      * exfalso. apply Hlist. apply (projectRefs_accepts "response.data").
        rewrite Hrefs. reflexivity.
    + intros Harr Hnull. unfold projectRefs. rewrite Hnull.
      destruct data as [| |b|n|s|items|fields]; try discriminate; reflexivity.
Qed.

(** X24: [GET /api/evidence/logs] without a project, on a request that
    carries a token.  The route sends nothing to the management API, so
    the token is never checked; it writes two records and answers 200
    with the whole in-memory log, these two records included: the
    records of every project are in the answer. *)
Theorem allEvidenceRoute_returns_the_whole_log req w :
  truthy (requestToken req) = true ->
  exists logs w' request_record,
    allEvidenceRoute req w = (Return (Passed (Json200 logs)), w')
    /\ requests w' = requests w
    /\ logs = evidenceLogs w'
    /\ logs = evidenceLogs w ++ [token_attempt_entry req; request_record]
    /\ action request_record = "evidence_logs_request"
    /\ (forall projectRef e, In e (getProjectLogs projectRef w) -> In e logs).
Proof.
  destruct w as [logs reqs]. intros Htoken.
  unfold allEvidenceRoute. rewrite (validateToken_passes _ _ _ _ Htoken).
  unfold allEvidenceHandler, try_catch, bind, logEvidence.
  cbn [evidenceLogs requests].
  do 3 eexists. split; [reflexivity|]. split; [reflexivity|].
  split; [reflexivity|]. split; [rewrite <- app_assoc; reflexivity|].
  split; [reflexivity|].
  intros projectRef e Hin. unfold getProjectLogs in Hin. cbn [evidenceLogs] in Hin.
  apply filter_In in Hin. apply in_or_app. left. apply in_or_app. left. tauto.
Qed.

End Server.

(** ** The handlers on the scripted projects *)


(** The project whose auth config cannot be read: the MFA payload carries
    the error and the verdict is ['pass']. *)
Lemma mfa_unreadable_project_passes :
  exists report w',
    complianceCheck mfa_unreadable_project demo_ids demo_ref demo_token fresh
      = (Return (Json200 report), w')
    /\ mfa_error (report_mfa report) = Some "Request failed with status code 401"
    /\ overallStatus (report_summary report) = "pass".
Proof.
  destruct (complianceCheck_errored_probe mfa_unreadable_project demo_ids demo_ref
              demo_token fresh) as (report & w' & Hrun & Hmfa & _).
  exists report, w'. split; [exact Hrun|].
  vm_compute in Hrun. injection Hrun as <- <-.
  split; [reflexivity|].
  apply Hmfa; [discriminate | reflexivity | reflexivity].
Defined.


(** A backups configuration whose [pitr_enabled] is the string ["true"]
    counts as disabled. *)
Lemma string_true_is_not_enabled :
  exists r w',
    pitrCheck sql_down_project demo_ids demo_ref demo_token JNull fresh = (Return r, w')
    /\ pitrEnabled r = false
    /\ pitr_status r = "fail".
Proof.
  destruct (pitrCheck_strict_boolean sql_down_project demo_ids demo_ref demo_token
              JNull fresh (JObj [("pitr_enabled", JStr "true")]))
    as (r & w' & Hrun & _ & _ & _ & Hother);
    [vm_compute; reflexivity|].
  exists r, w'. split; [exact Hrun|]. apply Hother. left. reflexivity.
Defined.

(** Two tables with RLS, one of them without policies: both pass. *)
Lemma tables_without_policies_pass :
  exists r w',
    rlsCheck mfa_unreadable_project demo_ids demo_ref demo_token JNull fresh
      = (Return r, w')
    /\ option_map (map (fun t => (hasPolicies t, table_status t))) (rls_check_tables r)
       = Some [(JBool true, "pass"); (JBool false, "pass")].
Proof.
  destruct (rlsCheck_status_from_rls_enabled mfa_unreadable_project demo_ids
              demo_ref demo_token JNull fresh
              (JArr [table_row "orders" true true; table_row "notes" false true]))
    as (r & w' & Hrun & _ & _);
    [vm_compute; reflexivity|].
  exists r, w'. split; [exact Hrun|].
  vm_compute in Hrun. injection Hrun as <- <-. reflexivity.
Defined.

(** A payload that wraps the rows in one more array is unwrapped. *)
Lemma nested_answer_is_unwrapped :
  exists w',
    executeQuery nested_answer_project demo_ids demo_ref demo_token
      rls_tables_query_sql "rls_tables_query" fresh
    = (Return [table_row "orders" true true], w').
Proof.
  destruct (executeQuery_normalizes_payload nested_answer_project demo_ids demo_ref
              demo_token rls_tables_query_sql "rls_tables_query" fresh
              (JArr [JArr [table_row "orders" true true]; JNum 1]))
    as (rows & w' & Hrun & Hnested & _);
    [vm_compute; reflexivity|].
  exists w'. rewrite Hrun. rewrite (Hnested _ _ eq_refl). reflexivity.
Defined.

(** An endpoint that answers 200 with a page of text: the executor returns
    no rows and records a success. *)
Lemma text_answer_gives_no_rows :
  exists w',
    executeQuery text_answer_project demo_ids demo_ref demo_token
      pitrSqlQuery "pitr_enable_sql" fresh = (Return [], w')
    /\ map action (evidenceLogs w') = ["sql_query_attempt"; "sql_query_success"].
Proof.
  destruct (executeQuery_reraises_request_errors text_answer_project demo_ids
              demo_ref demo_token pitrSqlQuery "pitr_enable_sql" fresh)
    as [_ Hbad].
  destruct (Hbad (JStr "<html>Bad gateway</html>")) as (w' & Hrun & Hlogs);
    [vm_compute; reflexivity | reflexivity |].
  exists w'. split; [exact Hrun|]. rewrite Hlogs. reflexivity.
Defined.

(** The failure clause as the specification words it does not hold on that
    endpoint: the payload is malformed, yet nothing is thrown and no
    failure entry is recorded. *)
Lemma text_answer_is_no_failure :
  query_execution_fails
    (text_answer_project (requests fresh)
       (query_request demo_ref demo_token pitrSqlQuery))
  /\ ~ failure_recorded_and_reraised text_answer_project demo_ids
         demo_ref demo_token pitrSqlQuery "pitr_enable_sql" fresh
  /\ fst (executeQuery text_answer_project demo_ids demo_ref demo_token
            pitrSqlQuery "pitr_enable_sql" fresh) = Return [].
Proof.
  split; [vm_compute; reflexivity|]. split; [|vm_compute; reflexivity].
  intros (e & w' & Hrun & _). vm_compute in Hrun. discriminate Hrun.
Qed.

(** The unreachable project: the three probes throw, every category is
    ['no_action_needed'] and only the three status requests are sent. *)
Lemma unreachable_project_needs_no_action :
  exists result w',
    complianceFix unreachable_project demo_ids demo_ref demo_token (JObj []) fresh
      = (Return (Json200 result), w')
    /\ fix_summary result
       = mkFixSummary "no_action_needed" "no_action_needed" "no_action_needed"
    /\ requests w' = status_requests demo_ref demo_token.
Proof.
  destruct (complianceFix_probe_failure_means_no_action unreachable_project
              demo_ids demo_ref demo_token (JObj []) fresh eq_refl)
    as (result & w' & new & Hrun & _ & Hmfa & Hrls & Hpitr).
  exists result, w'. split; [exact Hrun|].
  destruct (Hmfa unauthorized) as (_ & _ & Hm & _); [vm_compute; reflexivity|].
  destruct (Hrls unauthorized) as (_ & _ & Hr & _); [vm_compute; reflexivity|].
  destruct (Hpitr unauthorized) as (_ & _ & Hp & _); [vm_compute; reflexivity|].
  split.
  - destruct (fix_summary result) as [lm lr lp]. simpl in *. congruence.
  - vm_compute in Hrun. injection Hrun as _ <-. reflexivity.
Defined.

(** ** The further statements on the scripted projects *)

(** A [null] among the rows of the tables query fails the RLS check as a
    whole. *)
Lemma null_row_fails_the_rls_check :
  exists msg,
    fst (rlsCheck null_row_project demo_ids demo_ref demo_token JNull fresh)
      = Return (rls_failed msg).
Proof.
  destruct (rlsCheck_all_or_nothing null_row_project demo_ids demo_ref demo_token
              JNull fresh) as [_ Hnull].
  apply (Hnull (JArr [JObj [("schemaname", JStr "public");
                            ("tablename", JStr "notes")];
                      JNull])).
  - reflexivity.
  - vm_compute. apply Exists_cons_tl, Exists_cons_hd. reflexivity.
Defined.


(** On the mixed project the check and the probe of the fix read the
    same auth config and agree that MFA is off: the value of the check
    is [undefined], that of the absent [external_mfa_enabled]. *)
Lemma mixed_project_mfa_is_off_for_both :
  exists r st,
    fst (mfaCheck mixed_project demo_ids demo_ref demo_token JNull fresh) = Return r
    /\ fst (mfaStatus mixed_project demo_ids demo_ref demo_token JNull fresh)
       = Return st
    /\ needsFix st = true
    /\ mfaEnabledGlobally r = Some JUndefined.
Proof.
  destruct (mfa_probe_agrees_with_check mixed_project demo_ids demo_ref demo_token
              JNull JNull fresh fresh
              (JObj [("sms_provider", JStr "NONE"); ("mfa_enabled", JBool false)])
              eq_refl eq_refl)
    as (r & st & Hr & Hst & Hneeds & _ & Hglobal & _).
  exists r, st. split; [exact Hr|]. split; [exact Hst|].
  split; [rewrite Hneeds; reflexivity|].
  rewrite (Hglobal eq_refl). reflexivity.
Defined.

(** [pitr_enabled: 'true'], a string: the check reports a failure, the
    probe of the fix sees nothing to fix. *)
Lemma string_true_fails_the_check_and_needs_no_fix :
  exists r st,
    fst (pitrCheck sql_down_project demo_ids demo_ref demo_token JNull fresh)
      = Return r
    /\ fst (pitrStatus sql_down_project demo_ids demo_ref demo_token JNull fresh)
       = Return st
    /\ pitr_status r = "fail"
    /\ needsFix st = false.
Proof.
  destruct (pitr_probe_is_laxer_than_check sql_down_project demo_ids demo_ref
              demo_token JNull JNull fresh fresh
              (JObj [("pitr_enabled", JStr "true")]) eq_refl eq_refl)
    as (r & st & Hr & Hst & _ & _ & Hlax).
  exists r, st. split; [exact Hr|]. split; [exact Hst|].
  apply Hlax; [reflexivity | discriminate].
Defined.

(** The mixed project with the three fixes switched off: the probes are
    sent and nothing else, and no category reports an action. *)
Lemma fixes_off_sends_the_probes_only :
  exists result w',
    complianceFix mixed_project demo_ids demo_ref demo_token all_fixes_off fresh
      = (Return (Json200 result), w')
    /\ requests w' = status_requests demo_ref demo_token
    /\ fix_summary result
       = mkFixSummary "no_action_needed" "no_action_needed" "no_action_needed".
Proof.
  destruct (complianceFix_probes_then_remediation mixed_project demo_ids demo_ref
              demo_token all_fixes_off fresh eq_refl)
    as (result & w' & rest & Hrun & Hreqs & _ & Hm & Hr & Hp & Hnone).
  exists result, w'. split; [exact Hrun|].
  rewrite (Hnone eq_refl eq_refl eq_refl) in Hreqs. split.
  - rewrite Hreqs. vm_compute. reflexivity.
  - destruct (Hm eq_refl) as [Hlm _]. destruct (Hr eq_refl) as [Hlr _].
    destruct (Hp eq_refl) as [Hlp _].
    destruct (fix_summary result) as [lm lr lp]. simpl in *. congruence.
Defined.




(** The mixed project accepts the batch: one RLS request, the three
    tables of the plan reported fixed. *)
Lemma mixed_project_batch_fixes_the_tables :
  exists result w',
    complianceFix mixed_project demo_ids demo_ref demo_token (JObj []) fresh
      = (Return (Json200 result), w')
    /\ map fixed_table (rls_tables (fix_rls (fix_details result)))
       = ["public.orders"; "public.notes"; "public.drafts"]
    /\ rls_success (fix_rls (fix_details result)) = true
    /\ rls_error (fix_rls (fix_details result)) = None
    /\ label_rls (fix_summary result) = "fixed".
Proof.
  destruct (complianceFix_rls_batch_accepted mixed_project demo_ids demo_ref
              demo_token (JObj []) fresh
              (JArr [table_row "orders" true true;
                     table_row "notes" false true;
                     table_row "drafts" false false])
              eq_refl eq_refl eq_refl)
    as (result & w' & rest & Hrun & _ & _ & _ & Hs & He & Ht & _ & Hl).
  exists result, w'. split; [exact Hrun|].
  split; [rewrite Ht; reflexivity|]. auto.
Defined.

(** The project that refuses the batch: one [ALTER TABLE] per table,
    both accepted, and the error of the batch kept. *)
Lemma batch_refused_project_falls_back :
  exists result w',
    complianceFix batch_refused_project demo_ids demo_ref demo_token (JObj []) fresh
      = (Return (Json200 result), w')
    /\ map fixed_table (rls_tables (fix_rls (fix_details result)))
       = ["public.notes"; "public.drafts"]
    /\ rls_error (fix_rls (fix_details result))
       = Some "Request failed with status code 500"
    /\ List.length (requests w') = 6%nat.
Proof.
  destruct (complianceFix_rls_fallback batch_refused_project demo_ids demo_ref
              demo_token (JObj []) fresh server_error eq_refl eq_refl eq_refl)
    as (result & w' & alters & rest & Hrun & Hreqs & _ & _ & _ & _ & He & Hn & _).
  exists result, w'. split; [exact Hrun|].
  split; [rewrite Hn; reflexivity|]. split; [exact He|].
  vm_compute in Hrun. injection Hrun as _ <-. reflexivity.
Defined.

(** The project with a [null] row: no table is planned and the RLS
    category needs no action, although a table lacks RLS. *)
Lemma null_row_plans_no_table :
  exists result w',
    complianceFix null_row_project demo_ids demo_ref demo_token (JObj []) fresh
      = (Return (Json200 result), w')
    /\ tableCount (fix_rls (fix_details result)) = 0%nat
    /\ rls_applied (fix_rls (fix_details result)) = false
    /\ label_rls (fix_summary result) = "no_action_needed".
Proof.
  destruct (complianceFix_rls_plan null_row_project demo_ids demo_ref demo_token
              (JObj []) fresh
              (JArr [JObj [("schemaname", JStr "public");
                           ("tablename", JStr "notes")];
                     JNull])
              eq_refl eq_refl)
    as (result & w' & Hrun & _ & Hnull).
  exists result, w'. split; [exact Hrun|].
  destruct Hnull as (_ & _ & Hc & Ha & _ & Hl).
  { vm_compute. apply Exists_cons_tl, Exists_cons_hd. reflexivity. }
  auto.
Defined.

(** The mixed project: the MFA fix fails, so the last record of the fix
    has status ['partial_success']. *)
Lemma mixed_project_fix_is_a_partial_success :
  exists result w' earlier last,
    complianceFix mixed_project demo_ids demo_ref demo_token (JObj []) fresh
      = (Return (Json200 result), w')
    /\ evidenceLogs w' = (earlier ++ [last])%list
    /\ action last = "compliance_fix_completed"
    /\ status last = "partial_success".
Proof.
  destruct (complianceFix_completion_record mixed_project demo_ids demo_ref
              demo_token (JObj []) fresh eq_refl)
    as (result & w' & earlier & last & Hrun & Hlogs & Ha & _ & _ & Hs).
  exists result, w', earlier, last.
  split; [exact Hrun|]. split; [exact Hlogs|]. split; [exact Ha|].
  rewrite Hs. vm_compute in Hrun. injection Hrun as <- _. reflexivity.
Defined.

(** A lower-case [bearer] is no token: the check route answers 401,
    sends nothing, and the header is stored in the evidence. *)
Lemma lower_case_bearer_is_rejected_and_stored :
  exists w' record,
    checkRoute mixed_project demo_ids lower_case_request demo_ref fresh
      = (Return (Json401 "Supabase token is required"), w')
    /\ requests w' = []
    /\ evidenceLogs w' = [record]
    /\ prop (prop (details record) "headers") "authorization"
       = JStr "bearer sbp_demo".
Proof.
  destruct (validateToken_rejects_missing_token demo_ids lower_case_request
              (fun token => complianceCheck mixed_project demo_ids demo_ref
                              (toString token))
              fresh eq_refl)
    as (w' & record & Hrun & Hreqs & Hlogs & _ & _ & _ & Hheader).
  exists w', record. split; [exact Hrun|]. split; [exact Hreqs|].
  split; [exact Hlogs|]. apply Hheader. reflexivity.
Defined.


(** The check route on a request with a bearer token: every request to
    the management API carries it. *)
Lemma check_route_sends_the_bearer_token :
  exists report w',
    checkRoute mixed_project demo_ids bearer_request demo_ref fresh
      = (Return (Passed (Json200 report)), w')
    /\ Forall (fun r => bearer r = demo_token) (requests w').
Proof.
  destruct (guarded_routes_forward_the_token mixed_project demo_ids
              bearer_request demo_ref fresh eq_refl)
    as [(report & w' & new & Hrun & Hreqs & Hnew) _].
  exists report, w'. split; [exact Hrun|].
  rewrite Hreqs. eapply Forall_impl; [|exact Hnew].
  intros r [Hb _]. exact Hb.
Defined.

(** A token that the management API accepts, answered with an object
    instead of an array: the route reports an invalid token. *)
Lemma accepted_token_with_an_object_is_invalid :
  exists details w',
    authValidate (account_api (Return (JObj [("projects", JArr [])]))) demo_ids
                 (JObj [("token", JStr demo_token)]) fresh
      = (Return (InvalidToken401 details), w').
Proof.
  destruct (authValidate_classifies
              (account_api (Return (JObj [("projects", JArr [])]))) demo_ids
              (JObj [("token", JStr demo_token)]) fresh)
    as (resp & w' & Hrun & _ & _ & Hsent).
  destruct (Hsent eq_refl eq_refl) as (_ & _ & Hdata).
  destruct (Hdata (JObj [("projects", JArr [])]) eq_refl) as [_ Hbad].
  destruct Hbad as [details ->].
  - intros (items & H & _). discriminate H.
  - exists details, w'. exact Hrun.
Defined.

(** The projects route on an account with two projects. *)
Lemma two_projects_are_listed :
  exists w',
    projectsRoute (account_api (Return two_projects)) demo_ids bearer_request fresh
      = (Return (Passed (Json200 two_projects)), w')
    /\ requests w' = [get_request projectsUrl demo_token].
Proof.
  destruct (projectsRoute_classifies (account_api (Return two_projects)) demo_ids
              bearer_request fresh eq_refl)
    as (resp & w' & Hrun & Hreqs & _ & Hdata).
  destruct (Hdata two_projects eq_refl) as [Hok _].
  rewrite Hok in Hrun.
  - exists w'. split; [exact Hrun | exact Hreqs].
  - exists [JObj [("ref", JStr demo_ref); ("name", JStr "shop")];
            JObj [("ref", JStr "zyxwvutsrqponmlkjihg"); ("name", JStr "blog")]].
    split; [reflexivity|]. repeat constructor.
Defined.

(** The evidence route without a project, asked with any token, hands
    out a record of the demo project. *)
Lemma any_token_reads_the_log_of_a_project :
  let kept := mkEvidence "compliance_check_completed" "success" (JObj [])
                         (Some demo_ref) in
  exists logs w',
    allEvidenceRoute demo_ids basic_auth_request (mkWorld [kept] [])
      = (Return (Passed (Json200 logs)), w')
    /\ In kept logs
    /\ requests w' = [].
Proof.
  intros kept.
  destruct (allEvidenceRoute_returns_the_whole_log mixed_project demo_ids
              basic_auth_request (mkWorld [kept] []) eq_refl)
    as (logs & w' & record & Hrun & Hreqs & _ & _ & _ & Hin).
  exists logs, w'. split; [exact Hrun|]. split; [|exact Hreqs].
  apply (Hin demo_ref). left. reflexivity.
Defined.

(** The mixed project with an empty body: the call is answered 200, its
    first record stores the three options switched on, and the [fixId]
    is the id of that record. *)
Lemma empty_body_switches_every_fix_on :
  exists result w' later,
    complianceFix mixed_project demo_ids demo_ref demo_token (JObj []) fresh
      = (Return (Json200 result), w')
    /\ fixId result = JStr "1700000000000-0"
    /\ evidenceLogs w' = fix_initiated_entry demo_ref (JObj []) :: later
    /\ prop (details (fix_initiated_entry demo_ref (JObj []))) "fixOptions"
       = JObj [("fixMfa", JBool true); ("fixRls", JBool true);
               ("fixPitr", JBool true)].
Proof.
  destruct (complianceFix_always_answers mixed_project demo_ids demo_ref
              demo_token (JObj []) fresh eq_refl)
    as (result & w' & later & Hrun & _ & Hid & Hlogs & _ & _).
  exists result, w', later. split; [exact Hrun|].
  split; [rewrite Hid; reflexivity|]. split; [exact Hlogs | reflexivity].
Defined.

(** A short query is logged as it is, in two records; so is a query of
    400 euro signs, which counts 400 code units in 1200 bytes. *)
Lemma short_query_is_logged_in_full :
  (exists first second,
     evidenceLogs (snd (executeQuery mixed_project demo_ids demo_ref demo_token
                          "SELECT 1;" "probe" fresh))
       = [first; second]
     /\ logged_query first = JStr "SELECT 1;"
     /\ logged_query second = JStr "SELECT 1;"
     /\ action second = "sql_query_success")
  /\ (exists first second,
        evidenceLogs (snd (executeQuery mixed_project demo_ids demo_ref demo_token
                             euro_query "probe" fresh))
          = [first; second]
        /\ String.length euro_query = 1200%nat
        /\ logged_query first = JStr euro_query).
Proof.
  split.
  - destruct (executeQuery_logs_bounded_query mixed_project demo_ids demo_ref
                demo_token "SELECT 1;" "probe" fresh)
      as (first & second & Hw & _ & _ & Ha & Hf & Hs & _ & Hshort & _).
    exists first, second. rewrite Hw.
    rewrite (Hshort ltac:(vm_compute; lia)) in Hf, Hs.
    split; [reflexivity|]. split; [exact Hf|]. split; [exact Hs|].
    rewrite Ha. reflexivity.
  - destruct (executeQuery_logs_bounded_query mixed_project demo_ids demo_ref
                demo_token euro_query "probe" fresh)
      as (first & second & Hw & _ & _ & _ & Hf & _ & _ & Hshort & _).
    exists first, second. rewrite Hw.
    rewrite (Hshort ltac:(vm_compute; lia)) in Hf.
    split; [reflexivity|]. split; [vm_compute; reflexivity | exact Hf].
Defined.

(** A bearer token next to another token in the [supabase-token]
    header: the projects route asks with the bearer token. *)
Lemma bearer_token_wins_over_the_other_header :
  requestToken two_token_request = JStr demo_token
  /\ exists w',
       projectsRoute (account_api (Return two_projects)) demo_ids
                     two_token_request fresh
         = (Return (Passed (Json200 two_projects)), w')
       /\ requests w' = [get_request projectsUrl demo_token].
Proof.
  destruct (bearer_header_decides demo_ids two_token_request
              (projectsHandler (account_api (Return two_projects)) demo_ids)
              fresh demo_token eq_refl eq_refl)
    as (Htoken & _ & _ & Hrun).
  split; [exact Htoken|].
  eexists. split; [unfold projectsRoute; rewrite Hrun; vm_compute; reflexivity|].
  reflexivity.
Defined.

(** The compliant project passes: the checkers return summaries without
    a failing unit and PITR passes.  The mixed project fails: one user
    and one table fail. *)
Lemma compliant_project_passes_and_mixed_project_fails :
  (exists report w',
     complianceCheck compliant_project demo_ids demo_ref demo_token fresh
       = (Return (Json200 report), w')
     /\ mfa_summary (report_mfa report) = Some (mkSummary 2 2 0)
     /\ rls_summary (report_rls report) = Some (mkSummary 2 2 0)
     /\ pitr_status (report_pitr report) = "pass"
     /\ overallStatus (report_summary report) = "pass")
  /\ (exists report w',
        complianceCheck mixed_project demo_ids demo_ref demo_token fresh
          = (Return (Json200 report), w')
        /\ mfa_summary (report_mfa report) = Some (mkSummary 2 1 1)
        /\ rls_summary (report_rls report) = Some (mkSummary 3 2 1)
        /\ pitr_status (report_pitr report) = "fail"
        /\ overallStatus (report_summary report) = "fail").
Proof.
  split.
  - destruct (complianceCheck_overallStatus compliant_project demo_ids demo_ref
                demo_token fresh)
      as (report & w' & sm & sr & Hrun & _ & _ & _ & Hm & Hr & Hiff & _).
    exists report, w'. split; [exact Hrun|].
    vm_compute in Hrun. injection Hrun as <- <-.
    injection Hm as <-. injection Hr as <-.
    split; [reflexivity|]. split; [reflexivity|]. split; [reflexivity|].
    apply Hiff. repeat split.
  - destruct (complianceCheck_overallStatus mixed_project demo_ids demo_ref
                demo_token fresh)
      as (report & w' & sm & sr & Hrun & _ & _ & _ & Hm & Hr & _ & Helse).
    exists report, w'. split; [exact Hrun|].
    vm_compute in Hrun. injection Hrun as <- <-.
    injection Hm as <-. injection Hr as <-.
    split; [reflexivity|]. split; [reflexivity|]. split; [reflexivity|].
    apply Helse. intros (H & _). discriminate H.
Defined.

